(** * The operations registry of amplify-genai-backend

    A shallow embedding of

    - [amplify-lambda-ops/service/core.py]: the service endpoints
      [fetch_user_ops], [write_ops] and [delete_op] over the DynamoDB table of
      operations, and
    - [tools/ops.py]: the declaration scanner ([extract_ops_from_file],
      [scan_ops]) and the command-line [write_ops],

    with the field renaming of [chat-billing/service/core.py], followed by the
    properties of the registry synchronisation and of the scanner.

    The table is keyed by the pair (user, tag), which is its whole primary key
    (every [update_item] and [delete_item] of the sources addresses an item by
    exactly these two attributes), so a query on both attributes returns at
    most one item.  The item's [ops] attribute is the partition: a list of
    operation dictionaries.

    The write and delete paths are given twice: in [Service] and [Tools] over
    a table that serves every call, and in [ServiceOn] and [ToolsOn] over a
    table that answers the calls on some keys with an exception. *)

From Stdlib Require Import ZArith.
From stdpp Require Import base option list strings gmap fin_maps.

Set Warnings "-register-all".

Local Open Scope string_scope.
Local Open Scope list_scope.

(** ** Python values common to both programs *)

(** The exceptions that the modelled code can raise. *)
Inductive exn : Type :=
  | KeyError (key : string)
  | AttributeError (attr : string)
  | NameError (name : string)
  | TypeError
  | SyntaxError
  | ValidationError
  | ClientError (msg : string).

(** Result of evaluating a Python expression or call. *)
Inductive outcome (A : Type) : Type :=
  | Returned (a : A)
  | Raised (e : exn).
Arguments Returned {A} a.
Arguments Raised {A} e.

#[global] Instance outcome_ret : MRet outcome := @Returned.
#[global] Instance outcome_bind : MBind outcome := λ A B k x,
  match x with
  | Returned a => k a
  | Raised e => Raised e
  end.

(** Values of literals: what an [ast.Constant] node holds.  [COther] stands
    for the remaining kinds of literal (float, complex, bytes, Ellipsis), named
    by their [repr]. *)
Inductive PyConst : Type :=
  | CNone
  | CBool (b : bool)
  | CInt (z : Z)
  | CStr (s : string)
  | COther (repr : string).

(** Nested literal structures.  A dictionary is the list of its bindings in
    insertion order. *)
Inductive PyVal : Type :=
  | VConst (c : PyConst)
  | VList (items : list PyVal)
  | VDict (bindings : list (PyConst * PyVal)).

(** [ParamModel] of tools/ops.py; the service carries the same two keys. *)
Record ParamModel : Type := mkParam {
  param_description : string;
  param_name : string
}.

(** An operation as a dictionary: the value stored in a partition.  [tags] is
    optional because both programs read it with [op.get("tags", ...)];
    [tag] is the stray key that the service deletes before storing; [schema]
    and [parameters] are carried as they come. *)
Module Op.
Record t : Type := mk {
  description : string;
  id : string;
  includeAccessToken : bool;
  method : string;
  name : string;
  tags : option (list string);
  params : list ParamModel;
  type : string;
  url : string;
  schema : option PyVal;
  parameters : option PyVal;
  tag : option string
}.

(** [del op["tag"]] *)
Definition del_tag (op : t) : t :=
  mk (description op) (id op) (includeAccessToken op) (method op) (name op)
     (tags op) (params op) (type op) (url op) (schema op) (parameters op) None.

(** [op["includeAccessToken"] = v] *)
Definition set_includeAccessToken (v : bool) (op : t) : t :=
  mk (description op) (id op) v (method op) (name op)
     (tags op) (params op) (type op) (url op) (schema op) (parameters op) (tag op).

(** [op["tags"] = v] *)
Definition set_tags (v : list string) (op : t) : t :=
  mk (description op) (id op) (includeAccessToken op) (method op) (name op)
     (Some v) (params op) (type op) (url op) (schema op) (parameters op) (tag op).
End Op.

(** The table: (user, tag) ↦ the [ops] attribute of the item with that key. *)
Abbreviation Store := (gmap (string * string) (list Op.t)).

(** [table.query(Key("user").eq(user) & Key("tag").eq(tag))["Items"]], each
    item given by its [ops] attribute. *)
Definition query (s : Store) (user tag : string) : list (list Op.t) :=
  match s !! (user, tag) with
  | Some ops => [ops]
  | None => []
  end.

(** [table.update_item(Key={user, tag}, "SET ops = :ops")]: sets the attribute,
    creating the item when there is none. *)
Definition update_item (user tag : string) (ops : list Op.t) (s : Store) : Store :=
  <[(user, tag) := ops]> s.

(** [table.put_item(Item={id, user, tag, ops})]. *)
Definition put_item (user tag : string) (ops : list Op.t) (s : Store) : Store :=
  <[(user, tag) := ops]> s.

(** [table.delete_item(Key={user, tag})]. *)
Definition delete_item (user tag : string) (s : Store) : Store :=
  delete (user, tag) s.

(** What a reader sees of a partition: an absent item reads as no operation. *)
Definition partition (s : Store) (user tag : string) : list Op.t :=
  default [] (s !! (user, tag)).

(** The dictionaries returned by the endpoints. *)
Record Response : Type := mkResponse {
  success : bool;
  message : string;
  data : option (list Op.t)
}.

(** The index found by
    [for index, existing_op in enumerate(existing_ops):
       if existing_op["id"] == op["id"]: ...; break]. *)
Definition find_op_index (op_id : string) (existing_ops : list Op.t) : option nat :=
  fst <$> list_find (λ existing_op, Op.id existing_op = op_id) existing_ops.

(** ** amplify-lambda-ops/service/core.py *)
Module Service.

Definition ok_fetch (data_from_dynamo : list Op.t) : Response :=
  mkResponse true "Successfully retrieved available operations for user"
             (Some data_from_dynamo).

(** [fetch_user_ops].  [dynamodb_query user tag] stands for the call
    [dynamodb.query] on the key followed by the deserialisation of the
    items' [ops]: it returns the items of the key or raises.  The key is the
    whole primary key, so the answer is one page and the pagination loop runs
    once.  The function calls itself for the "system" user; [fuel] bounds
    that recursion and [None] means the bound was too small. *)
Fixpoint fetch_user_ops_fuel (fuel : nat)
    (dynamodb_query : string → string → outcome (list (list Op.t)))
    (current_user tag : string) : option (outcome Response) :=
  match fuel with
  | O => None
  | S fuel' =>
      match dynamodb_query current_user tag with
      | Raised e => Some (Raised e)
      | Returned items =>
          let data_from_dynamo := concat items in
          if bool_decide (current_user ≠ "system") then
            match fetch_user_ops_fuel fuel' dynamodb_query "system" tag with
            | None => None
            | Some (Returned system_ops) =>
                match data system_ops with
                | Some system_data =>
                    Some (Returned (ok_fetch (data_from_dynamo ++ system_data)))
                | None => Some (Returned (ok_fetch data_from_dynamo))
                end
            | Some (Raised e) => Some (Returned (ok_fetch data_from_dynamo))
            end
          else Some (Returned (ok_fetch data_from_dynamo))
      end
  end.

Definition fetch_user_ops := fetch_user_ops_fuel 2.

(** The query against a table holding [s]; [failing user tag] is the
    exception, if any, that the call for this key ends with (an unreachable
    table, a missing table name, an item that does not deserialise). *)
Definition table_query (s : Store) (failing : string → string → option exn)
    (user tag : string) : outcome (list (list Op.t)) :=
  match failing user tag with
  | Some e => Raised e
  | None => Returned (query s user tag)
  end.

(** [get_ops]: the tag defaults to "default". *)
Definition get_ops (dynamodb_query : string → string → outcome (list (list Op.t)))
    (current_user : string) (tag : option string) : option (outcome Response) :=
  fetch_user_ops dynamodb_query current_user (default "default" tag).

(** Lines 143-153: replace the first entry with the same id, else append. *)
Definition upsert_ops (op : Op.t) (existing_ops : list Op.t) : list Op.t :=
  match find_op_index (Op.id op) existing_ops with
  | Some index => <[index := op]> existing_ops
  | None => existing_ops ++ [op]
  end.

(** Lines 124-131.  [operation_tags] is [op["tags"]] itself when the key is
    present, so [append("all")] changes the dictionary that is stored; with
    no [tags] key the default list is a fresh one and the dictionary keeps
    no [tags]. *)
Definition prepare (op : Op.t) : Op.t * list string :=
  let op := Op.del_tag op in
  let op := Op.set_includeAccessToken true op in
  match Op.tags op with
  | Some declared =>
      let operation_tags := declared ++ ["all"] in
      (Op.set_tags operation_tags op, operation_tags)
  | None => (op, ["default"; "all"])
  end.

(** The record as it is stored, and the tags it is stored under. *)
Definition stored (op : Op.t) : Op.t := fst (prepare op).
Definition operation_tags (op : Op.t) : list string := snd (prepare op).

(** Lines 134-173: the body of [for tag in operation_tags]. *)
Definition write_tag (user : string) (op : Op.t) (s : Store) (tag : string) : Store :=
  let existing_items := query s user tag in
  match existing_items with
  | [] => put_item user tag [op] s
  | _ :: _ =>
      foldl (λ s existing_ops, update_item user tag (upsert_ops op existing_ops) s)
            s existing_items
  end.

(** Lines 123-173: the body of [for op in ops]. *)
Definition write_op (user : string) (s : Store) (op : Op.t) : Store :=
  let '(op, operation_tags) := prepare op in
  foldl (write_tag user op) s operation_tags.

Definition no_table : Response :=
  mkResponse false "DynamoDB table name is not set in environment variables" None.

(** [write_ops] over a table that serves every call; [table_name] is
    [os.environ.get("OPS_DYNAMODB_TABLE")]. *)
Definition write_ops (table_name : option string) (current_user : string)
    (ops : list Op.t) (s : Store) : Response * Store :=
  let user := "system" in
  match table_name with
  | None | Some "" => (no_table, s)
  | Some _ =>
      (mkResponse true
         "Successfully associated operations with provided tags and user" None,
       foldl (write_op user) s ops)
  end.

(** Lines 214-218: the test under [not]. *)
Definition matches (op existing_op : Op.t) : bool :=
  bool_decide (Op.id existing_op = Op.id op)
  && bool_decide (Op.name existing_op = Op.name op)
  && bool_decide (Op.url existing_op = Op.url op).

(** Lines 209-239: the body of [for item in existing_items]. *)
Definition delete_from_item (user tag : string) (op : Op.t) (s : Store)
    (existing_ops : list Op.t) : Store :=
  let filtered_ops := filter (λ existing_op, matches op existing_op = false) existing_ops in
  if bool_decide (length filtered_ops ≠ length existing_ops) then
    match filtered_ops with
    | _ :: _ => update_item user tag filtered_ops s
    | [] => delete_item user tag s
    end
  else s.

(** Lines 200-239: the body of [for tag in op["tags"]]. *)
Definition delete_tag (user : string) (op : Op.t) (s : Store) (tag : string) : Store :=
  foldl (delete_from_item user tag op) s (query s user tag).

(** Lines 184-186: with a [tags] key the list inside the dictionary gets
    "all" appended when it lacks it; without the key only the local default
    list does. *)
Definition delete_prepare (op : Op.t) : Op.t :=
  match Op.tags op with
  | Some tags =>
      if bool_decide ("all" ∈ tags) then op else Op.set_tags (tags ++ ["all"]) op
  | None => op
  end.

Definition deleted : Response :=
  mkResponse true "Successfully deleted the specified operation(s)" None.

(** [delete_op] over a table that serves every call.  The loop runs over
    [op["tags"]], which raises when the reference has no [tags] key. *)
Definition delete_op (table_name : option string) (current_user : string)
    (op : Op.t) (s : Store) : outcome Response * Store :=
  let op := delete_prepare op in
  let user := "system" in
  match table_name with
  | None | Some "" => (Returned no_table, s)
  | Some _ =>
      match Op.tags op with
      | None => (Raised (KeyError "tags"), s)
      | Some tags => (Returned deleted, foldl (delete_tag user op) s tags)
      end
  end.

(** The dictionary returned to a caller who is not an administrator. *)
Record Refusal : Type := mkRefusal {
  refused_success : bool;
  error : string
}.

(** [get_all_ops]; [is_admin] is the answer of [verify_user_as_admin] for
    the caller's token. *)
Definition get_all_ops (is_admin : bool)
    (dynamodb_query : string → string → outcome (list (list Op.t)))
    (current_user : string) : option (outcome (Refusal + Response)) :=
  if negb is_admin then
    Some (Returned (inl (mkRefusal false "Unable to authenticate user as admin")))
  else
    match fetch_user_ops dynamodb_query "system" "all" with
    | Some (Returned r) => Some (Returned (inr r))
    | Some (Raised e) => Some (Raised e)
    | None => None
    end.

End Service.

(** ** tools/ops.py *)
Module Tools.

(** *** The syntax trees that the scanner reads

    Expressions as [ast.parse] builds them (Python 3.8 to 3.13, where
    [ast.Str] is an alias that recognises a [Constant] holding a [str], and
    [.s] on a [Constant] is an alias of [.value]).  A key of [ast_Dict] is
    [None] for a [**mapping] entry, and a keyword of [ast_Call] has no name
    for a [**kwargs] argument. *)
Inductive expr : Type :=
  | ast_Constant (value : PyConst)
  | ast_Dict (keys : list (option expr)) (values : list expr)
  | ast_List (elts : list expr)
  | ast_Name (id : string)
  | ast_Call (func : expr) (args : list expr) (keywords : list (option string * expr))
  | ast_Other (dump : string).

(** A node met by [ast.walk]: a [FunctionDef] or anything else. *)
Inductive node : Type :=
  | FunctionDef (name : string) (decorator_list : list expr)
  | OtherNode.

(** A path as [os.walk] and [open] see it: a file, with what [open], [read]
    and [ast.parse] make of it (the nodes in the order of [ast.walk], or the
    exception), or a directory with its entries in the order they are
    listed. *)
Inductive entry : Type :=
  | File (name : string) (tree : outcome (list node))
  | Dir (name : string) (entries : list entry).

Definition IGNORED_DIRECTORIES : list string := ["node_modules"; "venv"; "__pycache__"].

(** [s.endswith(suffix)] *)
Definition endswith (s suffix : string) : bool :=
  String.prefix (String.rev suffix) (String.rev s).

(** [find_python_files]: [os.walk] from the top down, the ignored names
    pruned from [dirs] before the walk goes into them.  Each file found is
    given by its tree. *)
Fixpoint find_python_files (directory : entry) : list (outcome (list node)) :=
  match directory with
  | File _ _ => []
  | Dir _ entries =>
      (fix files (entries : list entry) : list (outcome (list node)) :=
         match entries with
         | [] => []
         | File file tree :: entries =>
             if endswith file ".py" then tree :: files entries else files entries
         | Dir _ _ :: entries => files entries
         end) entries
      ++ (fix dirs (entries : list entry) : list (outcome (list node)) :=
            match entries with
            | [] => []
            | d :: entries =>
                match d with
                | Dir name _ =>
                    if bool_decide (name ∈ IGNORED_DIRECTORIES) then dirs entries
                    else find_python_files d ++ dirs entries
                | File _ _ => dirs entries
                end
            end) entries
  end.

(** What the scanner takes from the Python runtime and from pydantic:
    [node_str] is [str(node)], the default representation of an object;
    [str_upper] is [str.upper]; [lax_str] is pydantic's validation of a
    value that is not a [str] for a field of type [str] ([None] for a
    rejected value). *)
Class PyRuntime : Type := {
  node_str : expr → string;
  str_upper : string → string;
  lax_str : PyConst → option string
}.

Module OperationModel.
Record t : Type := mk {
  description : string;
  id : string;
  includeAccessToken : bool;
  method : string;
  name : string;
  tags : list string;
  params : list ParamModel;
  type : string;
  url : string;
  schema : option PyVal
}.
End OperationModel.

(** [node.s] *)
Definition attr_s (node : expr) : outcome PyConst :=
  match node with
  | ast_Constant value => Returned value
  | _ => Raised (AttributeError "s")
  end.

(** [key.s] for a key of [ast.Dict], which may be [None]. *)
Definition key_s (key : option expr) : outcome PyConst :=
  match key with
  | Some node => attr_s node
  | None => Raised (AttributeError "s")
  end.

(** [extract_dict_from_ast]; [dict(zip(keys, values))] is kept as the list
    of its bindings in order. *)
Fixpoint extract_dict_from_ast (node : expr) : outcome (list (PyConst * PyVal)) :=
  match node with
  | ast_Dict keys values =>
      (fix loop (keys : list (option expr)) (values : list expr) {struct values}
         : outcome (list (PyConst * PyVal)) :=
         match keys, values with
         | k :: keys', v :: values' =>
             match k with
             | Some (ast_Constant key) =>
                 match v with
                 | ast_Dict _ _ =>
                     value ← extract_dict_from_ast v;
                     rest ← loop keys' values';
                     mret ((key, VDict value) :: rest)
                 | ast_List elts =>
                     value ← mapM attr_s elts;
                     rest ← loop keys' values';
                     mret ((key, VList (VConst <$> value)) :: rest)
                 | ast_Constant value =>
                     rest ← loop keys' values';
                     mret ((key, VConst value) :: rest)
                 | _ => loop keys' values'
                 end
             | _ => loop keys' values'
             end
         | _, _ => Returned []
         end) keys values
  | _ => Returned []
  end.

(** Equality of two literal values as dictionary keys ([True == 1]).  Values
    of [COther] are compared by their representation. *)
Definition py_eqb (a b : PyConst) : bool :=
  match a, b with
  | CNone, CNone => true
  | CBool x, CBool y => bool_decide (x = y)
  | CBool x, CInt z | CInt z, CBool x => bool_decide (z = if x then 1%Z else 0%Z)
  | CInt x, CInt y => bool_decide (x = y)
  | CStr x, CStr y => bool_decide (x = y)
  | COther x, COther y => bool_decide (x = y)
  | _, _ => false
  end.

(** [d[key] = value] on a dictionary given by its bindings: an equal key
    keeps its place and its first spelling. *)
Fixpoint dict_set {V : Type} (key : PyConst) (value : V) (d : list (PyConst * V))
    : list (PyConst * V) :=
  match d with
  | [] => [(key, value)]
  | (k, v) :: d' =>
      if py_eqb k key then (k, value) :: d' else (k, v) :: dict_set key value d'
  end.

(** [extract_dict]. *)
Definition extract_dict (ast_node : expr) : outcome (list (PyConst * PyConst)) :=
  match ast_node with
  | ast_Dict keys values =>
      entries ← mapM (λ kv, key ← key_s kv.1; value ← attr_s kv.2; mret (key, value))
                     (zip keys values);
      mret (foldl (λ d kv, dict_set kv.1 kv.2 d) [] entries)
  | _ => Raised (AttributeError "keys")
  end.

(** [op_kwargs = {kw.arg: kw.value for kw in decorator.keywords}] *)
Definition kwargs_of (keywords : list (option string * expr)) : gmap (option string) expr :=
  foldl (λ d kw, <[kw.1 := kw.2]> d) ∅ keywords.

(** [key in op_kwargs] *)
Definition has (op_kwargs : gmap (option string) expr) (key : string) : bool :=
  bool_decide (is_Some (op_kwargs !! Some key)).

(** [op_kwargs[key]] *)
Definition getitem (op_kwargs : gmap (option string) expr) (key : string) : outcome expr :=
  match op_kwargs !! Some key with
  | Some value => Returned value
  | None => Raised (KeyError key)
  end.

Definition allowed_methods : list string := ["GET"; "POST"; "PUT"; "DELETE"; "PATCH"].

Section Scanner.
Context `{PyRuntime}.

(** [extract_tags] *)
Definition extract_tags (op_kwargs : gmap (option string) expr) : list string :=
  match op_kwargs !! Some "tags" with
  | Some (ast_List elts) =>
      (λ elt, match elt with
              | ast_Constant (CStr s) => s
              | _ => node_str elt
              end) <$> elts
  | Some _ => []
  | None => []
  end.

(** pydantic's validation of a field of type [str]. *)
Definition str_field (v : PyConst) : option string :=
  match v with
  | CStr s => Some s
  | _ => lax_str v
  end.

(** [OperationModel.validate_method] *)
Definition validate_method (v : string) : option string :=
  if bool_decide (str_upper v ∈ allowed_methods) then Some (str_upper v) else None.

(** [ParamModel(description=desc, name=name)] *)
Definition new_ParamModel (desc name : PyConst) : outcome ParamModel :=
  match str_field desc, str_field name with
  | Some desc, Some name => Returned (mkParam desc name)
  | _, _ => Raised ValidationError
  end.

(** [OperationModel(description=..., id=..., ...)]; [None] stands for the
    [ValidationError].  The keyword [parameters] names no field of the
    model and is ignored. *)
Definition new_OperationModel (description id method name : PyConst)
    (params : list ParamModel) (url : PyConst) (tags : list string)
    (parameters : list (PyConst * PyVal)) : option OperationModel.t :=
  description ← str_field description;
  id ← str_field id;
  method ← str_field method ≫= validate_method;
  name ← str_field name;
  url ← str_field url;
  Some (OperationModel.mk description id true method name tags params "custom" url None).

(** Lines 194-242, the body run for one recognised decorator.
    [Returned (Some operation)] appends the operation, [Returned None]
    appends nothing and goes on with the next decorator, [Raised] leaves
    through the handler of line 243. *)
Definition extract_op (op_kwargs : gmap (option string) expr)
    : outcome (option OperationModel.t) :=
  if has op_kwargs "path" && has op_kwargs "name" && has op_kwargs "description"
     && (has op_kwargs "params" || has op_kwargs "parameters")
  then
    params_node ← getitem op_kwargs "params";
    params_dict ← extract_dict params_node;
    params ← (if has op_kwargs "params"
               then mapM (λ '(name, desc), new_ParamModel desc name) params_dict
               else Returned []);
    parameters ← extract_dict_from_ast
                   (default (ast_Dict [] []) (op_kwargs !! Some "parameters"));
    description ← getitem op_kwargs "description" ≫= attr_s;
    id ← getitem op_kwargs "name" ≫= attr_s;
    method ← (if has op_kwargs "method"
               then getitem op_kwargs "method" ≫= attr_s
               else Returned (CStr "POST"));
    name ← getitem op_kwargs "name" ≫= attr_s;
    url ← getitem op_kwargs "path" ≫= attr_s;
    let tags := extract_tags op_kwargs in
    match new_OperationModel description id method name params url tags parameters with
    | Some operation => Returned (Some operation)
    | None =>
        (* [print(f"Parsing: " + op_kwargs["name"].s)] *)
        match name with
        | CStr _ => Returned None
        | _ => Raised TypeError
        end
    end
  else Returned None.

(** The keywords of a decorator that is a call of [op] or [vop]. *)
Definition op_keywords (decorator : expr) : option (list (option string * expr)) :=
  match decorator with
  | ast_Call (ast_Name id) _ keywords =>
      if bool_decide (id = "op") || bool_decide (id = "vop") then Some keywords else None
  | _ => None
  end.

(** [for decorator in node.decorator_list], inside the handler of line
    243, which ends the loop at the first exception. *)
Fixpoint extract_decorators (ops_found : list OperationModel.t)
    (decorator_list : list expr) : list OperationModel.t :=
  match decorator_list with
  | [] => ops_found
  | decorator :: decorator_list =>
      match op_keywords decorator with
      | Some keywords =>
          match extract_op (kwargs_of keywords) with
          | Returned (Some operation) =>
              extract_decorators (ops_found ++ [operation]) decorator_list
          | Returned None => extract_decorators ops_found decorator_list
          | Raised _ => ops_found
          end
      | None => extract_decorators ops_found decorator_list
      end
  end.

(** The body of [for node in ast.walk(tree)]. *)
Definition extract_node (ops_found : list OperationModel.t) (n : node)
    : list OperationModel.t :=
  match n with
  | FunctionDef _ decorator_list => extract_decorators ops_found decorator_list
  | OtherNode => ops_found
  end.

(** [extract_ops_from_file], on the tree of the file at [file_path]. *)
Definition extract_ops_from_file (tree : outcome (list node)) : list OperationModel.t :=
  match tree with
  | Returned nodes => foldl extract_node [] nodes
  | Raised _ => []
  end.

(** [scan_ops] *)
Definition scan_ops (path : entry) : list OperationModel.t :=
  let python_files := find_python_files path in
  foldl (λ all_ops file_path, all_ops ++ extract_ops_from_file file_path) [] python_files.

End Scanner.

(** *** Registration *)

(** [op.model_dump()] *)
Definition model_dump (op : OperationModel.t) : Op.t :=
  Op.mk (OperationModel.description op) (OperationModel.id op)
        (OperationModel.includeAccessToken op) (OperationModel.method op)
        (OperationModel.name op) (Some (OperationModel.tags op))
        (OperationModel.params op) (OperationModel.type op) (OperationModel.url op)
        (OperationModel.schema op) None None.

(** A loop whose body may raise: the store keeps what was written before. *)
Fixpoint for_each {A : Type} (body : A → Store → outcome () * Store)
    (l : list A) (s : Store) : outcome () * Store :=
  match l with
  | [] => (Returned (), s)
  | x :: l =>
      match body x s with
      | (Returned _, s) => for_each body l s
      | (Raised e, s) => (Raised e, s)
      end
  end.

(** [json.dumps(op_dict, indent=2)] of line 344.  The module never imports
    [json] and binds the name nowhere, so evaluating it raises. *)
Definition json_dumps (op_dict : Op.t) : outcome string :=
  Raised (NameError "json").

(** Lines 336-361: the body of [for item in existing_items]. *)
Definition write_item (current_user tag : string) (op_dict : Op.t)
    (existing_ops : list Op.t) (s : Store) : outcome () * Store :=
  match find_op_index (Op.id op_dict) existing_ops with
  | Some index =>
      match json_dumps op_dict with
      | Returned _ =>
          (Returned (), update_item current_user tag (<[index := op_dict]> existing_ops) s)
      | Raised e => (Raised e, s)
      end
  | None =>
      (Returned (), update_item current_user tag (existing_ops ++ [op_dict]) s)
  end.

(** Lines 327-376: the body of [for tag in operation_tags]. *)
Definition write_tag (current_user : string) (op_dict : Op.t) (tag : string) (s : Store)
    : outcome () * Store :=
  let existing_items := query s current_user tag in
  match existing_items with
  | [] => (Returned (), put_item current_user tag [op_dict] s)
  | _ :: _ => for_each (write_item current_user tag op_dict) existing_items s
  end.

(** Lines 318-324: [operation_tags] is the list inside [op_dict], so
    [append("all")] changes the dictionary that is stored. *)
Definition prepare (op : OperationModel.t) : Op.t * list string :=
  let op_dict := model_dump op in
  match Op.tags op_dict with
  | Some declared =>
      let operation_tags := declared ++ ["all"] in
      (Op.set_tags operation_tags op_dict, operation_tags)
  | None => (op_dict, ["default"; "all"])
  end.

Definition stored (op : OperationModel.t) : Op.t := fst (prepare op).
Definition operation_tags (op : OperationModel.t) : list string := snd (prepare op).

(** Lines 316-376: the body of [for op in ops]. *)
Definition write_op (current_user : string) (op : OperationModel.t) (s : Store)
    : outcome () * Store :=
  let '(op_dict, operation_tags) := prepare op in
  for_each (write_tag current_user op_dict) operation_tags s.

Definition no_table : Response :=
  mkResponse false "DynamoDB table name is not set in environment variables" None.

Definition registered : Response :=
  mkResponse true "Successfully associated operations with provided tags and user" None.

(** [write_ops] over a table that serves every call; [table_name] is
    [os.environ.get("OPS_DYNAMODB_TABLE")].  The argument [tags] of the source
    is never read. *)
Definition write_ops (table_name : option string) (current_user : string)
    (ops : list OperationModel.t) (s : Store) : outcome Response * Store :=
  match table_name with
  | None | Some "" => (Returned no_table, s)
  | Some _ =>
      match for_each (write_op current_user) ops s with
      | (Returned _, s) => (Returned registered, s)
      | (Raised e, s) => (Raised e, s)
      end
  end.

(** [scan_and_register_ops] *)
Definition scan_and_register_ops `{PyRuntime} (table_name : option string)
    (path : entry) (current_user : string) (s : Store) : outcome Response * Store :=
  let all_ops := scan_ops path in
  write_ops table_name current_user all_ops s.

(** *** The command line *)

(** Truth of an optional string: [None] and the empty string are false. *)
Definition truthy (v : option string) : bool :=
  match v with
  | Some (String _ _) => true
  | _ => false
  end.

(** Lines 397-405: the loop over the current directory and its parent.
    [var_file level] is the file [var/<stage>-var.yml] of the directory
    [level] steps above the current one: [None] when there is no such file,
    else what [yaml.safe_load] and [config.get("OPS_DYNAMODB_TABLE")] give,
    or the exception they end with. *)
Fixpoint search_var_file (var_file : nat → option (outcome (option string)))
    (levels : list nat) : outcome (option string) :=
  match levels with
  | [] => Returned None
  | level :: levels =>
      match var_file level with
      | Some config => config
      | None => search_var_file var_file levels
      end
  end.

(** [resolve_ops_table]; [env_ops_table] is
    [os.environ.get("OPS_DYNAMODB_TABLE")] and [var_file stage] gives the
    files of the stage. *)
Definition resolve_ops_table (env_ops_table : option string)
    (var_file : string → nat → option (outcome (option string)))
    (stage ops_table : option string) : outcome (option string) :=
  if truthy ops_table then Returned ops_table
  else if truthy env_ops_table then Returned env_ops_table
  else
    match stage with
    | Some name =>
        if truthy stage then search_var_file (var_file name) (seq 0 2)
        else Returned None
    | None => Returned None
    end.

(** The two commands that the argument parser lets through. *)
Inductive command : Type := ls | register.

(** How a run of [main] ends: by [sys.exit], by returning after printing
    the response of the registration (nothing for [ls]), or by an
    exception. *)
Inductive ending : Type :=
  | Exited (code : nat)
  | Finished (printed : option Response)
  | Failed (e : exn).

(** [main]; [filesystem] gives what is found at a path, and [dir] is the
    argument [--dir]. *)
Definition main `{PyRuntime} (env_ops_table : option string)
    (var_file : string → nat → option (outcome (option string)))
    (filesystem : string → entry)
    (stage dir ops_table : option string) (cmd : command) (s : Store) : ending * Store :=
  let path := filesystem (if truthy dir then default "." dir else ".") in
  match cmd with
  | ls => (Finished None, s)
  | register =>
      match resolve_ops_table env_ops_table var_file stage ops_table with
      | Raised e => (Failed e, s)
      | Returned ops_table =>
          if negb (truthy ops_table) then (Exited 1, s)
          else
            match scan_and_register_ops ops_table path "system" s with
            | (Returned response, s) => (Finished (Some response), s)
            | (Raised e, s) => (Failed e, s)
            end
      end
  end.

(** A runtime to run the scanner with: letters of the ASCII alphabet are
    put in upper case, and only a [str] is accepted for a [str] field. *)
Definition upper_char (c : Ascii.ascii) : Ascii.ascii :=
  let n := Ascii.nat_of_ascii c in
  if bool_decide (97 ≤ n ≤ 122)%nat then Ascii.ascii_of_nat (n - 32) else c.

Fixpoint ascii_upper (s : string) : string :=
  match s with
  | EmptyString => EmptyString
  | String c s => String (upper_char c) (ascii_upper s)
  end.

#[export] Instance strict_runtime : PyRuntime := {|
  node_str := λ _, "<ast node>";
  str_upper := ascii_upper;
  lax_str := λ _, None
|}.

End Tools.

(** ** The same calls on a table that answers with an error

    A call on the table can end with an exception of the table in place of
    an answer: DynamoDB refuses a key that has an empty string for an
    attribute, and a table out of reach refuses every key.
    [refused user tag] is the exception that the calls on the key
    (user, tag) end with, if they end with one.  In each pass of the tag
    loops the query is the first call on the table and the one write is the
    last, so that a pass which the table stops has written nothing, and the
    exception leaves the function with the earlier passes done.

    With no key refused these are the functions of [Service] and [Tools]
    above. *)
Module ServiceOn.
Section Table.
Variable refused : string → string → option exn.

(** core.py, lines 134-173: the body of [for tag in operation_tags]. *)
Definition write_tag (user : string) (op : Op.t) (tag : string) (s : Store)
    : outcome () * Store :=
  match refused user tag with
  | Some e => (Raised e, s)
  | None => (Returned (), Service.write_tag user op s tag)
  end.

(** core.py, lines 123-173: the body of [for op in ops]. *)
Definition write_op (user : string) (op : Op.t) (s : Store) : outcome () * Store :=
  let '(op, operation_tags) := Service.prepare op in
  Tools.for_each (write_tag user op) operation_tags s.

Definition associated : Response :=
  mkResponse true "Successfully associated operations with provided tags and user" None.

(** core.py, [write_ops]. *)
Definition write_ops (table_name : option string) (current_user : string)
    (ops : list Op.t) (s : Store) : outcome Response * Store :=
  let user := "system" in
  match table_name with
  | None | Some "" => (Returned Service.no_table, s)
  | Some _ =>
      match Tools.for_each (write_op user) ops s with
      | (Returned _, s) => (Returned associated, s)
      | (Raised e, s) => (Raised e, s)
      end
  end.

(** core.py, lines 200-239: the body of [for tag in op["tags"]]. *)
Definition delete_tag (user : string) (op : Op.t) (tag : string) (s : Store)
    : outcome () * Store :=
  match refused user tag with
  | Some e => (Raised e, s)
  | None => (Returned (), Service.delete_tag user op s tag)
  end.

(** core.py, [delete_op]. *)
Definition delete_op (table_name : option string) (current_user : string)
    (op : Op.t) (s : Store) : outcome Response * Store :=
  let op := Service.delete_prepare op in
  let user := "system" in
  match table_name with
  | None | Some "" => (Returned Service.no_table, s)
  | Some _ =>
      match Op.tags op with
      | None => (Raised (KeyError "tags"), s)
      | Some tags =>
          match Tools.for_each (delete_tag user op) tags s with
          | (Returned _, s) => (Returned Service.deleted, s)
          | (Raised e, s) => (Raised e, s)
          end
      end
  end.

End Table.
End ServiceOn.

Module ToolsOn.
Section Table.
Variable refused : string → string → option exn.

(** tools/ops.py, lines 327-376: the body of [for tag in operation_tags]. *)
Definition write_tag (current_user : string) (op_dict : Op.t) (tag : string) (s : Store)
    : outcome () * Store :=
  match refused current_user tag with
  | Some e => (Raised e, s)
  | None => Tools.write_tag current_user op_dict tag s
  end.

(** tools/ops.py, lines 316-376: the body of [for op in ops]. *)
Definition write_op (current_user : string) (op : Tools.OperationModel.t) (s : Store)
    : outcome () * Store :=
  let '(op_dict, operation_tags) := Tools.prepare op in
  Tools.for_each (write_tag current_user op_dict) operation_tags s.

(** tools/ops.py, [write_ops]. *)
Definition write_ops (table_name : option string) (current_user : string)
    (ops : list Tools.OperationModel.t) (s : Store) : outcome Response * Store :=
  match table_name with
  | None | Some "" => (Returned Tools.no_table, s)
  | Some _ =>
      match Tools.for_each (write_op current_user) ops s with
      | (Returned _, s) => (Returned Tools.registered, s)
      | (Raised e, s) => (Raised e, s)
      end
  end.

(** tools/ops.py, [scan_and_register_ops]. *)
Definition scan_and_register_ops `{Tools.PyRuntime} (table_name : option string)
    (path : Tools.entry) (current_user : string) (s : Store) : outcome Response * Store :=
  let all_ops := Tools.scan_ops path in
  write_ops table_name current_user all_ops s.

End Table.
End ToolsOn.

(** ** chat-billing/service/core.py *)
Module Billing.

(** [dynamodb_to_internal_field_map], in the order of the display. *)
Definition dynamodb_to_internal_field_map : list (string * string) :=
  [("ModelID", "id");
   ("ModelName", "name");
   ("Provider", "provider");
   ("InputContextWindow", "inputContextWindow");
   ("OutputTokenLimit", "outputTokenLimit");
   ("OutputCostPerThousandTokens", "outputTokenCost");
   ("InputCostPerThousandTokens", "inputTokenCost");
   ("CachedCostPerThousandTokens", "cachedTokenCost");
   ("Description", "description");
   ("ExclusiveGroupAvailability", "exclusiveGroupAvailability");
   ("SupportsImages", "supportsImages");
   ("DefaultCheapestModel", "defaultCheapestModel");
   ("DefaultAdvancedModel", "defaultAdvancedModel");
   ("DefaultEmbeddingsModel", "defaultEmbeddingsModel");
   ("DefaultQAModel", "defaultQAModel");
   ("UsersDefault", "isDefault");
   ("Available", "isAvailable");
   ("Built-In", "isBuiltIn");
   ("SupportsSystemPrompts", "supportsSystemPrompts");
   ("AdditionalSystemPrompt", "systemPrompt")].

Section Models.
(** The values of the attributes of a model, whatever they are. *)
Context {V : Type}.

(** [model_transform_db_to_internal] *)
Definition model_transform_db_to_internal (model : gmap string V) : gmap string V :=
  foldl (λ transformed '(dynamodb_key, internal_key),
           match model !! dynamodb_key with
           | Some value => <[internal_key := value]> transformed
           | None => transformed
           end)
        ∅ dynamodb_to_internal_field_map.

(** [{v: k for k, v in dynamodb_to_internal_field_map.items()}]: the
    internal names of the map are distinct, so the comprehension has one
    entry for each pair, in the same order. *)
Definition internal_to_dynamodb_field_map : list (string * string) :=
  (λ '(k, v), (v, k)) <$> dynamodb_to_internal_field_map.

(** [model_transform_internal_to_db] *)
Definition model_transform_internal_to_db (model : gmap string V) : gmap string V :=
  foldl (λ transformed '(internal_key, dynamodb_key),
           match model !! internal_key with
           | Some value => <[dynamodb_key := value]> transformed
           | None => transformed
           end)
        ∅ internal_to_dynamodb_field_map.

(** [models_are_current]; [model_data] is the dictionary of the models by
    id, in its insertion order. *)
Definition models_are_current (model_data : list (string * gmap string V)) : bool :=
  match model_data with
  | [] => false
  | (_, first_model) :: _ =>
      let required_cols_set := dynamodb_to_internal_field_map.*2 in
      forallb (λ column, bool_decide (is_Some (first_model !! column))) required_cols_set
  end.

End Models.
End Billing.

(** ** What the statements below are phrased with *)

(** The partition that one pass of the service's tag loop leaves, from what
    the key held before. *)
Definition upserted (op : Op.t) (before : option (list Op.t)) : list Op.t :=
  match before with
  | Some existing_ops => Service.upsert_ops op existing_ops
  | None => [op]
  end.

(** [r] carries the values of [op], with "all" added to the tags and the
    access token switched on: the state of the dictionary once lines 124-131
    have run. *)
Definition current_values (op r : Op.t) : Prop :=
  Op.id r = Op.id op
  ∧ Op.name r = Op.name op
  ∧ Op.description r = Op.description op
  ∧ Op.method r = Op.method op
  ∧ Op.url r = Op.url op
  ∧ Op.params r = Op.params op
  ∧ Op.type r = Op.type op
  ∧ Op.schema r = Op.schema op
  ∧ Op.parameters r = Op.parameters op
  ∧ Op.tags r = (λ declared, declared ++ ["all"]) <$> Op.tags op
  ∧ Op.includeAccessToken r = true.

(** No two entries of a partition have the same id. *)
Definition unique_ids (ops : list Op.t) : Prop := NoDup (Op.id <$> ops).

(** Every id found under a tag of "system" is found under "all". *)
Definition indexed (s : Store) : Prop :=
  ∀ tag r, r ∈ partition s "system" tag →
    ∃ r', r' ∈ partition s "system" "all" ∧ Op.id r' = Op.id r.

(** The two halves of a step of the walk: the Python files of a directory
    itself, and those found below it. *)
Fixpoint python_files_in (entries : list Tools.entry) : list (outcome (list Tools.node)) :=
  match entries with
  | [] => []
  | Tools.File file tree :: entries =>
      if Tools.endswith file ".py" then tree :: python_files_in entries
      else python_files_in entries
  | Tools.Dir _ _ :: entries => python_files_in entries
  end.

Fixpoint python_files_below (entries : list Tools.entry)
    : list (outcome (list Tools.node)) :=
  match entries with
  | [] => []
  | d :: entries =>
      match d with
      | Tools.Dir name _ =>
          if bool_decide (name ∈ Tools.IGNORED_DIRECTORIES) then python_files_below entries
          else Tools.find_python_files d ++ python_files_below entries
      | Tools.File _ _ => python_files_below entries
      end
  end.

(** [s'] has every partition of [s], entry for entry, with at most new
    entries after them: nothing was overwritten and nothing removed. *)
Definition only_appended (s s' : Store) : Prop :=
  ∀ user tag existing_ops, s !! (user, tag) = Some existing_ops →
    ∃ added, s' !! (user, tag) = Some (existing_ops ++ added).

(** The partition that one pass of [delete_op]'s tag loop leaves. *)
Definition purged (op : Op.t) (before : option (list Op.t)) : option (list Op.t) :=
  match before with
  | Some existing_ops =>
      match filter (λ existing_op, Service.matches op existing_op = false) existing_ops with
      | [] => match existing_ops with [] => Some [] | _ :: _ => None end
      | filtered_ops => Some filtered_ops
      end
  | None => None
  end.

(** ** Sample data

    The operation of the specification's end-to-end example, as a request
    to the service, as a reference for [delete_op], and as the scanner's
    model. *)

Definition echo : Op.t :=
  Op.mk "d" "op1" false "POST" "Echo" (Some ["default"]) [] "custom" "/echo"
        None None (Some "default").

Definition echo_ref : Op.t :=
  Op.mk "" "op1" false "" "Echo" (Some ["default"]) [] "" "/echo" None None None.

(** The same id under another path. *)
Definition echo_moved : Op.t :=
  Op.mk "d" "op1" true "POST" "Echo" (Some ["default"; "all"]) [] "custom" "/echo/v2"
        None None None.

Definition echo_model : Tools.OperationModel.t :=
  Tools.OperationModel.mk "d" "op1" true "POST" "Echo" ["default"] [] "custom" "/echo" None.

(** [@op(path="/echo", name="echo", description="d", params={})] on a
    function [echo]: a declaration with no [tags] keyword. *)
Definition untagged_decl : Tools.expr :=
  Tools.ast_Call (Tools.ast_Name "op") []
    [(Some "path", Tools.ast_Constant (CStr "/echo"));
     (Some "name", Tools.ast_Constant (CStr "echo"));
     (Some "description", Tools.ast_Constant (CStr "d"));
     (Some "params", Tools.ast_Dict [] [])].

Definition untagged_model : Tools.OperationModel.t :=
  Tools.OperationModel.mk "d" "echo" true "POST" "echo" [] [] "custom" "/echo" None.

(** [@op(path="/echo", name="echo", description="d", parameters={})]: the
    nested [parameters] and no flat [params]. *)
Definition parameters_only_decl : Tools.expr :=
  Tools.ast_Call (Tools.ast_Name "op") []
    [(Some "path", Tools.ast_Constant (CStr "/echo"));
     (Some "name", Tools.ast_Constant (CStr "echo"));
     (Some "description", Tools.ast_Constant (CStr "d"));
     (Some "parameters", Tools.ast_Dict [] [])].

(** [@vop(path="/echo/v2", name="echo", description="again", params={},
    tags=["default"], method="get")]: a second declaration of the name
    "echo". *)
Definition second_decl : Tools.expr :=
  Tools.ast_Call (Tools.ast_Name "vop") []
    [(Some "path", Tools.ast_Constant (CStr "/echo/v2"));
     (Some "name", Tools.ast_Constant (CStr "echo"));
     (Some "description", Tools.ast_Constant (CStr "again"));
     (Some "params", Tools.ast_Dict [] []);
     (Some "tags", Tools.ast_List [Tools.ast_Constant (CStr "default")]);
     (Some "method", Tools.ast_Constant (CStr "get"))].

Definition second_model : Tools.OperationModel.t :=
  Tools.OperationModel.mk "again" "echo" true "GET" "echo" ["default"] [] "custom"
    "/echo/v2" None.

(** A source tree: two files with a declaration each, one that does not
    parse, one that is not Python, and a copy under an ignored directory. *)
Definition sample_tree : Tools.entry :=
  Tools.Dir "."
    [Tools.File "echo.py" (Returned [Tools.FunctionDef "echo" [untagged_decl]]);
     Tools.Dir "node_modules"
       [Tools.File "echo.py" (Returned [Tools.FunctionDef "echo" [untagged_decl]])];
     Tools.File "broken.py" (Raised SyntaxError);
     Tools.File "README.md" (Raised SyntaxError);
     Tools.Dir "service"
       [Tools.File "core.py"
          (Returned [Tools.OtherNode; Tools.FunctionDef "echo2" [second_decl]])]].

(** Another operation, for the same tag. *)
Definition ping : Op.t :=
  Op.mk "p" "op2" true "GET" "Ping" (Some ["default"]) [] "custom" "/ping"
        None None None.

(** A reference with no [tags] key. *)
Definition echo_ref_untagged : Op.t :=
  Op.mk "" "op1" false "" "Echo" None [] "" "/echo" None None None.

(** A source tree with the one file [echo.py]. *)
Definition single_tree : Tools.entry :=
  Tools.Dir "." [Tools.File "echo.py" (Returned [Tools.FunctionDef "echo" [untagged_decl]])].


(** The declaration on [get_all_ops] in service/core.py, lines 22-30, and
    the scanner's record for it. *)
Definition get_operations_keywords : list (option string * Tools.expr) :=
  [(Some "path", Tools.ast_Constant (CStr "/ops/get"));
   (Some "tags", Tools.ast_List [Tools.ast_Constant (CStr "ops");
                                 Tools.ast_Constant (CStr "default")]);
   (Some "name", Tools.ast_Constant (CStr "getOperations"));
   (Some "description",
    Tools.ast_Constant (CStr "Get a list of available operations for an assistant."));
   (Some "params",
    Tools.ast_Dict [Some (Tools.ast_Constant (CStr "tag"))]
                   [Tools.ast_Constant (CStr "The optional tag to search for.")])].

Definition get_operations_model : Tools.OperationModel.t :=
  Tools.OperationModel.mk "Get a list of available operations for an assistant."
    "getOperations" true "POST" "getOperations" ["ops"; "default"]
    [mkParam "The optional tag to search for." "tag"] "custom" "/ops/get" None.

(** A table where the service has registered [echo]. *)
Definition echo_store : Store :=
  (Service.write_ops (Some "ops") "alice" [echo] ∅).2.

(** [echo] submitted again, with another path and description, to the
    service and to the tool. *)
Definition echo_v2 : Op.t :=
  Op.mk "d2" "op1" false "POST" "Echo" (Some ["default"]) [] "custom" "/echo/v2"
        None None None.

Definition echo_model_v2 : Tools.OperationModel.t :=
  Tools.OperationModel.mk "d2" "op1" true "POST" "Echo" ["default"] [] "custom" "/echo/v2"
    None.

(** A table where the service has registered [ping] and then [echo]. *)
Definition ping_echo_store : Store :=
  (Service.write_ops (Some "ops") "alice" [ping; echo] ∅).2.

(** A table where the id of [echo] is in use a second time, under another
    path. *)
Definition reused_store : Store :=
  {[ ("system", "default") := [Service.stored echo; echo_moved];
     ("system", "all") := [Service.stored echo; echo_moved] ]}.

(** A record with an empty tag, and a table that refuses the empty tag. *)
Definition echo_blank : Op.t :=
  Op.mk "d" "op1" false "POST" "Echo" (Some ["default"; EmptyString]) [] "custom" "/echo"
        None None None.

Definition refuses_blank (user tag : string) : option exn :=
  if bool_decide (tag = EmptyString) then Some (ClientError "ValidationException") else None.

(** * Properties *)

(** ** The search for an id and the update of one partition *)

Lemma find_op_index_cons (op_id : string) (e : Op.t) (l : list Op.t) :
  find_op_index op_id (e :: l)
  = if decide (Op.id e = op_id) then Some 0 else S <$> find_op_index op_id l.
Proof.
  unfold find_op_index. cbn [list_find].
  destruct (decide (Op.id e = op_id)); [done|].
  by destruct (list_find _ l) as [[i x]|].
Qed.

Lemma find_op_index_Some (op_id : string) (l : list Op.t) (index : nat) :
  find_op_index op_id l = Some index ↔
  ∃ e, l !! index = Some e ∧ Op.id e = op_id
       ∧ ∀ j e', l !! j = Some e' → j < index → Op.id e' ≠ op_id.
Proof.
  unfold find_op_index. split.
  - destruct (list_find _ l) as [[i x]|] eqn:Hfind; [|done].
    intros [= <-]. apply list_find_Some in Hfind as (? & ? & ?). eauto.
  - intros (e & Hl & He & Hbefore).
    assert (list_find (λ x, Op.id x = op_id) l = Some (index, e)) as ->; [|done].
    apply list_find_Some. eauto.
Qed.

Lemma find_op_index_None (op_id : string) (l : list Op.t) :
  find_op_index op_id l = None ↔ ∀ e, e ∈ l → Op.id e ≠ op_id.
Proof.
  unfold find_op_index. rewrite fmap_None, list_find_None, Forall_forall. done.
Qed.

Lemma find_op_index_elem (op_id : string) (l : list Op.t) (e : Op.t) :
  e ∈ l → Op.id e = op_id → is_Some (find_op_index op_id l).
Proof.
  intros Hin Hid. destruct (find_op_index op_id l) eqn:Hfind; [by eexists|].
  rewrite find_op_index_None in Hfind. by destruct (Hfind e Hin).
Qed.

Lemma upsert_ops_cons (op e : Op.t) (l : list Op.t) :
  Service.upsert_ops op (e :: l)
  = if decide (Op.id e = Op.id op) then op :: l else e :: Service.upsert_ops op l.
Proof.
  unfold Service.upsert_ops. rewrite find_op_index_cons.
  destruct (decide (Op.id e = Op.id op)); [done|].
  by destruct (find_op_index (Op.id op) l).
Qed.

Lemma upsert_ops_elem (op : Op.t) (l : list Op.t) : op ∈ Service.upsert_ops op l.
Proof.
  induction l as [|e l IH]; [apply list_elem_of_here|].
  rewrite upsert_ops_cons. destruct (decide _); [left|by right].
Qed.

Lemma upsert_ops_idemp (op : Op.t) (l : list Op.t) :
  Service.upsert_ops op (Service.upsert_ops op l) = Service.upsert_ops op l.
Proof.
  induction l as [|e l IH].
  - cbn. rewrite upsert_ops_cons. by rewrite decide_True.
  - rewrite upsert_ops_cons. destruct (decide (Op.id e = Op.id op)) as [He|He].
    + rewrite upsert_ops_cons. by rewrite decide_True.
    + rewrite upsert_ops_cons, decide_False by done. by rewrite IH.
Qed.

Lemma upsert_ops_found (op : Op.t) (l : list Op.t) (index : nat) :
  find_op_index (Op.id op) l = Some index →
  Service.upsert_ops op l = <[index := op]> l
  ∧ length (Service.upsert_ops op l) = length l.
Proof.
  intros Hfind. unfold Service.upsert_ops. rewrite Hfind.
  by rewrite length_insert.
Qed.

Lemma upsert_ops_fresh (op : Op.t) (l : list Op.t) :
  find_op_index (Op.id op) l = None → Service.upsert_ops op l = l ++ [op].
Proof. intros Hfind. unfold Service.upsert_ops. by rewrite Hfind. Qed.

(** ** The service's write path *)

Lemma upserted_idemp (op : Op.t) (before : option (list Op.t)) :
  upserted op (Some (upserted op before)) = upserted op before.
Proof.
  destruct before as [l|]; cbn.
  - apply upsert_ops_idemp.
  - rewrite upsert_ops_cons. by rewrite decide_True.
Qed.

Lemma upserted_elem (op : Op.t) (before : option (list Op.t)) :
  op ∈ upserted op before.
Proof. destruct before; cbn; [apply upsert_ops_elem|apply list_elem_of_here]. Qed.

Lemma write_tag_insert (user : string) (op : Op.t) (s : Store) (tag : string) :
  Service.write_tag user op s tag
  = <[(user, tag) := upserted op (s !! (user, tag))]> s.
Proof.
  unfold Service.write_tag, query, put_item, update_item.
  by destruct (s !! (user, tag)).
Qed.

Lemma lookup_write_tags (user : string) (op : Op.t) (tags : list string) (s : Store)
    (u t : string) :
  foldl (Service.write_tag user op) s tags !! (u, t)
  = if decide (u = user ∧ t ∈ tags)
    then Some (upserted op (s !! (u, t)))
    else s !! (u, t).
Proof.
  revert s. induction tags as [|tag tags IH]; intros s; cbn [foldl].
  - rewrite decide_False; [done|]. intros [_ ?%elem_of_nil]. done.
  - rewrite IH, write_tag_insert.
    destruct (decide ((user, tag) = (u, t))) as [[= -> ->]|Hne].
    + rewrite lookup_insert_eq, upserted_idemp.
      rewrite (decide_True (P := u = u ∧ t ∈ t :: tags)) by (split; [done|left]).
      by destruct (decide _).
    + rewrite lookup_insert_ne by done.
      destruct (decide (u = user ∧ t ∈ tags)) as [[-> Hin]|Hout].
      * rewrite decide_True; [done|]. split; [done|by right].
      * rewrite decide_False; [done|].
        intros [-> [->|?]%elem_of_cons]; [by apply Hne|by apply Hout].
Qed.

Lemma lookup_write_op (user : string) (op : Op.t) (s : Store) (u t : string) :
  Service.write_op user s op !! (u, t)
  = if decide (u = user ∧ t ∈ Service.operation_tags op)
    then Some (upserted (Service.stored op) (s !! (u, t)))
    else s !! (u, t).
Proof.
  unfold Service.write_op, Service.operation_tags, Service.stored.
  destruct (Service.prepare op) as [op' tags]. apply lookup_write_tags.
Qed.

Lemma stored_id (op : Op.t) : Op.id (Service.stored op) = Op.id op.
Proof. unfold Service.stored, Service.prepare. cbn. by destruct (Op.tags op). Qed.

Lemma operation_tags_all (op : Op.t) : "all" ∈ Service.operation_tags op.
Proof.
  unfold Service.operation_tags, Service.prepare. cbn.
  destruct (Op.tags op); cbn; [|by right; left].
  apply elem_of_app. right. left.
Qed.

Lemma operation_tags_declared (op : Op.t) (declared : list string) (tag : string) :
  Op.tags op = Some declared → tag ∈ declared → tag ∈ Service.operation_tags op.
Proof.
  intros Htags Hin. unfold Service.operation_tags, Service.prepare. cbn.
  rewrite Htags. cbn. apply elem_of_app. by left.
Qed.

Lemma write_ops_success (table_name : option string) (current_user : string)
    (ops : list Op.t) (s : Store) :
  success (Service.write_ops table_name current_user ops s).1 = true →
  (Service.write_ops table_name current_user ops s).2
  = foldl (Service.write_op "system") s ops.
Proof.
  unfold Service.write_ops.
  destruct table_name as [[|c name]|]; cbn; done.
Qed.

Lemma write_ops_failure (table_name : option string) (current_user : string)
    (ops : list Op.t) (s : Store) :
  success (Service.write_ops table_name current_user ops s).1 = false →
  (Service.write_ops table_name current_user ops s).2 = s.
Proof.
  unfold Service.write_ops.
  destruct table_name as [[|c name]|]; cbn; done.
Qed.

(** ** The command-line write path *)

(** A pass of the tool's tag loop that returns has done what the service's
    pass does. *)
Lemma tools_write_tag_returned (current_user : string) (op_dict : Op.t) (tag : string)
    (s s' : Store) :
  Tools.write_tag current_user op_dict tag s = (Returned (), s') →
  s' = Service.write_tag current_user op_dict s tag.
Proof.
  unfold Tools.write_tag, Service.write_tag, query.
  destruct (s !! (current_user, tag)) as [existing_ops|]; cbn.
  - unfold Tools.write_item, Service.upsert_ops.
    destruct (find_op_index (Op.id op_dict) existing_ops); cbn; [done|].
    by intros [= <-].
  - by intros [= <-].
Qed.

Lemma tools_write_tags_returned (current_user : string) (op_dict : Op.t)
    (tags : list string) (s s' : Store) :
  Tools.for_each (Tools.write_tag current_user op_dict) tags s = (Returned (), s') →
  s' = foldl (Service.write_tag current_user op_dict) s tags.
Proof.
  revert s. induction tags as [|tag tags IH]; intros s; cbn.
  - by intros [= <-].
  - destruct (Tools.write_tag current_user op_dict tag s) as [[[]|e] s1] eqn:Htag; [|done].
    apply tools_write_tag_returned in Htag as ->. apply IH.
Qed.

(** A pass over a tag whose partition holds the id stops at line 344. *)
Lemma tools_write_tag_present (current_user : string) (op_dict : Op.t) (tag : string)
    (s : Store) (e : Op.t) :
  e ∈ partition s current_user tag → Op.id e = Op.id op_dict →
  Tools.write_tag current_user op_dict tag s = (Raised (NameError "json"), s).
Proof.
  unfold partition, Tools.write_tag, query.
  destruct (s !! (current_user, tag)) as [existing_ops|]; cbn.
  - intros Hin Hid. unfold Tools.write_item.
    destruct (find_op_index_elem _ _ _ Hin Hid) as [index ->]. done.
  - by intros ?%elem_of_nil.
Qed.

Lemma tools_write_op_unfold (owner : string) (op : Tools.OperationModel.t) (s : Store) :
  Tools.write_op owner op s
  = Tools.for_each (Tools.write_tag owner (Tools.stored op)) (Tools.operation_tags op) s.
Proof. reflexivity. Qed.

Lemma tools_write_ops_one (name : string) (owner : string)
    (op : Tools.OperationModel.t) (s : Store) :
  name ≠ "" →
  Tools.write_ops (Some name) owner [op] s
  = match Tools.write_op owner op s with
    | (Returned _, s') => (Returned Tools.registered, s')
    | (Raised e, s') => (Raised e, s')
    end.
Proof.
  intros Hname. unfold Tools.write_ops. destruct name as [|c name]; [done|].
  cbn [Tools.for_each]. by destruct (Tools.write_op owner op s) as [[[]|e] s1].
Qed.

Lemma tools_write_ops_returned (table_name : option string) (owner : string)
    (op : Tools.OperationModel.t) (s s' : Store) :
  Tools.write_ops table_name owner [op] s = (Returned Tools.registered, s') →
  s' = foldl (Service.write_tag owner (Tools.stored op)) s (Tools.operation_tags op).
Proof.
  destruct table_name as [name|]; [|done].
  destruct (decide (name = "")) as [->|Hname]; [done|].
  rewrite tools_write_ops_one, tools_write_op_unfold by done.
  destruct (Tools.for_each _ _ s) as [[[]|e] s1] eqn:Htags; [|done].
  intros [= <-]. by apply tools_write_tags_returned.
Qed.

Lemma tools_write_tag_raises (current_user : string) (op_dict : Op.t) (tag : string)
    (s s' : Store) (e : exn) :
  Tools.write_tag current_user op_dict tag s = (Raised e, s') →
  e = NameError "json" ∧ s' = s.
Proof.
  unfold Tools.write_tag, query.
  destruct (s !! (current_user, tag)) as [existing_ops|]; cbn; [|done].
  unfold Tools.write_item.
  destruct (find_op_index (Op.id op_dict) existing_ops); cbn; [|done].
  by intros [= <- <-].
Qed.

(** The tag loop stops at line 344 as soon as one of its partitions holds
    the id. *)
Lemma tools_write_tags_present (current_user : string) (op_dict : Op.t)
    (tags : list string) (s : Store) (tag : string) (e : Op.t) :
  tag ∈ tags → e ∈ partition s current_user tag → Op.id e = Op.id op_dict →
  (Tools.for_each (Tools.write_tag current_user op_dict) tags s).1
  = Raised (NameError "json").
Proof.
  revert s. induction tags as [|tag0 tags IH]; intros s Htag Hin Hid.
  - by apply elem_of_nil in Htag.
  - cbn [Tools.for_each].
    destruct (Tools.write_tag current_user op_dict tag0 s) as [[[]|e'] s1] eqn:Htag0.
    + destruct (decide (tag = tag0)) as [->|Hne].
      { rewrite (tools_write_tag_present _ _ _ _ e) in Htag0 by done. done. }
      apply tools_write_tag_returned in Htag0 as ->.
      apply IH; [|unfold partition in *; rewrite write_tag_insert|done].
      * apply elem_of_cons in Htag as [?|?]; done.
      * rewrite lookup_insert_ne; [done|]. by intros [= ?].
    + by apply tools_write_tag_raises in Htag0 as [-> _].
Qed.

(** ** The service's delete path *)

Lemma matches_spec (op existing_op : Op.t) :
  Service.matches op existing_op = true ↔
  Op.id existing_op = Op.id op ∧ Op.name existing_op = Op.name op
  ∧ Op.url existing_op = Op.url op.
Proof.
  unfold Service.matches. rewrite !andb_true_iff, !bool_decide_eq_true. tauto.
Qed.

Lemma filter_same_length {A : Type} (P : A → Prop) `{!∀ x, Decision (P x)} (l : list A) :
  length (filter P l) = length l → filter P l = l.
Proof.
  induction l as [|x l IH]; [done|].
  rewrite filter_cons. destruct (decide (P x)); cbn.
  - intros [= Hlen]. by rewrite IH.
  - intros Hlen. pose proof (length_filter P l). lia.
Qed.

Lemma filter_filter_same {A : Type} (P : A → Prop) `{!∀ x, Decision (P x)} (l : list A) :
  filter P (filter P l) = filter P l.
Proof.
  induction l as [|x l IH]; [done|].
  rewrite filter_cons. destruct (decide (P x)) as [HP|HP]; [|done].
  rewrite filter_cons, decide_True by done. by rewrite IH.
Qed.

Lemma purged_partition (op : Op.t) (before : option (list Op.t)) :
  default [] (purged op before)
  = filter (λ existing_op, Service.matches op existing_op = false) (default [] before).
Proof.
  destruct before as [existing_ops|]; cbn; [|done].
  destruct (filter _ existing_ops) eqn:Hfilter; [|done].
  destruct existing_ops; done.
Qed.

Lemma purged_idemp (op : Op.t) (before : option (list Op.t)) :
  purged op (purged op before) = purged op before.
Proof.
  destruct before as [existing_ops|]; [|done].
  unfold purged at 2.
  destruct (filter _ existing_ops) as [|f filtered_ops] eqn:Hfilter.
  - unfold purged. rewrite Hfilter. by destruct existing_ops.
  - assert (filter (λ x, Service.matches op x = false) (f :: filtered_ops)
            = f :: filtered_ops) as Hsame
      by (rewrite <- Hfilter; apply filter_filter_same).
    unfold purged. by rewrite Hsame, Hfilter.
Qed.

Lemma lookup_delete_tag (user : string) (op : Op.t) (s : Store) (tag : string)
    (k : string * string) :
  Service.delete_tag user op s tag !! k
  = if decide (k = (user, tag)) then purged op (s !! k) else s !! k.
Proof.
  unfold Service.delete_tag, query.
  destruct (s !! (user, tag)) as [existing_ops|] eqn:Hs; cbn.
  - unfold Service.delete_from_item, update_item, delete_item.
    destruct (decide (length (filter (λ x, Service.matches op x = false) existing_ops)
                      = length existing_ops)) as [Hlen|Hlen].
    + rewrite bool_decide_eq_false_2 by (by intros ?).
      apply filter_same_length in Hlen.
      destruct (decide (k = (user, tag))) as [->|]; [|done].
      rewrite Hs. cbn. rewrite Hlen. by destruct existing_ops.
    + rewrite bool_decide_eq_true_2 by done.
      destruct (filter _ existing_ops) as [|f filtered_ops] eqn:Hfilter.
      * destruct (decide (k = (user, tag))) as [->|].
        -- rewrite lookup_delete_eq, Hs. cbn. rewrite Hfilter.
           by destruct existing_ops.
        -- by rewrite lookup_delete_ne.
      * destruct (decide (k = (user, tag))) as [->|].
        -- rewrite lookup_insert_eq, Hs. cbn. by rewrite Hfilter.
        -- by rewrite lookup_insert_ne.
  - destruct (decide (k = (user, tag))) as [->|]; [|done]. by rewrite Hs.
Qed.

Lemma lookup_delete_tags (user : string) (op : Op.t) (tags : list string) (s : Store)
    (u t : string) :
  foldl (Service.delete_tag user op) s tags !! (u, t)
  = if decide (u = user ∧ t ∈ tags) then purged op (s !! (u, t)) else s !! (u, t).
Proof.
  revert s. induction tags as [|tag tags IH]; intros s; cbn [foldl].
  - rewrite decide_False; [done|]. intros [_ ?%elem_of_nil]. done.
  - rewrite IH, lookup_delete_tag.
    destruct (decide ((u, t) = (user, tag))) as [[= -> ->]|Hne].
    + rewrite purged_idemp.
      rewrite (decide_True (P := user = user ∧ tag ∈ tag :: tags)) by (split; [done|left]).
      by destruct (decide _).
    + destruct (decide (u = user ∧ t ∈ tags)) as [[-> Hin]|Hout].
      * rewrite decide_True; [done|]. split; [done|by right].
      * rewrite decide_False; [done|].
        intros [-> [->|?]%elem_of_cons]; [by apply Hne|by apply Hout].
Qed.

(** The tags that [delete_op] goes through, for a reference with tags. *)
Lemma delete_prepare_tags (op : Op.t) (tags : list string) :
  Op.tags op = Some tags →
  ∃ effective, Op.tags (Service.delete_prepare op) = Some effective
    ∧ ∀ tag, tag ∈ effective ↔ tag ∈ tags ∨ tag = "all".
Proof.
  intros Htags. unfold Service.delete_prepare. rewrite Htags.
  destruct (bool_decide ("all" ∈ tags)) eqn:Hall.
  - apply bool_decide_eq_true in Hall. exists tags. split; [done|].
    intros tag. split; [by left|]. by intros [?| ->].
  - exists (tags ++ ["all"]). split; [done|]. intros tag.
    rewrite elem_of_app, list_elem_of_singleton. done.
Qed.

Lemma delete_prepare_matches (op existing_op : Op.t) :
  Service.matches (Service.delete_prepare op) existing_op = Service.matches op existing_op.
Proof.
  unfold Service.delete_prepare.
  destruct (Op.tags op) as [tags|]; [|done]. by destruct (bool_decide _).
Qed.

(** ** The scanner *)

Section ScannerFacts.
Context `{Tools.PyRuntime}.

Lemma getitem_attr_s (op_kwargs : gmap (option string) Tools.expr) (key : string)
    (value : PyConst) :
  Tools.getitem op_kwargs key ≫= Tools.attr_s = Returned value →
  op_kwargs !! Some key = Some (Tools.ast_Constant value).
Proof.
  unfold Tools.getitem. destruct (op_kwargs !! Some key) as [[]|]; cbn; try done.
  by intros [= ->].
Qed.

Lemma new_OperationModel_Some (description id method name url : PyConst)
    (params : list ParamModel) (tags : list string) (parameters : list (PyConst * PyVal))
    (operation : Tools.OperationModel.t) :
  Tools.new_OperationModel description id method name params url tags parameters
  = Some operation →
  Tools.str_field id = Some (Tools.OperationModel.id operation)
  ∧ Tools.str_field name = Some (Tools.OperationModel.name operation)
  ∧ Tools.str_field url = Some (Tools.OperationModel.url operation)
  ∧ Tools.OperationModel.tags operation = tags
  ∧ Tools.OperationModel.params operation = params
  ∧ Tools.OperationModel.includeAccessToken operation = true
  ∧ Tools.OperationModel.type operation = "custom".
Proof.
  unfold Tools.new_OperationModel. intros Hnew. simplify_option_eq. done.
Qed.

(** What a recognised decorator that yields an operation tells about it. *)
Lemma extract_op_Some (op_kwargs : gmap (option string) Tools.expr)
    (operation : Tools.OperationModel.t) :
  Tools.extract_op op_kwargs = Returned (Some operation) →
  Tools.has op_kwargs "params" = true
  ∧ Tools.OperationModel.tags operation = Tools.extract_tags op_kwargs
  ∧ ∃ name,
      op_kwargs !! Some "name" = Some (Tools.ast_Constant name)
      ∧ Tools.str_field name = Some (Tools.OperationModel.id operation)
      ∧ Tools.str_field name = Some (Tools.OperationModel.name operation).
Proof.
  unfold Tools.extract_op.
  destruct (_ && _); [|done].
  destruct (Tools.getitem op_kwargs "params") as [params_node|] eqn:Hparams; [|done].
  cbn [mbind outcome_bind].
  destruct (Tools.extract_dict params_node) as [params_dict|]; [|done].
  cbn [mbind outcome_bind].
  assert (Tools.has op_kwargs "params" = true) as Hhas.
  { unfold Tools.has. apply bool_decide_eq_true.
    unfold Tools.getitem in Hparams. by destruct (op_kwargs !! Some "params"). }
  rewrite Hhas.
  destruct (mapM _ params_dict) as [params|]; [|done]. cbn [mbind outcome_bind].
  destruct (Tools.extract_dict_from_ast _) as [parameters|]; [|done].
  cbn [mbind outcome_bind].
  destruct (Tools.getitem op_kwargs "description" ≫= Tools.attr_s) as [description|];
    [|done].
  cbn [mbind outcome_bind].
  destruct (Tools.getitem op_kwargs "name" ≫= Tools.attr_s) as [name|] eqn:Hname;
    [|done].
  cbn [mbind outcome_bind].
  destruct (if Tools.has op_kwargs "method" then _ else _) as [method|]; [|done].
  cbn [mbind outcome_bind].
  destruct (Tools.getitem op_kwargs "path" ≫= Tools.attr_s) as [url|]; [|done].
  cbn [mbind outcome_bind].
  destruct (Tools.new_OperationModel _ _ _ _ _ _ _ _) as [operation'|] eqn:Hnew.
  - intros [= ->]. apply new_OperationModel_Some in Hnew as (Hid & Hnm & _ & Htags & _).
    apply getitem_attr_s in Hname. eauto 10.
  - by destruct name.
Qed.

Lemma extract_decorators_elem (decorator_list : list Tools.expr)
    (ops_found : list Tools.OperationModel.t) (operation : Tools.OperationModel.t) :
  operation ∈ Tools.extract_decorators ops_found decorator_list →
  operation ∈ ops_found
  ∨ ∃ func args keywords,
      Tools.ast_Call func args keywords ∈ decorator_list
      ∧ Tools.op_keywords (Tools.ast_Call func args keywords) = Some keywords
      ∧ Tools.extract_op (Tools.kwargs_of keywords) = Returned (Some operation).
Proof.
  revert ops_found. induction decorator_list as [|decorator rest IH]; intros ops_found.
  - by left.
  - cbn [Tools.extract_decorators].
    assert (∀ found,
      operation ∈ Tools.extract_decorators found rest →
      operation ∈ found
      ∨ ∃ func args keywords,
          Tools.ast_Call func args keywords ∈ decorator :: rest
          ∧ Tools.op_keywords (Tools.ast_Call func args keywords) = Some keywords
          ∧ Tools.extract_op (Tools.kwargs_of keywords) = Returned (Some operation))
      as Hrest.
    { intros found [?|(func & args & kws & Hin & ? & ?)]%IH; [by left|].
      right. exists func, args, kws. split; [by right|done]. }
    destruct (Tools.op_keywords decorator) as [keywords|] eqn:Hkw; [|apply Hrest].
    destruct (Tools.extract_op (Tools.kwargs_of keywords)) as [[found|]|] eqn:Hop.
    + intros [[Hin|Hin%list_elem_of_singleton]%elem_of_app|Hin]%Hrest; [by left| |by right].
      subst found. right. destruct decorator as [| | | |func args kws|]; try done.
      assert (kws = keywords) as ->.
      { cbn in Hkw. destruct func; try done. by destruct (_ || _); simplify_eq. }
      exists func, args, keywords. split; [left|done].
    + apply Hrest.
    + by left.
Qed.

Lemma extract_nodes_elem (nodes : list Tools.node)
    (ops_found : list Tools.OperationModel.t) (operation : Tools.OperationModel.t) :
  operation ∈ foldl Tools.extract_node ops_found nodes →
  operation ∈ ops_found
  ∨ ∃ keywords, Tools.extract_op (Tools.kwargs_of keywords) = Returned (Some operation).
Proof.
  revert ops_found. induction nodes as [|n nodes IH]; intros ops_found; cbn [foldl].
  - by left.
  - intros [Hin|?]%IH; [|by right].
    destruct n as [fname decorator_list|]; [|by left].
    apply extract_decorators_elem in Hin as [?|(_ & _ & keywords & _ & _ & ?)];
      [by left|right; eauto].
Qed.

Lemma scan_ops_elem (path : Tools.entry) (operation : Tools.OperationModel.t) :
  operation ∈ Tools.scan_ops path →
  ∃ keywords, Tools.extract_op (Tools.kwargs_of keywords) = Returned (Some operation).
Proof.
  unfold Tools.scan_ops. generalize (Tools.find_python_files path) as python_files.
  intros python_files.
  assert (∀ all_ops,
    operation ∈ foldl (λ all_ops file_path,
                         all_ops ++ Tools.extract_ops_from_file file_path)
                      all_ops python_files →
    operation ∈ all_ops
    ∨ ∃ keywords, Tools.extract_op (Tools.kwargs_of keywords) = Returned (Some operation))
    as Hall.
  { induction python_files as [|tree files IH]; intros all_ops; cbn [foldl]; [by left|].
    intros [[?|Hin]%elem_of_app|?]%IH; [by left| |by right].
    destruct tree as [nodes|]; [|by apply elem_of_nil in Hin].
    apply extract_nodes_elem in Hin as [?%elem_of_nil|?]; [done|by right]. }
  by intros [?%elem_of_nil|?]%Hall.
Qed.

End ScannerFacts.

(** ** Stores seen through one user *)

Lemma partition_delete_tags (user : string) (op : Op.t) (tags : list string) (s : Store)
    (u t : string) :
  partition (foldl (Service.delete_tag user op) s tags) u t
  = if decide (u = user ∧ t ∈ tags)
    then filter (λ existing_op, Service.matches op existing_op = false) (partition s u t)
    else partition s u t.
Proof.
  unfold partition. rewrite lookup_delete_tags.
  destruct (decide _); [apply purged_partition|done].
Qed.

Lemma delete_op_store (table_name : option string) (current_user : string)
    (op : Op.t) (s : Store) :
  ((Service.delete_op table_name current_user op s).1 ≠ Returned Service.deleted
   ∧ (Service.delete_op table_name current_user op s).2 = s)
  ∨ ∃ effective,
      Op.tags (Service.delete_prepare op) = Some effective
      ∧ (Service.delete_op table_name current_user op s).1 = Returned Service.deleted
      ∧ (Service.delete_op table_name current_user op s).2
        = foldl (Service.delete_tag "system" (Service.delete_prepare op)) s effective.
Proof.
  unfold Service.delete_op.
  destruct table_name as [[|c name]|]; cbn; [by left| |by left].
  destruct (Op.tags (Service.delete_prepare op)) as [effective|] eqn:Htags; cbn;
    [right; eauto|by left].
Qed.

Lemma lookup_write_ops_other (user : string) (ops : list Op.t) (s : Store) (u t : string) :
  u ≠ user → foldl (Service.write_op user) s ops !! (u, t) = s !! (u, t).
Proof.
  intros Hu. revert s. induction ops as [|op ops IH]; intros s; cbn [foldl]; [done|].
  rewrite IH, lookup_write_op, decide_False; [done|]. by intros [? _].
Qed.

Lemma write_ops_agree (user : string) (ops : list Op.t) (s1 s2 : Store) :
  (∀ t, s1 !! (user, t) = s2 !! (user, t)) →
  ∀ t, foldl (Service.write_op user) s1 ops !! (user, t)
       = foldl (Service.write_op user) s2 ops !! (user, t).
Proof.
  revert s1 s2. induction ops as [|op ops IH]; intros s1 s2 Hagree; cbn [foldl]; [done|].
  apply IH. intros t. rewrite !lookup_write_op, Hagree. done.
Qed.

Lemma concat_query (s : Store) (user tag : string) :
  concat (query s user tag) = partition s user tag.
Proof.
  unfold query, partition. destruct (s !! (user, tag)); cbn; [apply app_nil_r|done].
Qed.

(** ** Runs that the table stops *)

(** A loop whose passes are stopped by a refusal or else do [step]: it does
    the passes before the first refused one, and no other. *)
Lemma for_each_stops {A : Type} (refuse : A → option exn) (step : Store → A → Store)
    (l : list A) (s : Store) :
  let body := λ x s, match refuse x with
                     | Some e => (Raised e, s)
                     | None => (Returned (), step s x)
                     end in
  ∃ visited rest,
    l = visited ++ rest
    ∧ (∀ x, x ∈ visited → refuse x = None)
    ∧ (Tools.for_each body l s).2 = foldl step s visited
    ∧ ((rest = [] ∧ (Tools.for_each body l s).1 = Returned ())
       ∨ ∃ x rest' e, rest = x :: rest' ∧ refuse x = Some e
                      ∧ (Tools.for_each body l s).1 = Raised e).
Proof.
  intros body. revert s. induction l as [|x l IH]; intros s.
  - exists [], []. split; [done|]. split; [by intros x ?%elem_of_nil|].
    split; [done|]. by left.
  - cbn [Tools.for_each]. unfold body at 1 3 5. destruct (refuse x) as [e|] eqn:Hx.
    + exists [], (x :: l). split; [done|]. split; [by intros y ?%elem_of_nil|].
      split; [done|]. right. by exists x, l, e.
    + destruct (IH (step s x)) as (visited & rest & -> & Hvisited & Hstore & Hout).
      exists (x :: visited), rest. split; [done|]. split.
      { intros y [->|?]%elem_of_cons; [done|by apply Hvisited]. }
      split; [done|]. done.
Qed.

Lemma for_each_invariant {A : Type} (I : Store → Prop)
    (body : A → Store → outcome () * Store) (l : list A) (s : Store) :
  (∀ x s, x ∈ l → I s → I (body x s).2) → I s → I (Tools.for_each body l s).2.
Proof.
  revert s. induction l as [|x l IH]; intros s Hbody Hs; cbn [Tools.for_each]; [done|].
  pose proof (Hbody x s ltac:(left) Hs) as Hx.
  destruct (body x s) as [[[]|e] s1]; [|done].
  apply IH; [|done]. intros y s0 Hy. apply Hbody. by right.
Qed.

Lemma for_each_returned {A : Type} (body : A → Store → outcome () * Store)
    (step : Store → A → Store) (l : list A) (s s' : Store) :
  (∀ x s s', body x s = (Returned (), s') → s' = step s x) →
  Tools.for_each body l s = (Returned (), s') → s' = foldl step s l.
Proof.
  intros Hbody. revert s. induction l as [|x l IH]; intros s; cbn [Tools.for_each foldl].
  - by intros [= <-].
  - destruct (body x s) as [[[]|e] s1] eqn:Hx; [|done].
    apply Hbody in Hx as ->. apply IH.
Qed.

Lemma tools_for_each_app {A : Type} (body : A → Store → outcome () * Store)
    (l1 l2 : list A) (s : Store) :
  Tools.for_each body (l1 ++ l2) s
  = match Tools.for_each body l1 s with
    | (Returned _, s1) => Tools.for_each body l2 s1
    | (Raised e, s1) => (Raised e, s1)
    end.
Proof.
  revert s. induction l1 as [|x l1 IH]; intros s; cbn; [done|].
  destruct (body x s) as [[[]|e] s1]; [apply IH|done].
Qed.

Lemma for_each_served {A : Type} (body body' : A → Store → outcome () * Store)
    (l : list A) (s : Store) :
  (∀ x s, x ∈ l → body x s = body' x s) →
  Tools.for_each body l s = Tools.for_each body' l s.
Proof.
  revert s. induction l as [|x l IH]; intros s Hsame; cbn [Tools.for_each]; [done|].
  rewrite Hsame by left. destruct (body' x s) as [[[]|e] s1]; [|done].
  apply IH. intros y s0 Hy. apply Hsame. by right.
Qed.

(** *** The service's write *)

Lemma service_on_write_op (refused : string → string → option exn) (user : string)
    (op : Op.t) (s : Store) :
  ∃ visited rest,
    Service.operation_tags op = visited ++ rest
    ∧ (∀ tag, tag ∈ visited → refused user tag = None)
    ∧ (ServiceOn.write_op refused user op s).2
      = foldl (Service.write_tag user (Service.stored op)) s visited
    ∧ ((rest = [] ∧ (ServiceOn.write_op refused user op s).1 = Returned ())
       ∨ ∃ tag rest' e, rest = tag :: rest' ∧ refused user tag = Some e
                        ∧ (ServiceOn.write_op refused user op s).1 = Raised e).
Proof.
  unfold ServiceOn.write_op, Service.operation_tags, Service.stored.
  destruct (Service.prepare op) as [op' tags]. cbn [fst snd].
  apply (for_each_stops (refused user) (Service.write_tag user op')).
Qed.

Lemma service_on_write_op_returned (refused : string → string → option exn)
    (user : string) (op : Op.t) (s s' : Store) :
  ServiceOn.write_op refused user op s = (Returned (), s') →
  s' = Service.write_op user s op.
Proof.
  unfold ServiceOn.write_op, Service.write_op.
  destruct (Service.prepare op) as [op' tags].
  apply for_each_returned. intros tag s0 s1. unfold ServiceOn.write_tag.
  destruct (refused user tag); [done|]. by intros [= <-].
Qed.

Lemma service_on_write_op_served (refused : string → string → option exn)
    (user : string) (op : Op.t) (s : Store) :
  (∀ tag, tag ∈ Service.operation_tags op → refused user tag = None) →
  ServiceOn.write_op refused user op s = (Returned (), Service.write_op user s op).
Proof.
  intros Hserved.
  destruct (service_on_write_op refused user op s)
    as (visited & rest & Htags & _ & Hstore & [[-> Hout]|(tag & rest' & e & -> & He & _)]).
  - destruct (ServiceOn.write_op refused user op s) as [o s'] eqn:Hrun. cbn in *.
    subst o. by rewrite (service_on_write_op_returned _ _ _ _ _ Hrun).
  - rewrite Hserved in He; [done|]. rewrite Htags, elem_of_app. right. left.
Qed.

Lemma service_on_write_ops_run (refused : string → string → option exn) (name : string)
    (current_user : string) (ops : list Op.t) (s : Store) :
  name ≠ "" →
  ServiceOn.write_ops refused (Some name) current_user ops s
  = match Tools.for_each (ServiceOn.write_op refused "system") ops s with
    | (Returned _, s') => (Returned ServiceOn.associated, s')
    | (Raised e, s') => (Raised e, s')
    end.
Proof. unfold ServiceOn.write_ops. by destruct name. Qed.

Lemma service_on_write_ops_store (refused : string → string → option exn)
    (table_name : option string) (current_user : string) (ops : list Op.t) (s : Store) :
  (ServiceOn.write_ops refused table_name current_user ops s).2 = s
  ∨ (ServiceOn.write_ops refused table_name current_user ops s).2
    = (Tools.for_each (ServiceOn.write_op refused "system") ops s).2.
Proof.
  unfold ServiceOn.write_ops. destruct table_name as [[|c name]|]; [by left| |by left].
  right. by destruct (Tools.for_each _ ops s) as [[[]|e] s'].
Qed.

(** With no key refused, the run is that of [Service.write_ops]. *)
Lemma service_on_write_ops_served (table_name : option string) (current_user : string)
    (ops : list Op.t) (s : Store) :
  ServiceOn.write_ops (λ _ _, None) table_name current_user ops s
  = (Returned (Service.write_ops table_name current_user ops s).1,
     (Service.write_ops table_name current_user ops s).2).
Proof.
  unfold ServiceOn.write_ops, Service.write_ops.
  destruct table_name as [[|c name]|]; [done| |done].
  assert (∀ s0, Tools.for_each (ServiceOn.write_op (λ _ _, None) "system") ops s0
                = (Returned (), foldl (Service.write_op "system") s0 ops)) as ->; [|done].
  induction ops as [|op ops IH]; intros s0; cbn [Tools.for_each foldl]; [done|].
  by rewrite service_on_write_op_served.
Qed.

Lemma partition_write_tags (user : string) (op : Op.t) (tags : list string) (s : Store)
    (u t : string) :
  partition (foldl (Service.write_tag user op) s tags) u t
  = if decide (u = user ∧ t ∈ tags) then upserted op (s !! (u, t)) else partition s u t.
Proof. unfold partition. rewrite lookup_write_tags. by destruct (decide _). Qed.

Lemma service_on_write_ops_returned (refused : string → string → option exn)
    (table_name : option string) (current_user : string) (ops : list Op.t) (s : Store)
    (response : Response) :
  (ServiceOn.write_ops refused table_name current_user ops s).1 = Returned response →
  (ServiceOn.write_ops refused table_name current_user ops s).2
  = (Service.write_ops table_name current_user ops s).2
  ∧ response = (Service.write_ops table_name current_user ops s).1.
Proof.
  unfold ServiceOn.write_ops, Service.write_ops.
  destruct table_name as [[|c name]|]; cbn; [by intros [= <-]| |by intros [= <-]].
  destruct (Tools.for_each _ ops s) as [[[]|e] s'] eqn:Hrun; cbn; [|done].
  intros [= <-]. split; [|done]. revert Hrun. apply for_each_returned.
  intros op s0 s1. apply service_on_write_op_returned.
Qed.

Lemma service_on_write_ops_all_served (refused : string → string → option exn)
    (table_name : option string) (current_user : string) (ops : list Op.t) (s : Store) :
  (∀ op tag, op ∈ ops → tag ∈ Service.operation_tags op → refused "system" tag = None) →
  ServiceOn.write_ops refused table_name current_user ops s
  = (Returned (Service.write_ops table_name current_user ops s).1,
     (Service.write_ops table_name current_user ops s).2).
Proof.
  intros Hserved. unfold ServiceOn.write_ops, Service.write_ops.
  destruct table_name as [[|c name]|]; [done| |done].
  assert (Tools.for_each (ServiceOn.write_op refused "system") ops s
          = (Returned (), foldl (Service.write_op "system") s ops)) as ->; [|done].
  revert s. induction ops as [|op ops IH]; intros s; cbn [Tools.for_each foldl]; [done|].
  rewrite service_on_write_op_served.
  - apply IH. intros op' tag Hop'. apply Hserved. by right.
  - intros tag. apply Hserved. left.
Qed.

(** *** The service's delete *)

Lemma service_on_delete_tags (refused : string → string → option exn) (user : string)
    (op : Op.t) (tags : list string) (s : Store) :
  ∃ visited rest,
    tags = visited ++ rest
    ∧ (∀ tag, tag ∈ visited → refused user tag = None)
    ∧ (Tools.for_each (ServiceOn.delete_tag refused user op) tags s).2
      = foldl (Service.delete_tag user op) s visited
    ∧ ((rest = []
        ∧ (Tools.for_each (ServiceOn.delete_tag refused user op) tags s).1 = Returned ())
       ∨ ∃ tag rest' e, rest = tag :: rest' ∧ refused user tag = Some e
           ∧ (Tools.for_each (ServiceOn.delete_tag refused user op) tags s).1 = Raised e).
Proof. apply (for_each_stops (refused user) (Service.delete_tag user op)). Qed.

Lemma service_on_delete_op_run (refused : string → string → option exn) (name : string)
    (current_user : string) (op : Op.t) (s : Store) (effective : list string) :
  name ≠ "" →
  Op.tags (Service.delete_prepare op) = Some effective →
  ServiceOn.delete_op refused (Some name) current_user op s
  = match Tools.for_each (ServiceOn.delete_tag refused "system" (Service.delete_prepare op))
            effective s with
    | (Returned _, s') => (Returned Service.deleted, s')
    | (Raised e, s') => (Raised e, s')
    end.
Proof. intros Hname Htags. unfold ServiceOn.delete_op. rewrite Htags. by destruct name. Qed.

(** With no key refused, the run is that of [Service.delete_op]. *)
Lemma service_on_delete_op_served (table_name : option string) (current_user : string)
    (op : Op.t) (s : Store) :
  ServiceOn.delete_op (λ _ _, None) table_name current_user op s
  = Service.delete_op table_name current_user op s.
Proof.
  unfold ServiceOn.delete_op, Service.delete_op.
  destruct table_name as [[|c name]|]; [done| |done].
  destruct (Op.tags (Service.delete_prepare op)) as [tags|]; [|done].
  assert (∀ s0, Tools.for_each (ServiceOn.delete_tag (λ _ _, None) "system"
                                  (Service.delete_prepare op)) tags s0
                = (Returned (),
                   foldl (Service.delete_tag "system" (Service.delete_prepare op)) s0 tags))
    as ->; [|done].
  induction tags as [|tag tags IH]; intros s0; cbn [Tools.for_each foldl]; [done|].
  unfold ServiceOn.delete_tag at 1. apply IH.
Qed.

(** *** The tool's write *)

Lemma only_appended_refl (s : Store) : only_appended s s.
Proof. intros user tag existing_ops Hs. exists []. by rewrite app_nil_r. Qed.

Lemma only_appended_trans (s1 s2 s3 : Store) :
  only_appended s1 s2 → only_appended s2 s3 → only_appended s1 s3.
Proof.
  intros H12 H23 user tag existing_ops Hs.
  destruct (H12 _ _ _ Hs) as [added2 Hs2]. destruct (H23 _ _ _ Hs2) as [added3 Hs3].
  exists (added2 ++ added3). by rewrite Hs3, app_assoc.
Qed.

Lemma tools_on_write_tag_appends (refused : string → string → option exn)
    (current_user : string) (op_dict : Op.t) (tag : string) (s : Store) :
  only_appended s (ToolsOn.write_tag refused current_user op_dict tag s).2.
Proof.
  unfold ToolsOn.write_tag. destruct (refused current_user tag); [apply only_appended_refl|].
  unfold Tools.write_tag, query.
  destruct (s !! (current_user, tag)) as [existing_ops|] eqn:Hs; cbn.
  - unfold Tools.write_item.
    destruct (find_op_index (Op.id op_dict) existing_ops); cbn; [apply only_appended_refl|].
    intros u t l Hl. unfold update_item.
    destruct (decide ((current_user, tag) = (u, t))) as [[= <- <-]|Hne].
    + rewrite lookup_insert_eq. exists [op_dict]. congruence.
    + rewrite lookup_insert_ne by done. exists []. by rewrite app_nil_r.
  - intros u t l Hl. unfold put_item.
    destruct (decide ((current_user, tag) = (u, t))) as [[= <- <-]|Hne]; [congruence|].
    rewrite lookup_insert_ne by done. exists []. by rewrite app_nil_r.
Qed.

Lemma tools_on_write_op_appends (refused : string → string → option exn)
    (current_user : string) (op : Tools.OperationModel.t) (s : Store) :
  only_appended s (ToolsOn.write_op refused current_user op s).2.
Proof.
  unfold ToolsOn.write_op. destruct (Tools.prepare op) as [op_dict tags].
  apply (for_each_invariant (only_appended s)); [|apply only_appended_refl].
  intros tag s0 _ Hs0. eapply only_appended_trans; [exact Hs0|].
  apply tools_on_write_tag_appends.
Qed.

Lemma tools_on_for_each_appends (refused : string → string → option exn)
    (current_user : string) (ops : list Tools.OperationModel.t) (s : Store) :
  only_appended s (Tools.for_each (ToolsOn.write_op refused current_user) ops s).2.
Proof.
  apply (for_each_invariant (only_appended s)); [|apply only_appended_refl].
  intros op s0 _ Hs0. eapply only_appended_trans; [exact Hs0|].
  apply tools_on_write_op_appends.
Qed.

Lemma tools_on_write_ops_appends (refused : string → string → option exn)
    (table_name : option string) (current_user : string)
    (ops : list Tools.OperationModel.t) (s : Store) :
  only_appended s (ToolsOn.write_ops refused table_name current_user ops s).2.
Proof.
  unfold ToolsOn.write_ops.
  destruct table_name as [[|c name]|]; [apply only_appended_refl| |apply only_appended_refl].
  pose proof (tools_on_for_each_appends refused current_user ops s) as Hrun.
  by destruct (Tools.for_each _ ops s) as [[[]|e] s'].
Qed.

Lemma only_appended_elem (s s' : Store) (user tag : string) (r : Op.t) :
  only_appended s s' → r ∈ partition s user tag → r ∈ partition s' user tag.
Proof.
  unfold partition. intros Hs Hr.
  destruct (s !! (user, tag)) as [existing_ops|] eqn:Hl; [|by apply elem_of_nil in Hr].
  destruct (Hs _ _ _ Hl) as [added ->]. cbn in *. apply elem_of_app. by left.
Qed.

Lemma tools_on_write_ops_run (refused : string → string → option exn) (name : string)
    (current_user : string) (ops : list Tools.OperationModel.t) (s : Store) :
  name ≠ "" →
  ToolsOn.write_ops refused (Some name) current_user ops s
  = match Tools.for_each (ToolsOn.write_op refused current_user) ops s with
    | (Returned _, s') => (Returned Tools.registered, s')
    | (Raised e, s') => (Raised e, s')
    end.
Proof. unfold ToolsOn.write_ops. by destruct name. Qed.

Lemma tools_on_write_op_unfold (refused : string → string → option exn)
    (current_user : string) (op : Tools.OperationModel.t) (s : Store) :
  ToolsOn.write_op refused current_user op s
  = Tools.for_each (ToolsOn.write_tag refused current_user (Tools.stored op))
                   (Tools.operation_tags op) s.
Proof. reflexivity. Qed.

(** The exceptions of the tag loop: a refusal of the table or the
    [NameError] of line 344. *)
Lemma tools_on_write_tags_raised (refused : string → string → option exn)
    (current_user : string) (op_dict : Op.t) (tags : list string) (s : Store) (e : exn) :
  (Tools.for_each (ToolsOn.write_tag refused current_user op_dict) tags s).1 = Raised e →
  e = NameError "json" ∨ ∃ tag, tag ∈ tags ∧ refused current_user tag = Some e.
Proof.
  revert s. induction tags as [|tag tags IH]; intros s; cbn [Tools.for_each]; [done|].
  unfold ToolsOn.write_tag at 1.
  destruct (refused current_user tag) as [e0|] eqn:Htag.
  - cbn. intros [= <-]. right. exists tag. split; [left|done].
  - destruct (Tools.write_tag current_user op_dict tag s) as [[[]|e0] s1] eqn:Hrun.
    + intros [?|(t & Ht & He)]%IH; [by left|]. right. exists t. split; [by right|done].
    + apply tools_write_tag_raises in Hrun as [-> _]. cbn. intros [= <-]. by left.
Qed.

(** The tag loop stops, at the latest, at a tag whose partition holds the
    id, and leaves that partition as it was. *)
Lemma tools_on_write_tags_present (refused : string → string → option exn)
    (current_user : string) (op_dict : Op.t) (tags : list string) (s : Store)
    (tag : string) (existing_ops : list Op.t) (e : Op.t) :
  tag ∈ tags →
  s !! (current_user, tag) = Some existing_ops →
  e ∈ existing_ops →
  Op.id e = Op.id op_dict →
  (∃ exc,
     (Tools.for_each (ToolsOn.write_tag refused current_user op_dict) tags s).1 = Raised exc)
  ∧ (Tools.for_each (ToolsOn.write_tag refused current_user op_dict) tags s).2
      !! (current_user, tag) = Some existing_ops.
Proof.
  revert s. induction tags as [|tag0 tags IH]; intros s Htag Hs Hin Hid.
  - by apply elem_of_nil in Htag.
  - cbn [Tools.for_each]. unfold ToolsOn.write_tag at 1 3.
    destruct (refused current_user tag0) as [e0|]; [cbn; eauto|].
    destruct (Tools.write_tag current_user op_dict tag0 s) as [[[]|e0] s1] eqn:Hrun.
    + destruct (decide (tag = tag0)) as [->|Hne].
      { rewrite (tools_write_tag_present _ _ _ _ e) in Hrun; [done| |done].
        unfold partition. by rewrite Hs. }
      apply tools_write_tag_returned in Hrun as ->.
      apply IH; [|rewrite write_tag_insert, lookup_insert_ne; [done|]|done|done].
      * apply elem_of_cons in Htag as [?|?]; done.
      * by intros [= ?].
    + apply tools_write_tag_raises in Hrun as [-> ->]. cbn. eauto.
Qed.

(** A record that the tool has written is under "all". *)
Lemma tools_on_write_op_returned (refused : string → string → option exn)
    (current_user : string) (op : Tools.OperationModel.t) (s s' : Store) :
  ToolsOn.write_op refused current_user op s = (Returned (), s') →
  Tools.stored op ∈ partition s' current_user "all".
Proof.
  rewrite tools_on_write_op_unfold. intros Hrun.
  assert (s' = foldl (Service.write_tag current_user (Tools.stored op)) s
                     (Tools.operation_tags op)) as ->.
  { revert Hrun. apply for_each_returned. intros tag s0 s1. unfold ToolsOn.write_tag.
    destruct (refused current_user tag); [done|]. apply tools_write_tag_returned. }
  unfold partition. rewrite lookup_write_tags, decide_True; [apply upserted_elem|].
  split; [done|]. unfold Tools.operation_tags, Tools.prepare. cbn.
  apply elem_of_app. right. left.
Qed.

(** Two records of one id in one call: the tool stops at the second, at
    the latest. *)
Lemma tools_on_two_records (refused : string → string → option exn)
    (current_user : string) (before between after : list Tools.OperationModel.t)
    (r1 r2 : Tools.OperationModel.t) (s : Store) :
  Tools.OperationModel.id r1 = Tools.OperationModel.id r2 →
  ∃ exc,
    (Tools.for_each (ToolsOn.write_op refused current_user)
       (before ++ r1 :: between ++ r2 :: after) s).1 = Raised exc.
Proof.
  intros Hid. rewrite tools_for_each_app.
  destruct (Tools.for_each _ before s) as [[[]|e] s1]; [|cbn; eauto].
  cbn [Tools.for_each].
  destruct (ToolsOn.write_op refused current_user r1 s1) as [[[]|e] s2] eqn:Hr1;
    [|cbn; eauto].
  apply tools_on_write_op_returned in Hr1. rewrite tools_for_each_app.
  pose proof (tools_on_for_each_appends refused current_user between s2) as Hkept.
  destruct (Tools.for_each _ between s2) as [[[]|e] s3]; [|cbn; eauto].
  cbn [snd] in Hkept. apply (only_appended_elem _ _ _ _ _ Hkept) in Hr1.
  cbn [Tools.for_each]. rewrite tools_on_write_op_unfold.
  unfold partition in Hr1.
  destruct (s3 !! (current_user, "all")) as [existing_ops|] eqn:Hs3;
    [|by apply elem_of_nil in Hr1].
  destruct (tools_on_write_tags_present refused current_user (Tools.stored r2)
              (Tools.operation_tags r2) s3 "all" existing_ops (Tools.stored r1))
    as [[exc Hexc] _]; [|done|done|done|].
  { unfold Tools.operation_tags, Tools.prepare. cbn. apply elem_of_app. right. left. }
  destruct (Tools.for_each _ (Tools.operation_tags r2) s3) as [[[]|e] s4]; cbn in *; eauto.
  done.
Qed.

Lemma tools_on_for_each_raised (refused : string → string → option exn)
    (current_user : string) (ops : list Tools.OperationModel.t) (s : Store) (e : exn) :
  (Tools.for_each (ToolsOn.write_op refused current_user) ops s).1 = Raised e →
  e = NameError "json"
  ∨ ∃ op tag, op ∈ ops ∧ tag ∈ Tools.operation_tags op ∧ refused current_user tag = Some e.
Proof.
  revert s. induction ops as [|op ops IH]; intros s; cbn [Tools.for_each]; [done|].
  destruct (ToolsOn.write_op refused current_user op s) as [[[]|e0] s1] eqn:Hop.
  - intros [?|(op' & tag & ? & ? & ?)]%IH; [by left|].
    right. exists op', tag. split; [by right|done].
  - cbn. intros [= <-].
    assert ((ToolsOn.write_op refused current_user op s).1 = Raised e0) as Hraised
      by (by rewrite Hop).
    rewrite tools_on_write_op_unfold in Hraised.
    apply tools_on_write_tags_raised in Hraised as [?|(tag & ? & ?)]; [by left|].
    right. exists op, tag. split; [left|done].
Qed.

(** With no key refused, the run is that of [Tools.write_ops]. *)
Lemma tools_on_write_ops_served (table_name : option string) (current_user : string)
    (ops : list Tools.OperationModel.t) (s : Store) :
  ToolsOn.write_ops (λ _ _, None) table_name current_user ops s
  = Tools.write_ops table_name current_user ops s.
Proof. reflexivity. Qed.

(** * The claims *)

(** ** Upsert *)

Lemma stored_fields (op : Op.t) : current_values op (Service.stored op).
Proof.
  unfold current_values, Service.stored, Service.prepare. cbn.
  destruct (Op.tags op) eqn:Htags; cbn; repeat split; done.
Qed.

(** C1.  After a write that reports success, the record as it is stored
    (the submitted values, with "all" added to its tags) is in the partition
    of every declared tag and in the partition of "all": for the service
    under the user "system", the only owner it writes to, and for the
    command-line tool under the owner it is called with, whenever its
    [write_ops] returns the success result. *)
Theorem upsert_fanout_complete :
  (∀ (table_name : option string) (current_user : string) (op : Op.t) (s : Store)
     (tag : string),
     success (Service.write_ops table_name current_user [op] s).1 = true →
     tag ∈ default [] (Op.tags op) ∨ tag = "all" →
     Service.stored op
       ∈ partition (Service.write_ops table_name current_user [op] s).2 "system" tag
     ∧ current_values op (Service.stored op))
  ∧ (∀ (table_name : option string) (owner : string) (op : Tools.OperationModel.t)
       (s s' : Store) (tag : string),
       Tools.write_ops table_name owner [op] s = (Returned Tools.registered, s') →
       tag ∈ Tools.OperationModel.tags op ∨ tag = "all" →
       Tools.stored op ∈ partition s' owner tag
       ∧ Tools.stored op
         = Op.set_tags (Tools.OperationModel.tags op ++ ["all"]) (Tools.model_dump op)).
Proof.
  split.
  - intros table_name current_user op s tag Hok Htag.
    split; [|apply stored_fields].
    rewrite write_ops_success by done. cbn [foldl].
    unfold partition. rewrite lookup_write_op, decide_True; [apply upserted_elem|].
    split; [done|]. destruct Htag as [Htag| ->]; [|apply operation_tags_all].
    destruct (Op.tags op) as [declared|] eqn:Htags; [|by apply elem_of_nil in Htag].
    by eapply operation_tags_declared.
  - intros table_name owner op s s' tag Hret Htag. split; [|done].
    apply tools_write_ops_returned in Hret as ->.
    unfold partition. rewrite lookup_write_tags, decide_True; [apply upserted_elem|].
    split; [done|]. unfold Tools.operation_tags, Tools.prepare. cbn.
    rewrite elem_of_app, list_elem_of_singleton. done.
Qed.

Lemma upsert_fanout_complete_witness :
  (Service.stored echo ∈ partition echo_store "system" "default"
   ∧ current_values echo (Service.stored echo))
  ∧ Tools.stored echo_model
      ∈ partition (Tools.write_ops (Some "ops") "alice" [echo_model] ∅).2 "alice" "all".
Proof.
  destruct upsert_fanout_complete as [Hservice Htools]. split.
  - apply (Hservice (Some "ops") "alice" echo ∅ "default"); [reflexivity|].
    left. cbn. left.
  - eapply (Htools (Some "ops") "alice" echo_model ∅ _ "all"); [reflexivity|].
    by right.
Defined.

(** C2, as the code has it.  In a partition that holds an entry with the
    id of the written record, the service's [write_ops] overwrites the first
    such entry where it stands and changes nothing else, once its tag loop
    has come to the partition; before that the partition is as it was, so
    that its length is the same whether the call returns or the table stops
    it at a refused key, and with no key
    refused the call returns with the entry overwritten, as [Service.write_ops]
    does.  A partition that the loop does not go through is left alone.  The
    tool's [write_ops] does
    not replace: over such a partition it ends with an exception, the
    [NameError] of line 344 when the table refuses no key, and the partition
    is as it was; whatever the tool writes, it adds at the end of a
    partition. *)
Theorem upsert_replaces_in_place :
  (∀ (refused : string → string → option exn) (name current_user : string) (op : Op.t)
     (s : Store) (tag : string) (existing_ops : list Op.t) (e : Op.t),
     name ≠ "" →
     tag ∈ Service.operation_tags op →
     s !! ("system", tag) = Some existing_ops →
     e ∈ existing_ops →
     Op.id e = Op.id op →
     let run := ServiceOn.write_ops refused (Some name) current_user [op] s in
     ∃ index e0,
       find_op_index (Op.id op) existing_ops = Some index
       ∧ existing_ops !! index = Some e0
       ∧ Op.id e0 = Op.id op
       ∧ (run.2 !! ("system", tag) = Some existing_ops
          ∨ run.2 !! ("system", tag) = Some (<[index := Service.stored op]> existing_ops))
       ∧ length (partition run.2 "system" tag) = length existing_ops
       ∧ ((∀ t, t ∈ Service.operation_tags op → refused "system" t = None) →
          run.1 = Returned ServiceOn.associated
          ∧ run.2 !! ("system", tag) = Some (<[index := Service.stored op]> existing_ops)
          ∧ <[index := Service.stored op]> existing_ops !! index = Some (Service.stored op)
          ∧ ∀ j, j ≠ index →
              <[index := Service.stored op]> existing_ops !! j = existing_ops !! j))
  ∧ (∀ (refused : string → string → option exn) (table_name : option string)
       (current_user : string) (op : Op.t) (s : Store) (user tag : string),
       ¬ (user = "system" ∧ tag ∈ Service.operation_tags op) →
       (ServiceOn.write_ops refused table_name current_user [op] s).2 !! (user, tag)
       = s !! (user, tag))
  ∧ (∀ (refused : string → string → option exn) (name owner : string)
       (op : Tools.OperationModel.t) (s : Store) (tag : string)
       (existing_ops : list Op.t) (e : Op.t),
       name ≠ "" →
       tag ∈ Tools.operation_tags op →
       s !! (owner, tag) = Some existing_ops →
       e ∈ existing_ops →
       Op.id e = Tools.OperationModel.id op →
       let run := ToolsOn.write_ops refused (Some name) owner [op] s in
       (∃ exc, run.1 = Raised exc)
       ∧ run.2 !! (owner, tag) = Some existing_ops
       ∧ ((∀ t, t ∈ Tools.operation_tags op → refused owner t = None) →
          run.1 = Raised (NameError "json")))
  ∧ (∀ (refused : string → string → option exn) (table_name : option string)
       (owner : string) (ops : list Tools.OperationModel.t) (s : Store),
       only_appended s (ToolsOn.write_ops refused table_name owner ops s).2)
  ∧ (∀ (table_name : option string) (current_user : string) (ops : list Op.t) (s : Store),
       ServiceOn.write_ops (λ _ _, None) table_name current_user ops s
       = (Returned (Service.write_ops table_name current_user ops s).1,
          (Service.write_ops table_name current_user ops s).2)).
Proof.
  split; [|split; [|split; [|split; [|apply service_on_write_ops_served]]]].
  - intros refused name current_user op s tag existing_ops e Hname Htag Hs Hin Hid run.
    destruct (find_op_index_elem (Op.id op) existing_ops e Hin Hid) as [index Hfind].
    assert (find_op_index (Op.id (Service.stored op)) existing_ops = Some index) as Hfind'
      by (by rewrite stored_id).
    destruct (upsert_ops_found _ _ _ Hfind') as [Hupsert Hlen].
    pose proof Hfind as Hfind0.
    apply find_op_index_Some in Hfind0 as (e0 & He0 & Hid0 & _).
    exists index, e0. split; [done|]. split; [done|]. split; [done|].
    assert (run = match ServiceOn.write_op refused "system" op s with
                  | (Returned _, s') => (Returned ServiceOn.associated, s')
                  | (Raised exc, s') => (Raised exc, s')
                  end) as Hrun.
    { subst run. rewrite service_on_write_ops_run by done. cbn [Tools.for_each].
      by destruct (ServiceOn.write_op refused "system" op s) as [[[]|exc] s']. }
    destruct (service_on_write_op refused "system" op s)
      as (visited & rest & Htags & Hvisited & Hstore & Hout).
    assert (run.2 !! ("system", tag)
            = if decide (tag ∈ visited)
              then Some (<[index := Service.stored op]> existing_ops)
              else Some existing_ops) as Hlookup.
    { rewrite Hrun.
      destruct (ServiceOn.write_op refused "system" op s) as [[[]|exc] s'];
        cbn [snd] in *; subst s'; rewrite lookup_write_tags, Hs; cbn [upserted];
        rewrite Hupsert; destruct (decide (tag ∈ visited));
        [by rewrite decide_True|rewrite decide_False; [done|by intros [_ ?]]
        |by rewrite decide_True|rewrite decide_False; [done|by intros [_ ?]]]. }
    split; [rewrite Hlookup; destruct (decide _); [by right|by left]|].
    split.
    { unfold partition. rewrite Hlookup. destruct (decide _); cbn; [|done].
      by rewrite length_insert. }
    intros Hserved.
    destruct Hout as [[-> Hreturned]|(t & rest' & exc & -> & Ht & _)].
    + rewrite app_nil_r in Htags. subst visited.
      split.
      { rewrite Hrun. destruct (ServiceOn.write_op refused "system" op s) as [[[]|exc] s'];
          cbn in *; done. }
      split; [rewrite Hlookup; by rewrite decide_True|].
      split; [apply list_lookup_insert_eq; by eapply lookup_lt_Some|].
      intros j Hj. by apply list_lookup_insert_ne.
    + rewrite Hserved in Ht; [done|]. rewrite Htags, elem_of_app. right. left.
  - intros refused table_name current_user op s user tag Hout.
    destruct (service_on_write_ops_store refused table_name current_user [op] s)
      as [->| ->]; [done|].
    cbn [Tools.for_each].
    destruct (service_on_write_op refused "system" op s)
      as (visited & rest & Htags & _ & Hstore & _).
    assert ((ServiceOn.write_op refused "system" op s).2 !! (user, tag) = s !! (user, tag))
      as Hsame.
    { rewrite Hstore, lookup_write_tags, decide_False; [done|].
      intros [-> Hin]. apply Hout. split; [done|]. rewrite Htags, elem_of_app. by left. }
    by destruct (ServiceOn.write_op refused "system" op s) as [[[]|exc] s'].
  - intros refused name owner op s tag existing_ops e Hname Htag Hs Hin Hid run.
    assert (run = match Tools.for_each (ToolsOn.write_tag refused owner (Tools.stored op))
                          (Tools.operation_tags op) s with
                  | (Returned _, s') => (Returned Tools.registered, s')
                  | (Raised exc, s') => (Raised exc, s')
                  end) as Hrun.
    { subst run. rewrite tools_on_write_ops_run by done. cbn [Tools.for_each].
      rewrite tools_on_write_op_unfold.
      by destruct (Tools.for_each _ (Tools.operation_tags op) s) as [[[]|exc] s']. }
    destruct (tools_on_write_tags_present refused owner (Tools.stored op)
                (Tools.operation_tags op) s tag existing_ops e Htag Hs Hin Hid)
      as [[exc Hexc] Hkept].
    pose proof (tools_on_write_tags_raised refused owner (Tools.stored op)
                  (Tools.operation_tags op) s exc Hexc) as Hwhich.
    rewrite Hrun.
    destruct (Tools.for_each _ (Tools.operation_tags op) s) as [[[]|exc'] s'];
      cbn [fst snd] in *; [done|].
    injection Hexc as ->. split; [eauto|]. split; [done|].
    intros Hserved. destruct Hwhich as [->|(t & Ht & Hrefused)]; [done|].
    rewrite Hserved in Hrefused; done.
  - apply tools_on_write_ops_appends.
Qed.

Lemma upsert_replaces_in_place_witness :
  ((ServiceOn.write_ops (λ _ _, None) (Some "ops") "bob" [echo_v2] ping_echo_store).1
   = Returned ServiceOn.associated
   ∧ (ServiceOn.write_ops (λ _ _, None) (Some "ops") "bob" [echo_v2] ping_echo_store).2
       !! ("system", "default")
     = Some [Service.stored ping; Service.stored echo_v2])
  ∧ (ToolsOn.write_ops (λ _ _, None) (Some "ops") "system" [echo_model_v2]
       ping_echo_store).1 = Raised (NameError "json")
  ∧ (ToolsOn.write_ops (λ _ _, None) (Some "ops") "system" [echo_model_v2]
       ping_echo_store).2 !! ("system", "default")
    = Some [Service.stored ping; Service.stored echo].
Proof.
  destruct upsert_replaces_in_place as (Hservice & _ & Htool & _ & _). split.
  - destruct (Hservice (λ _ _, None) "ops" "bob" echo_v2 ping_echo_store "default"
                [Service.stored ping; Service.stored echo] (Service.stored echo))
      as (index & e0 & Hfind & _ & _ & _ & _ & Hserved);
      [discriminate|left|reflexivity|right; left|reflexivity|].
    vm_compute in Hfind. injection Hfind as <-.
    destruct Hserved as (Hreturned & Hstore & _); [done|].
    split; [exact Hreturned|exact Hstore].
  - destruct (Htool (λ _ _, None) "ops" "system" echo_model_v2 ping_echo_store "default"
                [Service.stored ping; Service.stored echo] (Service.stored echo))
      as (_ & Hkept & Hname);
      [discriminate|left|reflexivity|right; left|reflexivity|].
    split; [by apply Hname|exact Hkept].
Defined.

(** C3.  Writing the same record a second time changes nothing: the table
    after two identical writes is the table after one. *)
Theorem upsert_idempotent (table_name : option string) (current_user : string)
    (op : Op.t) (s : Store) :
  (Service.write_ops table_name current_user [op]
     (Service.write_ops table_name current_user [op] s).2).2
  = (Service.write_ops table_name current_user [op] s).2
  ∧ ∀ user tag,
      partition (Service.write_ops table_name current_user [op]
                   (Service.write_ops table_name current_user [op] s).2).2 user tag
      = partition (Service.write_ops table_name current_user [op] s).2 user tag.
Proof.
  assert ((Service.write_ops table_name current_user [op]
             (Service.write_ops table_name current_user [op] s).2).2
          = (Service.write_ops table_name current_user [op] s).2) as Hsame.
  { destruct (success (Service.write_ops table_name current_user [op] s).1) eqn:Hok.
    - assert (∀ s0, (Service.write_ops table_name current_user [op] s0).2
                    = Service.write_op "system" s0 op) as Hrun.
      { intros s0. revert Hok. unfold Service.write_ops.
        by destruct table_name as [[|c name]|]. }
      rewrite !Hrun. apply map_eq. intros [u t].
      rewrite !lookup_write_op.
      destruct (decide (u = "system" ∧ t ∈ Service.operation_tags op)); [|done].
      by rewrite upserted_idemp.
    - assert (∀ s0, (Service.write_ops table_name current_user [op] s0).2 = s0) as Hrun.
      { intros s0. revert Hok. unfold Service.write_ops.
        by destruct table_name as [[|c name]|]. }
      by rewrite !Hrun. }
  split; [done|]. intros user tag. by rewrite Hsame.
Qed.

(** ** Delete *)

(** C4.  With the table name set and a reference that has tags,
    [delete_op] keeps, in every partition of the table, whether the call
    returns or the table stops it at a refused key, each entry that differs
    from the reference in id, name or url: so
    an entry with the id of the reference and another url stays.  When the
    table serves the keys of the reference's tags and of "all", the call
    returns its result and, in each of these partitions of "system", the
    entries that remain are in their order those that differ from the
    reference in id, name or url: an entry goes exactly when all three are
    equal. *)
Theorem delete_requires_full_match (refused : string → string → option exn)
    (name current_user : string) (ref : Op.t) (s : Store) (tags : list string) :
  name ≠ "" →
  Op.tags ref = Some tags →
  let run := ServiceOn.delete_op refused (Some name) current_user ref s in
  (∀ user tag r, r ∈ partition s user tag →
     ¬ (Op.id r = Op.id ref ∧ Op.name r = Op.name ref ∧ Op.url r = Op.url ref) →
     r ∈ partition run.2 user tag)
  ∧ (∀ user tag r, r ∈ partition s user tag →
       Op.id r = Op.id ref → Op.url r ≠ Op.url ref → r ∈ partition run.2 user tag)
  ∧ ((∀ tag, tag ∈ tags ∨ tag = "all" → refused "system" tag = None) →
     run.1 = Returned Service.deleted
     ∧ ∀ tag, tag ∈ tags ∨ tag = "all" →
         partition run.2 "system" tag
         = filter (λ existing_op, Service.matches ref existing_op = false)
                  (partition s "system" tag)
         ∧ ∀ r, r ∈ partition s "system" tag →
             (r ∉ partition run.2 "system" tag ↔
              Op.id r = Op.id ref ∧ Op.name r = Op.name ref ∧ Op.url r = Op.url ref))
  ∧ Service.delete_op (Some name) current_user ref s
    = ServiceOn.delete_op (λ _ _, None) (Some name) current_user ref s.
Proof.
  intros Hname Htags run.
  destruct (delete_prepare_tags ref tags Htags) as (effective & Heff & Hmem).
  assert (run = match Tools.for_each
                        (ServiceOn.delete_tag refused "system" (Service.delete_prepare ref))
                        effective s with
                | (Returned _, s') => (Returned Service.deleted, s')
                | (Raised e, s') => (Raised e, s')
                end) as Hrun
    by (subst run; by apply service_on_delete_op_run).
  destruct (service_on_delete_tags refused "system" (Service.delete_prepare ref) effective s)
    as (visited & rest & Heffective & Hvisited & Hstore & Hout).
  assert (∀ user tag,
    partition run.2 user tag
    = if decide (user = "system" ∧ tag ∈ visited)
      then filter (λ existing_op, Service.matches ref existing_op = false)
                  (partition s user tag)
      else partition s user tag) as Hpart.
  { intros user tag.
    assert (run.2 = foldl (Service.delete_tag "system" (Service.delete_prepare ref)) s visited)
      as ->.
    { rewrite Hrun. by destruct (Tools.for_each _ effective s) as [[[]|e] s']. }
    rewrite partition_delete_tags. destruct (decide _); [|done].
    apply list_filter_iff. intros x. by rewrite delete_prepare_matches. }
  assert (∀ user tag r, r ∈ partition s user tag →
     ¬ (Op.id r = Op.id ref ∧ Op.name r = Op.name ref ∧ Op.url r = Op.url ref) →
     r ∈ partition run.2 user tag) as Hkept.
  { intros user tag r Hin Hdiffers. rewrite Hpart. destruct (decide _); [|done].
    apply list_elem_of_filter. split; [|done].
    destruct (Service.matches ref r) eqn:Hm; [|done].
    by apply matches_spec in Hm. }
  split; [done|]. split.
  { intros user tag r Hin Hid Hurl. apply Hkept; [done|]. by intros (_ & _ & ?). }
  split; [|symmetry; apply service_on_delete_op_served].
  intros Hserved. destruct Hout as [[-> Hreturned]|(tag & rest' & e & -> & He & _)].
  - rewrite app_nil_r in Heffective. subst visited. split.
    { rewrite Hrun. destruct (Tools.for_each _ effective s) as [[[]|e] s']; cbn in *; done. }
    intros tag Htag.
    assert (partition run.2 "system" tag
            = filter (λ existing_op, Service.matches ref existing_op = false)
                     (partition s "system" tag)) as Hhere.
    { rewrite Hpart, decide_True; [done|]. split; [done|]. by apply Hmem. }
    split; [done|].
    intros r Hin. rewrite Hhere, list_elem_of_filter, <- matches_spec.
    destruct (Service.matches ref r); split; try done.
    + intros _. by intros [? _].
    + intros Hgone. destruct Hgone. done.
  - rewrite Hserved in He; [done|]. apply Hmem. rewrite Heffective, elem_of_app.
    right. left.
Qed.

Lemma delete_requires_full_match_witness :
  (ServiceOn.delete_op (λ _ _, None) (Some "ops") "alice" echo_ref reused_store).1
  = Returned Service.deleted
  ∧ partition (ServiceOn.delete_op (λ _ _, None) (Some "ops") "alice" echo_ref
                 reused_store).2 "system" "default" = [echo_moved]
  ∧ partition (ServiceOn.delete_op (λ _ _, None) (Some "ops") "alice" echo_ref
                 reused_store).2 "system" "all" = [echo_moved].
Proof.
  destruct (delete_requires_full_match (λ _ _, None) "ops" "alice" echo_ref reused_store
              ["default"]) as (_ & _ & Hserved & _); [discriminate|reflexivity|].
  destruct Hserved as [Hreturned Hparts]; [done|].
  split; [exact Hreturned|]. split.
  - destruct (Hparts "default") as [Hfilter _]; [left; left|]. exact Hfilter.
  - destruct (Hparts "all") as [Hfilter _]; [by right|]. exact Hfilter.
Defined.

(** ** Fetch *)

Lemma fetch_unfold (fuel : nat)
    (dynamodb_query : string → string → outcome (list (list Op.t)))
    (current_user tag : string) :
  Service.fetch_user_ops_fuel (S fuel) dynamodb_query current_user tag
  = match dynamodb_query current_user tag with
    | Raised e => Some (Raised e)
    | Returned items =>
        if bool_decide (current_user ≠ "system") then
          match Service.fetch_user_ops_fuel fuel dynamodb_query "system" tag with
          | None => None
          | Some (Returned system_ops) =>
              match data system_ops with
              | Some system_data =>
                  Some (Returned (Service.ok_fetch (concat items ++ system_data)))
              | None => Some (Returned (Service.ok_fetch (concat items)))
              end
          | Some (Raised e) => Some (Returned (Service.ok_fetch (concat items)))
          end
        else Some (Returned (Service.ok_fetch (concat items)))
    end.
Proof. reflexivity. Qed.

Lemma fetch_system (fuel : nat) (s : Store) (failing : string → string → option exn)
    (tag : string) :
  Service.fetch_user_ops_fuel (S fuel) (Service.table_query s failing) "system" tag
  = Some (match failing "system" tag with
          | Some e => Raised e
          | None => Returned (Service.ok_fetch (partition s "system" tag))
          end).
Proof.
  cbn. unfold Service.table_query. destruct (failing "system" tag); [done|].
  by rewrite concat_query.
Qed.

(** C5.  For a user other than "system" whose own query succeeds, [fetch_user_ops]
    returns the success result whose data are the user's records for the tag
    followed by those of "system"; when the query for "system" raises, it
    still returns the success result, with exactly the user's own records.
    Two levels of calls are all it needs. *)
Theorem fetch_fallback_union (s : Store) (failing : string → string → option exn)
    (u t : string) (fuel : nat) :
  u ≠ "system" →
  failing u t = None →
  (2 ≤ fuel)%nat →
  (failing "system" t = None →
   Service.fetch_user_ops_fuel fuel (Service.table_query s failing) u t
   = Some (Returned (Service.ok_fetch (partition s u t ++ partition s "system" t))))
  ∧ (∀ e, failing "system" t = Some e →
     Service.fetch_user_ops_fuel fuel (Service.table_query s failing) u t
     = Some (Returned (Service.ok_fetch (partition s u t))))
  ∧ Service.fetch_user_ops (Service.table_query s failing) u t
    = Service.fetch_user_ops_fuel fuel (Service.table_query s failing) u t.
Proof.
  intros Hu Hown Hfuel.
  destruct fuel as [|[|fuel]]; [lia|lia|].
  assert (∀ n, Service.fetch_user_ops_fuel (S (S n)) (Service.table_query s failing) u t
    = Some (Returned (Service.ok_fetch
        (partition s u t ++ match failing "system" t with
                            | Some _ => []
                            | None => partition s "system" t
                            end)))) as Hrun.
  { intros n. rewrite fetch_unfold, fetch_system. unfold Service.table_query at 1.
    rewrite Hown, bool_decide_eq_true_2, concat_query by done.
    destruct (failing "system" t); cbn; [by rewrite app_nil_r|done]. }
  unfold Service.fetch_user_ops. rewrite !Hrun.
  split; [by intros ->|]. split; [|done].
  intros e ->. by rewrite app_nil_r.
Qed.

Lemma fetch_fallback_union_witness :
  Service.fetch_user_ops_fuel 2
    (Service.table_query echo_store (λ user _, if bool_decide (user = "system")
                                               then Some (ClientError "down") else None))
    "alice" "default"
  = Some (Returned (Service.ok_fetch (partition echo_store "alice" "default"))).
Proof.
  destruct (fetch_fallback_union echo_store
              (λ user _, if bool_decide (user = "system")
                         then Some (ClientError "down") else None)
              "alice" "default" 2 ltac:(done) eq_refl ltac:(lia)) as (_ & Hdown & _).
  exact (Hdown (ClientError "down") eq_refl).
Defined.

(** ** Who is written to *)

(** C9.  [write_ops] and [delete_op] of the service return the same result
    and the same table whoever the caller is; they leave every partition of
    a user other than "system" as it was; and what they return and what they
    leave under "system" is determined by what the table held under
    "system". *)
Theorem service_confined_to_system (table_name : option string)
    (current_user other_user : string) (ops : list Op.t) (ref : Op.t) (s : Store)
    (u t : string) :
  u ≠ "system" →
  Service.write_ops table_name current_user ops s
  = Service.write_ops table_name other_user ops s
  ∧ Service.delete_op table_name current_user ref s
    = Service.delete_op table_name other_user ref s
  ∧ (Service.write_ops table_name current_user ops s).2 !! (u, t) = s !! (u, t)
  ∧ (Service.delete_op table_name current_user ref s).2 !! (u, t) = s !! (u, t)
  ∧ ∀ s2 : Store,
      (∀ tag, s2 !! ("system", tag) = s !! ("system", tag)) →
      (Service.write_ops table_name current_user ops s2).1
      = (Service.write_ops table_name current_user ops s).1
      ∧ (Service.delete_op table_name current_user ref s2).1
        = (Service.delete_op table_name current_user ref s).1
      ∧ ∀ tag,
          (Service.write_ops table_name current_user ops s2).2 !! ("system", tag)
          = (Service.write_ops table_name current_user ops s).2 !! ("system", tag)
          ∧ (Service.delete_op table_name current_user ref s2).2 !! ("system", tag)
            = (Service.delete_op table_name current_user ref s).2 !! ("system", tag).
Proof.
  intros Hu. split; [done|]. split; [done|]. split; [|split].
  - unfold Service.write_ops. destruct table_name as [[|c name]|]; cbn; try done.
    by apply lookup_write_ops_other.
  - destruct (delete_op_store table_name current_user ref s)
      as [[_ ->]|(effective & _ & _ & ->)]; [done|].
    rewrite lookup_delete_tags, decide_False; [done|]. by intros [? _].
  - intros s2 Hagree. split; [|split].
    + unfold Service.write_ops. by destruct table_name as [[|c name]|].
    + unfold Service.delete_op. destruct table_name as [[|c name]|]; cbn; try done.
      by destruct (Op.tags (Service.delete_prepare ref)).
    + intros tag. split.
      * unfold Service.write_ops. destruct table_name as [[|c name]|]; cbn; try done.
        by apply write_ops_agree.
      * unfold Service.delete_op. destruct table_name as [[|c name]|]; cbn; try done.
        destruct (Op.tags (Service.delete_prepare ref)) as [effective|]; cbn; [|done].
        rewrite !lookup_delete_tags, Hagree. done.
Qed.

Lemma service_confined_to_system_witness :
  (Service.write_ops (Some "ops") "alice" [echo] ∅).2 !! ("alice", "default") = None.
Proof.
  destruct (service_confined_to_system (Some "ops") "alice" "bob" [echo] echo_ref ∅
              "alice" "default" ltac:(done)) as (_ & _ & Hwrite & _).
  rewrite Hwrite. reflexivity.
Defined.

(** ** Registering again with the command-line tool *)

(** C6, as the code has it.  When a partition that the tool's [write_ops]
    goes through already holds the id, the call ends with the [NameError]
    of line 344 and returns no result; when the record is present in all
    of them, the table is left as it was. *)
Theorem reregistration_raises (name owner : string) (op : Tools.OperationModel.t)
    (s : Store) (tag : string) (e : Op.t) :
  name ≠ "" →
  tag ∈ Tools.operation_tags op →
  e ∈ partition s owner tag →
  Op.id e = Op.id (Tools.stored op) →
  (Tools.write_ops (Some name) owner [op] s).1 = Raised (NameError "json")
  ∧ ((∀ tag', tag' ∈ Tools.operation_tags op → Tools.stored op ∈ partition s owner tag') →
     Tools.write_ops (Some name) owner [op] s = (Raised (NameError "json"), s)).
Proof.
  intros Hname Htag Hin Hid.
  rewrite tools_write_ops_one, tools_write_op_unfold by done. split.
  - pose proof (tools_write_tags_present owner (Tools.stored op)
                  (Tools.operation_tags op) s tag e Htag Hin Hid) as Hraise.
    destruct (Tools.for_each _ _ s) as [[[]|e'] s1]; cbn in *; congruence.
  - intros Hall.
    assert (∃ tag0 tags, Tools.operation_tags op = tag0 :: tags) as (tag0 & tags & Hcons).
    { unfold Tools.operation_tags, Tools.prepare. cbn.
      destruct (Tools.OperationModel.tags op); cbn; eauto. }
    rewrite Hcons. cbn [Tools.for_each].
    rewrite (tools_write_tag_present _ _ _ _ (Tools.stored op)); [done| |done].
    apply Hall. rewrite Hcons. left.
Qed.

Lemma reregistration_raises_witness :
  Tools.write_ops (Some "ops") "system" [echo_model]
    (Tools.write_ops (Some "ops") "system" [echo_model] ∅).2
  = (Raised (NameError "json"), (Tools.write_ops (Some "ops") "system" [echo_model] ∅).2).
Proof.
  destruct (reregistration_raises "ops" "system" echo_model
              (Tools.write_ops (Some "ops") "system" [echo_model] ∅).2
              "all" (Tools.stored echo_model)) as [_ Hsame];
    [done|right; left|left|reflexivity|].
  apply Hsame. intros tag' [->|[->|[]%elem_of_nil]%elem_of_cons]%elem_of_cons; left.
Defined.

(** ** The scanner's output *)

(** C7, as the code has it.  A recognised declaration that gives [path],
    [name], [description] and a nested [parameters] but no [params] passes
    the test of lines 195-200 and then fails on [op_kwargs["params"]]: no
    operation is produced for it, nor for the decorators after it on the
    same function. *)
Theorem parameters_only_declaration_dropped `{Tools.PyRuntime} (fname marker : string)
    (args : list Tools.expr) (keywords : list (option string * Tools.expr))
    (rest : list Tools.expr) (ops_found : list Tools.OperationModel.t) :
  marker = "op" ∨ marker = "vop" →
  Tools.has (Tools.kwargs_of keywords) "path" = true →
  Tools.has (Tools.kwargs_of keywords) "name" = true →
  Tools.has (Tools.kwargs_of keywords) "description" = true →
  Tools.has (Tools.kwargs_of keywords) "parameters" = true →
  Tools.has (Tools.kwargs_of keywords) "params" = false →
  Tools.extract_op (Tools.kwargs_of keywords) = Raised (KeyError "params")
  ∧ Tools.extract_node ops_found
      (Tools.FunctionDef fname (Tools.ast_Call (Tools.ast_Name marker) args keywords :: rest))
    = ops_found.
Proof.
  intros Hmarker Hpath Hname Hdesc Hparameters Hparams.
  assert (Tools.extract_op (Tools.kwargs_of keywords) = Raised (KeyError "params")) as Hop.
  { unfold Tools.extract_op. rewrite Hpath, Hname, Hdesc, Hparameters, Hparams. cbn.
    unfold Tools.getitem. unfold Tools.has in Hparams.
    apply bool_decide_eq_false in Hparams.
    destruct (Tools.kwargs_of keywords !! Some "params"); [|done].
    destruct Hparams. by eexists. }
  split; [done|]. cbn [Tools.extract_node Tools.extract_decorators].
  assert (Tools.op_keywords (Tools.ast_Call (Tools.ast_Name marker) args keywords)
          = Some keywords) as ->.
  { cbn. by destruct Hmarker as [-> | ->]. }
  by rewrite Hop.
Qed.

Lemma parameters_only_declaration_dropped_witness :
  @Tools.extract_op Tools.strict_runtime
    (Tools.kwargs_of [(Some "path", Tools.ast_Constant (CStr "/echo"));
                      (Some "name", Tools.ast_Constant (CStr "echo"));
                      (Some "description", Tools.ast_Constant (CStr "d"));
                      (Some "parameters", Tools.ast_Dict [] [])])
  = Raised (KeyError "params")
  ∧ @Tools.extract_ops_from_file Tools.strict_runtime
      (Returned [Tools.FunctionDef "echo" [parameters_only_decl]]) = [].
Proof.
  destruct (parameters_only_declaration_dropped (H := Tools.strict_runtime)
              "echo" "op" []
              [(Some "path", Tools.ast_Constant (CStr "/echo"));
               (Some "name", Tools.ast_Constant (CStr "echo"));
               (Some "description", Tools.ast_Constant (CStr "d"));
               (Some "parameters", Tools.ast_Dict [] [])] [] [])
    as [Hop Hnode]; [by left|reflexivity..|].
  split; [exact Hop|exact Hnode].
Defined.

(** C8, as stated, fails on this file: the declaration [untagged_decl] has
    no [tags] keyword and the scanner's record for it has no tag at all. *)
Lemma untagged_declaration_has_no_tags :
  @Tools.extract_ops_from_file Tools.strict_runtime
    (Returned [Tools.FunctionDef "echo" [untagged_decl]]) = [untagged_model]
  ∧ Tools.has (Tools.kwargs_of [(Some "path", Tools.ast_Constant (CStr "/echo"));
                                (Some "name", Tools.ast_Constant (CStr "echo"));
                                (Some "description", Tools.ast_Constant (CStr "d"));
                                (Some "params", Tools.ast_Dict [] [])]) "tags" = false
  ∧ Tools.OperationModel.tags untagged_model = []
  ∧ Tools.OperationModel.tags untagged_model ≠ ["default"].
Proof. repeat split; try reflexivity. discriminate. Qed.

(** C8, amended.  The record that the scanner produces for a declaration
    with no [tags] keyword has the empty list of tags, so that registering
    it goes through the partition "all" only. *)
Theorem untagged_declaration_gets_empty_tags `{Tools.PyRuntime}
    (keywords : list (option string * Tools.expr)) (operation : Tools.OperationModel.t) :
  Tools.has (Tools.kwargs_of keywords) "tags" = false →
  Tools.extract_op (Tools.kwargs_of keywords) = Returned (Some operation) →
  Tools.OperationModel.tags operation = []
  ∧ Tools.operation_tags operation = ["all"].
Proof.
  intros Htags Hop. apply extract_op_Some in Hop as (_ & Hextract & _).
  assert (Tools.OperationModel.tags operation = []) as Hnil.
  { rewrite Hextract. unfold Tools.extract_tags. unfold Tools.has in Htags.
    apply bool_decide_eq_false in Htags.
    destruct (Tools.kwargs_of keywords !! Some "tags"); [|done].
    destruct Htags. by eexists. }
  split; [done|]. unfold Tools.operation_tags, Tools.prepare. cbn. by rewrite Hnil.
Qed.

Lemma untagged_declaration_gets_empty_tags_witness :
  Tools.OperationModel.tags untagged_model = []
  ∧ Tools.operation_tags untagged_model = ["all"].
Proof.
  apply (untagged_declaration_gets_empty_tags (H := Tools.strict_runtime)
           [(Some "path", Tools.ast_Constant (CStr "/echo"));
            (Some "name", Tools.ast_Constant (CStr "echo"));
            (Some "description", Tools.ast_Constant (CStr "d"));
            (Some "params", Tools.ast_Dict [] [])] untagged_model);
    reflexivity.
Defined.

(** C10, as the code has it.  Every record in the scanner's output has
    its id equal to its name, both read from the [name] keyword of its
    declaration, so that two records with the same name have the same id.
    They do not replace each other: [scan_and_register_ops] passes the
    records of the scan to the tool's [write_ops], which ends with an
    exception at the second of them at the latest, the [NameError] of line
    344 when the table refuses no key.  Once the first of the two is
    written it is under "all", and the entries of the table stay where they
    are: the run only adds entries at the end of partitions. *)
Theorem scanned_id_is_name `{Tools.PyRuntime} (path : Tools.entry)
    (r1 r2 : Tools.OperationModel.t) :
  r1 ∈ Tools.scan_ops path →
  r2 ∈ Tools.scan_ops path →
  Tools.OperationModel.id r1 = Tools.OperationModel.name r1
  ∧ (∃ keywords name,
       Tools.extract_op (Tools.kwargs_of keywords) = Returned (Some r1)
       ∧ Tools.kwargs_of keywords !! Some "name" = Some (Tools.ast_Constant name)
       ∧ Tools.str_field name = Some (Tools.OperationModel.id r1))
  ∧ (Tools.OperationModel.name r1 = Tools.OperationModel.name r2 →
     Tools.OperationModel.id r1 = Tools.OperationModel.id r2
     ∧ ∀ (refused : string → string → option exn) (table owner : string) (s : Store)
         (before between after : list Tools.OperationModel.t),
         table ≠ "" →
         Tools.scan_ops path = before ++ r1 :: between ++ r2 :: after →
         let run := ToolsOn.scan_and_register_ops refused (Some table) path owner s in
         (∃ exc, run.1 = Raised exc)
         ∧ ((∀ tag, refused owner tag = None) → run.1 = Raised (NameError "json"))
         ∧ only_appended s run.2
         ∧ ∀ s1, Tools.for_each (ToolsOn.write_op refused owner) (before ++ [r1]) s
                 = (Returned (), s1) →
             Tools.stored r1 ∈ partition s1 owner "all"
             ∧ only_appended s1 run.2
             ∧ Tools.stored r1 ∈ partition run.2 owner "all").
Proof.
  intros [kw1 Hop1]%scan_ops_elem [kw2 Hop2]%scan_ops_elem.
  pose proof Hop1 as Hkw1.
  apply extract_op_Some in Hop1 as (_ & _ & name1 & Hname1 & Hid1 & Hnm1).
  apply extract_op_Some in Hop2 as (_ & _ & name2 & _ & Hid2 & Hnm2).
  assert (Tools.OperationModel.id r1 = Tools.OperationModel.name r1) as H1 by congruence.
  assert (Tools.OperationModel.id r2 = Tools.OperationModel.name r2) as H2 by congruence.
  split; [done|]. split; [eauto 10|].
  intros Hsame. assert (Tools.OperationModel.id r1 = Tools.OperationModel.id r2) as Hid
    by congruence.
  split; [done|].
  intros refused table owner s before between after Htable Hscan run.
  assert (run = match Tools.for_each (ToolsOn.write_op refused owner)
                        (before ++ r1 :: between ++ r2 :: after) s with
                | (Returned _, s') => (Returned Tools.registered, s')
                | (Raised e, s') => (Raised e, s')
                end) as Hrun.
  { subst run. unfold ToolsOn.scan_and_register_ops. rewrite Hscan.
    by apply tools_on_write_ops_run. }
  destruct (tools_on_two_records refused owner before between after r1 r2 s Hid)
    as [exc Hexc].
  pose proof (tools_on_for_each_raised refused owner _ s exc Hexc) as Hwhich.
  pose proof (tools_on_for_each_appends refused owner
                (before ++ r1 :: between ++ r2 :: after) s) as Happended.
  assert (run.2 = (Tools.for_each (ToolsOn.write_op refused owner)
                     (before ++ r1 :: between ++ r2 :: after) s).2) as Hstore.
  { rewrite Hrun. by destruct (Tools.for_each _ _ s) as [[[]|e] s']. }
  split; [|split; [|split]].
  - exists exc. rewrite Hrun.
    destruct (Tools.for_each _ _ s) as [[[]|e] s']; [discriminate Hexc|].
    by injection Hexc as ->.
  - intros Hserved. destruct Hwhich as [->|(op & tag & _ & _ & Hrefused)].
    + rewrite Hrun.
      destruct (Tools.for_each _ _ s) as [[[]|e] s']; [discriminate Hexc|].
      by injection Hexc as ->.
    + rewrite Hserved in Hrefused. done.
  - by rewrite Hstore.
  - intros s1 Hprefix.
    assert (Tools.stored r1 ∈ partition s1 owner "all") as Hall.
    { rewrite tools_for_each_app in Hprefix.
      destruct (Tools.for_each _ before s) as [[[]|e] s0]; [|done].
      cbn [Tools.for_each] in Hprefix.
      destruct (ToolsOn.write_op refused owner r1 s0) as [[[]|e] s0'] eqn:Hr1; [|done].
      injection Hprefix as <-. by apply tools_on_write_op_returned in Hr1. }
    assert (only_appended s1 run.2) as Hafter.
    { rewrite Hstore, (cons_middle r1), app_assoc, tools_for_each_app, Hprefix.
      apply tools_on_for_each_appends. }
    split; [done|]. split; [done|]. by apply (only_appended_elem s1).
Qed.

Lemma scanned_id_is_name_witness :
  Tools.OperationModel.id untagged_model = Tools.OperationModel.name untagged_model
  ∧ Tools.OperationModel.id untagged_model = Tools.OperationModel.id second_model
  ∧ (@ToolsOn.scan_and_register_ops (λ _ _, None) Tools.strict_runtime (Some "ops")
       sample_tree "system" ∅).1 = Raised (NameError "json")
  ∧ Tools.stored untagged_model
      ∈ partition (@ToolsOn.scan_and_register_ops (λ _ _, None) Tools.strict_runtime
                     (Some "ops") sample_tree "system" ∅).2 "system" "all"
  ∧ Tools.stored second_model
      ∉ partition (@ToolsOn.scan_and_register_ops (λ _ _, None) Tools.strict_runtime
                     (Some "ops") sample_tree "system" ∅).2 "system" "all".
Proof.
  destruct (scanned_id_is_name (H := Tools.strict_runtime) sample_tree
              untagged_model second_model) as (Hid & _ & Hsame);
    [vm_compute; left|vm_compute; right; left|].
  split; [exact Hid|]. destruct Hsame as [Hids Hrun]; [reflexivity|].
  split; [exact Hids|].
  destruct (Hrun (λ _ _, None) "ops" "system" ∅ [] [] []) as (_ & Hname & _ & Hfirst);
    [discriminate|reflexivity|].
  split; [by apply Hname|].
  destruct (Hfirst (@ToolsOn.write_op (λ _ _, None) "system" untagged_model ∅).2)
    as (_ & _ & Hkept); [reflexivity|].
  split; [exact Hkept|].
  intros Hin. vm_compute in Hin.
  apply list_elem_of_singleton in Hin. discriminate Hin.
Defined.

(** ** Further properties of the registry *)

(** X11.  A request for the user "system" reads the partition of "system"
    alone: one level of calls, no fallback. *)
Lemma fetch_system_alone (s : Store) (failing : string → string → option exn)
    (tag : string) (fuel : nat) :
  (1 ≤ fuel)%nat →
  failing "system" tag = None →
  Service.fetch_user_ops_fuel fuel (Service.table_query s failing) "system" tag
  = Some (Returned (Service.ok_fetch (partition s "system" tag))).
Proof.
  intros Hfuel Hok. destruct fuel as [|fuel]; [lia|].
  by rewrite fetch_system, Hok.
Qed.

(** Deleting the last record of a partition removes its key, and the
    partition then reads as empty. *)
Lemma delete_last_removes_partition (table_name : option string) (current_user : string)
    (ref : Op.t) (s : Store) (tags : list string) (tag : string) (r : Op.t) :
  (Service.delete_op table_name current_user ref s).1 = Returned Service.deleted →
  Op.tags ref = Some tags →
  tag ∈ tags ∨ tag = "all" →
  s !! ("system", tag) = Some [r] →
  Service.matches ref r = true →
  (Service.delete_op table_name current_user ref s).2 !! ("system", tag) = None
  ∧ partition (Service.delete_op table_name current_user ref s).2 "system" tag = [].
Proof.
  intros Hret Htags Htag Hs Hmatch.
  destruct (delete_op_store table_name current_user ref s)
    as [[Hno _]|(effective & Heff & _ & Hs')]; [done|].
  destruct (delete_prepare_tags ref tags Htags) as (effective' & Heff' & Hmem).
  assert (effective' = effective) as -> by congruence.
  assert ((Service.delete_op table_name current_user ref s).2 !! ("system", tag) = None)
    as Hgone.
  { rewrite Hs', lookup_delete_tags, decide_True, Hs by (split; [done|by apply Hmem]).
    unfold purged. rewrite filter_cons, delete_prepare_matches, Hmatch.
    by rewrite decide_False. }
  split; [done|]. unfold partition. by rewrite Hgone.
Qed.

(** The end-to-end example of the specification, through the service:
    after registering [echo], the caller "alice" finds it under "default"
    and under "all", as the one record of the list; after deleting it by its
    reference, the list under "default" is empty. *)
Example register_fetch_delete :
  let all_up (_ _ : string) : option exn := None in
  let fetch s tag := Service.fetch_user_ops (Service.table_query s all_up) "alice" tag in
  let s1 := (Service.write_ops (Some "ops") "alice" [echo] ∅).2 in
  let s2 := (Service.delete_op (Some "ops") "alice" echo_ref s1).2 in
  fetch s1 "default" = Some (Returned (Service.ok_fetch [Service.stored echo]))
  ∧ fetch s1 "all" = Some (Returned (Service.ok_fetch [Service.stored echo]))
  ∧ fetch s2 "default" = Some (Returned (Service.ok_fetch []))
  ∧ s2 = ∅.
Proof. repeat split; vm_compute; reflexivity. Qed.

(** The scan of [sample_tree]: the ignored directory is not entered, the
    file that does not parse and the one that is not Python give nothing,
    and the two remaining declarations are read. *)
Example scan_sample_tree :
  @Tools.scan_ops Tools.strict_runtime sample_tree = [untagged_model; second_model].
Proof. vm_compute. reflexivity. Qed.

(** * Further properties of the code *)

(** ** What a write keeps *)

Lemma upsert_ops_ids (op : Op.t) (l : list Op.t) :
  Op.id <$> Service.upsert_ops op l
  = match find_op_index (Op.id op) l with
    | Some _ => Op.id <$> l
    | None => (Op.id <$> l) ++ [Op.id op]
    end.
Proof.
  induction l as [|e l IH]; [done|].
  rewrite upsert_ops_cons, find_op_index_cons.
  destruct (decide (Op.id e = Op.id op)) as [He|He]; cbn; [by rewrite He|].
  rewrite IH. by destruct (find_op_index (Op.id op) l).
Qed.

Lemma upsert_ops_inv (op r : Op.t) (l : list Op.t) :
  r ∈ Service.upsert_ops op l → r = op ∨ r ∈ l.
Proof.
  induction l as [|e l IH]; cbn.
  - intros ?%list_elem_of_singleton. by left.
  - rewrite upsert_ops_cons. destruct (decide _).
    + intros [->|?]%elem_of_cons; [by left|right; by right].
    + intros [->|[?|?]%IH]%elem_of_cons; [right; left|by left|right; by right].
Qed.

Lemma upsert_ops_other (op r : Op.t) (l : list Op.t) :
  r ∈ l → Op.id r ≠ Op.id op → r ∈ Service.upsert_ops op l.
Proof.
  intros Hin Hid. induction l as [|e l IH]; [by apply elem_of_nil in Hin|].
  rewrite upsert_ops_cons. apply elem_of_cons in Hin as [->|Hin].
  - rewrite decide_False by done. left.
  - destruct (decide _); right; [done|by apply IH].
Qed.

Lemma upsert_ops_length (op : Op.t) (l : list Op.t) :
  (length l ≤ length (Service.upsert_ops op l))%nat.
Proof.
  unfold Service.upsert_ops. destruct (find_op_index _ l).
  - by rewrite length_insert.
  - rewrite length_app. lia.
Qed.

Lemma upserted_unique (op : Op.t) (before : option (list Op.t)) :
  unique_ids (default [] before) → unique_ids (upserted op before).
Proof.
  unfold unique_ids. destruct before as [l|]; cbn.
  - intros Hl. rewrite upsert_ops_ids.
    destruct (find_op_index (Op.id op) l) eqn:Hfind; [done|].
    apply NoDup_app. split; [done|]. split; [|apply NoDup_singleton].
    intros i (e & -> & He)%list_elem_of_fmap ?%list_elem_of_singleton.
    rewrite find_op_index_None in Hfind. by apply (Hfind e).
  - intros _. apply NoDup_singleton.
Qed.

Lemma partition_write_op (user : string) (op : Op.t) (s : Store) (u t : string) :
  partition (Service.write_op user s op) u t
  = if decide (u = user ∧ t ∈ Service.operation_tags op)
    then upserted (Service.stored op) (s !! (u, t))
    else partition s u t.
Proof. unfold partition. rewrite lookup_write_op. by destruct (decide _). Qed.

Lemma upserted_other (op r : Op.t) (before : option (list Op.t)) :
  r ∈ default [] before → Op.id r ≠ Op.id op → r ∈ upserted op before.
Proof.
  destruct before as [l|]; cbn; [apply upsert_ops_other|by intros ?%elem_of_nil].
Qed.

Lemma upserted_length (op : Op.t) (before : option (list Op.t)) :
  (length (default [] before) ≤ length (upserted op before))%nat.
Proof. destruct before as [l|]; cbn; [apply upsert_ops_length|lia]. Qed.

Lemma upserted_inv (op r : Op.t) (before : option (list Op.t)) :
  r ∈ upserted op before → r = op ∨ r ∈ default [] before.
Proof.
  destruct before as [l|]; cbn; [apply upsert_ops_inv|].
  intros ?%list_elem_of_singleton. by left.
Qed.

(** X1.  Where the partition of a tag of the record holds no entry with its
    id, a successful write puts the record at the end of that partition and
    leaves the entries before it as they were; an absent partition is created
    with the record as its only entry. *)
Theorem write_appends_new_id (table_name : option string) (current_user : string)
    (op : Op.t) (s : Store) (tag : string) :
  success (Service.write_ops table_name current_user [op] s).1 = true →
  tag ∈ Service.operation_tags op →
  (∀ e, e ∈ partition s "system" tag → Op.id e ≠ Op.id op) →
  partition (Service.write_ops table_name current_user [op] s).2 "system" tag
  = partition s "system" tag ++ [Service.stored op].
Proof.
  intros Hok Htag Hfresh. rewrite write_ops_success by done. cbn [foldl].
  rewrite partition_write_op, decide_True by done. unfold partition in *.
  destruct (s !! ("system", tag)) as [l|]; cbn in *; [|done].
  apply upsert_ops_fresh, find_op_index_None. intros e He. rewrite stored_id.
  by apply Hfresh.
Qed.

Lemma write_appends_new_id_witness :
  partition (Service.write_ops (Some "ops") "alice" [echo] ∅).2 "system" "default"
  = partition ∅ "system" "default" ++ [Service.stored echo].
Proof.
  apply (write_appends_new_id (Some "ops") "alice" echo ∅ "default");
    [reflexivity|left|].
  intros e He. by apply elem_of_nil in He.
Defined.

(** X2.  A batch of writes keeps the ids of every partition distinct: from
    a table where no partition holds an id twice, [write_ops] leads to such a
    table, whatever the records and their order. *)
Theorem write_keeps_unique_ids (table_name : option string) (current_user : string)
    (ops : list Op.t) (s : Store) :
  (∀ user tag, unique_ids (partition s user tag)) →
  ∀ user tag,
    unique_ids (partition (Service.write_ops table_name current_user ops s).2 user tag).
Proof.
  intros Hs.
  assert (∀ s0, (∀ user tag, unique_ids (partition s0 user tag)) →
    ∀ user tag, unique_ids (partition (foldl (Service.write_op "system") s0 ops) user tag))
    as Hfold.
  { induction ops as [|op ops IH]; intros s0 Hs0; cbn [foldl]; [done|].
    apply IH. intros user tag. rewrite partition_write_op.
    destruct (decide _); [|done]. apply upserted_unique, Hs0. }
  unfold Service.write_ops. destruct table_name as [[|c name]|]; cbn; try done.
  by apply Hfold.
Qed.

Lemma write_keeps_unique_ids_witness :
  unique_ids (partition (Service.write_ops (Some "ops") "alice" [echo; echo_moved] ∅).2
                        "system" "all").
Proof.
  apply (write_keeps_unique_ids (Some "ops") "alice" [echo; echo_moved] ∅).
  intros user tag. apply NoDup_nil_2.
Defined.

(** X3.  A batch of writes removes nothing that it does not replace,
    whether it returns or the table stops it at a refused key: no partition
    gets shorter, and an entry whose id is the id of none of the written
    records is still in its partition afterwards. *)
Theorem write_keeps_other_records (refused : string → string → option exn)
    (table_name : option string) (current_user : string) (ops : list Op.t) (s : Store) :
  let s' := (ServiceOn.write_ops refused table_name current_user ops s).2 in
  (∀ user tag, (length (partition s user tag) ≤ length (partition s' user tag))%nat)
  ∧ (∀ user tag r,
       r ∈ partition s user tag →
       (∀ op, op ∈ ops → Op.id op ≠ Op.id r) →
       r ∈ partition s' user tag).
Proof.
  intros s'.
  assert (∀ op s0 user tag,
    (length (partition s0 user tag)
     ≤ length (partition (ServiceOn.write_op refused "system" op s0).2 user tag))%nat
    ∧ ∀ r, r ∈ partition s0 user tag → Op.id op ≠ Op.id r →
        r ∈ partition (ServiceOn.write_op refused "system" op s0).2 user tag) as Hop.
  { intros op s0 user tag.
    destruct (service_on_write_op refused "system" op s0)
      as (visited & rest & _ & _ & -> & _).
    rewrite partition_write_tags. destruct (decide _); [|done]. split.
    - apply upserted_length.
    - intros r Hr Hid. apply upserted_other; [done|]. by rewrite stored_id. }
  destruct (service_on_write_ops_store refused table_name current_user ops s)
    as [Hsame|Hrun]; subst s'; [by rewrite Hsame|rewrite Hrun]. split.
  - intros user tag.
    apply (for_each_invariant
             (λ s0, (length (partition s user tag) ≤ length (partition s0 user tag))%nat));
      [|done].
    intros op s0 _ Hs0. destruct (Hop op s0 user tag) as [Hlen _]. lia.
  - intros user tag r Hr Hids.
    apply (for_each_invariant (λ s0, r ∈ partition s0 user tag)); [|done].
    intros op s0 Hin Hs0. destruct (Hop op s0 user tag) as [_ Hkept].
    apply Hkept; [done|]. by apply Hids.
Qed.

Lemma write_keeps_other_records_witness :
  Service.stored echo
    ∈ partition (ServiceOn.write_ops refuses_blank (Some "ops") "bob" [ping; echo_blank]
                   echo_store).2 "system" "all"
  ∧ (length (partition echo_store "system" "default")
     ≤ length (partition (ServiceOn.write_ops refuses_blank (Some "ops") "bob"
                            [ping; echo_blank] echo_store).2 "system" "default"))%nat
  ∧ Service.stored echo
      ∈ partition (ServiceOn.write_ops refuses_blank (Some "ops") "bob" [ping]
                     echo_store).2 "system" "default".
Proof.
  destruct (write_keeps_other_records refuses_blank (Some "ops") "bob" [ping; echo_blank]
              echo_store) as [Hlength _].
  destruct (write_keeps_other_records refuses_blank (Some "ops") "bob" [ping] echo_store)
    as [_ Hkept].
  split; [vm_compute; left|]. split; [apply Hlength|].
  apply (Hkept "system" "default" (Service.stored echo)); [left|].
  intros op Hop. apply list_elem_of_singleton in Hop. subst op. discriminate.
Defined.

Lemma write_op_indexed (s : Store) (op : Op.t) :
  indexed s → indexed (Service.write_op "system" s op).
Proof.
  intros Hs tag r. rewrite !partition_write_op.
  rewrite (decide_True (P := "system" = "system" ∧ "all" ∈ Service.operation_tags op))
    by (split; [done|apply operation_tags_all]).
  assert (r ∈ partition s "system" tag →
          ∃ r', r' ∈ upserted (Service.stored op) (s !! ("system", "all"))
                ∧ Op.id r' = Op.id r) as Hold.
  { intros (r0 & Hr0 & Hid)%Hs.
    destruct (decide (Op.id r0 = Op.id (Service.stored op))) as [Heq|Hne].
    - exists (Service.stored op). split; [apply upserted_elem|congruence].
    - exists r0. split; [by apply upserted_other|done]. }
  destruct (decide _); [|done].
  intros [->|Hin]%upserted_inv; [|by apply Hold].
  exists (Service.stored op). split; [apply upserted_elem|done].
Qed.

(** X4.  The partition "all" of "system" is an index of the ids written
    by the calls that return: from a table where every id found under a tag
    of "system" is found under "all" (the empty table is one), a batch of
    writes that returns leads to such a table, and the batch returns when the
    table refuses none of its keys.  [get_all_ops] returns that partition to
    an administrator, whoever the caller is, and to another caller the
    refusal, without a query. *)
Theorem admin_catalogue_lists_every_id (refused : string → string → option exn)
    (table_name : option string) (current_user admin : string) (ops : list Op.t)
    (s : Store) (failing : string → string → option exn) :
  indexed s →
  failing "system" "all" = None →
  let run := ServiceOn.write_ops refused table_name current_user ops s in
  (∀ response, run.1 = Returned response → indexed run.2)
  ∧ ((∀ op tag, op ∈ ops → tag ∈ Service.operation_tags op → refused "system" tag = None) →
     ∃ response, run.1 = Returned response)
  ∧ Service.get_all_ops true (Service.table_query run.2 failing) admin
    = Some (Returned (inr (Service.ok_fetch (partition run.2 "system" "all"))))
  ∧ ∀ dynamodb_query,
      Service.get_all_ops false dynamodb_query admin
      = Some (Returned (inl (Service.mkRefusal false "Unable to authenticate user as admin"))).
Proof.
  intros Hs Hup run. subst run. split; [|split; [|split; [|done]]].
  - intros response Hreturned.
    apply service_on_write_ops_returned in Hreturned as [-> _].
    unfold Service.write_ops. destruct table_name as [[|c name]|]; cbn; try done.
    clear Hup. revert s Hs.
    induction ops as [|op ops IH]; intros s Hs; cbn [foldl]; [done|].
    by apply IH, write_op_indexed.
  - intros Hserved. rewrite service_on_write_ops_all_served by done. eauto.
  - unfold Service.get_all_ops, Service.fetch_user_ops. cbn [negb].
    by rewrite fetch_system, Hup.
Qed.

Lemma admin_catalogue_lists_every_id_witness :
  indexed (ServiceOn.write_ops (λ _ _, None) (Some "ops") "alice" [echo; ping] ∅).2.
Proof.
  destruct (admin_catalogue_lists_every_id (λ _ _, None) (Some "ops") "alice" "root"
              [echo; ping] ∅ (λ _ _, None)) as [Hindexed _]; [|reflexivity|].
  - intros tag r Hr. by apply elem_of_nil in Hr.
  - apply (Hindexed ServiceOn.associated). reflexivity.
Defined.

(** A batch that the table stops between two tags: the record is under
    "default" and not under "all", where [get_all_ops] would look for it. *)
Example interrupted_write_is_not_indexed :
  let run := ServiceOn.write_ops refuses_blank (Some "ops") "alice" [echo_blank] ∅ in
  run.1 = Raised (ClientError "ValidationException")
  ∧ partition run.2 "system" "default" = [Service.stored echo_blank]
  ∧ partition run.2 "system" "all" = []
  ∧ ¬ indexed run.2.
Proof.
  split; [reflexivity|]. split; [reflexivity|]. split; [reflexivity|].
  intros Hindexed.
  destruct (Hindexed "default" (Service.stored echo_blank)) as (r & Hr & _); [left|].
  by apply elem_of_nil in Hr.
Qed.

(** ** What a delete does and does not *)

Lemma filter_all {A : Type} (P : A → Prop) `{!∀ x, Decision (P x)} (l : list A) :
  (∀ x, x ∈ l → P x) → filter P l = l.
Proof.
  induction l as [|x l IH]; intros Hall; [done|].
  rewrite filter_cons, decide_True by (apply Hall; left).
  rewrite IH; [done|]. intros y Hy. apply Hall. by right.
Qed.

Lemma filter_none {A : Type} (P : A → Prop) `{!∀ x, Decision (P x)} (l : list A) :
  filter P l = [] ↔ ∀ x, x ∈ l → ¬ P x.
Proof.
  split.
  - intros Hnil x Hx HP. by eapply filter_nil_not_elem_of.
  - induction l as [|x l IH]; intros Hall; [done|].
    rewrite filter_cons, decide_False by (apply Hall; left).
    apply IH. intros y Hy. apply Hall. by right.
Qed.

(** Either [delete_op] writes nothing, or it returns the success result and
    runs its tag loop over the tags of the prepared reference. *)
Lemma delete_op_cases (table_name : option string) (current_user : string) (op : Op.t) :
  (∀ s, (Service.delete_op table_name current_user op s).1 ≠ Returned Service.deleted
        ∧ (Service.delete_op table_name current_user op s).2 = s)
  ∨ ∃ effective,
      Op.tags (Service.delete_prepare op) = Some effective
      ∧ ∀ s, Service.delete_op table_name current_user op s
             = (Returned Service.deleted,
                foldl (Service.delete_tag "system" (Service.delete_prepare op)) s effective).
Proof.
  unfold Service.delete_op.
  destruct table_name as [[|c name]|]; cbn; [by left| |by left].
  destruct (Op.tags (Service.delete_prepare op)) as [effective|] eqn:Htags; cbn;
    [right; eauto|by left].
Qed.

(** X5.  A reference that matches no record of "system" on id, name and url
    together deletes nothing: the table is left exactly as it was. *)
Theorem delete_without_match_changes_nothing (table_name : option string)
    (current_user : string) (ref : Op.t) (s : Store) :
  (∀ tag r, r ∈ partition s "system" tag → Service.matches ref r = false) →
  (Service.delete_op table_name current_user ref s).2 = s.
Proof.
  intros Hnone.
  destruct (delete_op_cases table_name current_user ref) as [Hsame|(effective & _ & Hrun)];
    [apply Hsame|].
  rewrite Hrun. cbn. apply map_eq. intros [u t]. rewrite lookup_delete_tags.
  destruct (decide _) as [[-> _]|]; [|done].
  specialize (Hnone t). unfold partition in Hnone.
  destruct (s !! ("system", t)) as [l|] eqn:Hl; cbn in *; [|done].
  rewrite filter_all; [by destruct l|].
  intros x Hx. rewrite delete_prepare_matches. by apply Hnone.
Qed.

Lemma delete_without_match_changes_nothing_witness :
  (Service.delete_op (Some "ops") "alice" echo_ref
     (Service.write_ops (Some "ops") "alice" [ping] ∅).2).2
  = (Service.write_ops (Some "ops") "alice" [ping] ∅).2.
Proof.
  apply (delete_without_match_changes_nothing (Some "ops") "alice" echo_ref).
  intros tag r.
  destruct (decide (tag = "default")) as [->|Hdefault];
    [|destruct (decide (tag = "all")) as [->|Hall]].
  - intros Hr. apply list_elem_of_singleton in Hr. subst r. reflexivity.
  - intros Hr. apply list_elem_of_singleton in Hr. subst r. reflexivity.
  - unfold partition. rewrite write_ops_success by reflexivity. cbn [foldl].
    rewrite lookup_write_op, decide_False.
    + intros Hr. by apply elem_of_nil in Hr.
    + intros [_ [?|[?|[]%elem_of_nil]%elem_of_cons]%elem_of_cons]; done.
Defined.

(** X6.  Deleting by the same reference a second time changes nothing
    more: the table after two deletes is the table after one, and the second
    call gives the same result again. *)
Theorem delete_idempotent (table_name : option string) (current_user : string)
    (ref : Op.t) (s : Store) :
  Service.delete_op table_name current_user ref
    (Service.delete_op table_name current_user ref s).2
  = Service.delete_op table_name current_user ref s.
Proof.
  destruct (delete_op_cases table_name current_user ref) as [Hsame|(effective & _ & Hrun)].
  - by rewrite (proj2 (Hsame s)).
  - rewrite !Hrun. cbn. f_equal. apply map_eq. intros [u t].
    rewrite !lookup_delete_tags. destruct (decide _); [|done].
    apply purged_idemp.
Qed.

(** X7.  A delete only takes entries away: every partition of the table
    afterwards is a sub-list of what it was, with the remaining entries in
    their order. *)
Theorem delete_only_removes (table_name : option string) (current_user : string)
    (ref : Op.t) (s : Store) (user tag : string) :
  partition (Service.delete_op table_name current_user ref s).2 user tag
    `sublist_of` partition s user tag.
Proof.
  destruct (delete_op_cases table_name current_user ref) as [Hsame|(effective & _ & Hrun)].
  - by rewrite (proj2 (Hsame s)).
  - rewrite Hrun. cbn. rewrite partition_delete_tags.
    destruct (decide _); [apply sublist_filter|done].
Qed.

(** X8.  A reference without a [tags] key makes [delete_op] raise
    [KeyError] once the table name is known: the default ["default"] of line
    184 is given to a local list, and the loop of line 200 reads the key of
    the reference itself.  Nothing is deleted. *)
Theorem delete_without_tags_raises (name current_user : string) (ref : Op.t) (s : Store) :
  name ≠ "" →
  Op.tags ref = None →
  Service.delete_op (Some name) current_user ref s = (Raised (KeyError "tags"), s).
Proof.
  intros Hname Htags. unfold Service.delete_op, Service.delete_prepare.
  rewrite Htags. destruct name as [|c name]; [done|]. cbn. by rewrite Htags.
Qed.

Lemma delete_without_tags_raises_witness :
  Service.delete_op (Some "ops") "alice" echo_ref_untagged echo_store
  = (Raised (KeyError "tags"), echo_store).
Proof.
  apply (delete_without_tags_raises "ops" "alice" echo_ref_untagged echo_store);
    [discriminate|reflexivity].
Defined.

(** X9.  In a partition that the delete goes through, the key itself is
    removed exactly when the partition was not empty and every entry matched
    the reference; otherwise the key stays and holds the entries that do not
    match. *)
Theorem delete_removes_key_iff_all_match (table_name : option string)
    (current_user : string) (ref : Op.t) (s : Store) (tags : list string) (tag : string)
    (existing_ops : list Op.t) :
  (Service.delete_op table_name current_user ref s).1 = Returned Service.deleted →
  Op.tags ref = Some tags →
  tag ∈ tags ∨ tag = "all" →
  s !! ("system", tag) = Some existing_ops →
  let s' := (Service.delete_op table_name current_user ref s).2 in
  (s' !! ("system", tag) = None ↔
   existing_ops ≠ [] ∧ ∀ r, r ∈ existing_ops → Service.matches ref r = true)
  ∧ (s' !! ("system", tag) ≠ None →
     s' !! ("system", tag)
     = Some (filter (λ existing_op, Service.matches ref existing_op = false) existing_ops)).
Proof.
  intros Hret Htags Htag Hs s'.
  destruct (delete_op_cases table_name current_user ref) as [Hsame|(effective & Heff & Hrun)];
    [by destruct (Hsame s)|].
  destruct (delete_prepare_tags ref tags Htags) as (effective' & Heff' & Hmem).
  assert (effective' = effective) as -> by congruence.
  assert (s' !! ("system", tag) = purged ref (Some existing_ops)) as ->.
  { subst s'. rewrite Hrun. cbn [snd].
    rewrite lookup_delete_tags, decide_True, Hs by (split; [done|by apply Hmem]).
    unfold purged.
    rewrite (list_filter_iff _ (λ x, Service.matches ref x = false));
      [done|]. intros x. by rewrite delete_prepare_matches. }
  unfold purged.
  destruct (filter _ existing_ops) as [|f filtered] eqn:Hfilter.
  - rewrite filter_none in Hfilter. destruct existing_ops as [|e l].
    + split; [|done]. split; [done|]. by intros [? _].
    + split; [|done]. split; [|done]. intros _. split; [done|].
      intros r Hr. specialize (Hfilter r Hr). by destruct (Service.matches ref r).
  - split; [|done]. split; [done|]. intros [_ Hall].
    assert (f ∈ filter (λ x, Service.matches ref x = false) existing_ops) as Hf
      by (rewrite Hfilter; left).
    apply list_elem_of_filter in Hf as [Hno Hin]. rewrite (Hall f Hin) in Hno. done.
Qed.

Lemma delete_removes_key_iff_all_match_witness :
  (Service.delete_op (Some "ops") "alice" echo_ref echo_store).2 !! ("system", "all") = None.
Proof.
  destruct (delete_removes_key_iff_all_match (Some "ops") "alice" echo_ref echo_store
              ["default"] "all" [Service.stored echo]) as [[_ Hgone] _];
    [reflexivity|reflexivity|by right|reflexivity|].
  apply Hgone. split; [discriminate|].
  intros r Hr. apply list_elem_of_singleton in Hr. subst r. reflexivity.
Defined.

(** ** What a fetch passes on *)

(** X10.  A failure of the caller's own query is not swallowed: whoever the
    user is, [fetch_user_ops] ends with the exception of that query, and the
    partitions of "system" are not consulted. *)
Theorem fetch_own_failure_propagates (s : Store) (failing : string → string → option exn)
    (current_user tag : string) (e : exn) (fuel : nat) :
  (1 ≤ fuel)%nat →
  failing current_user tag = Some e →
  Service.fetch_user_ops_fuel fuel (Service.table_query s failing) current_user tag
  = Some (Raised e).
Proof.
  intros Hfuel Hfail. destruct fuel as [|fuel]; [lia|].
  rewrite fetch_unfold. unfold Service.table_query at 1. by rewrite Hfail.
Qed.

Lemma fetch_own_failure_propagates_witness :
  Service.fetch_user_ops
    (Service.table_query echo_store
       (λ user _, if bool_decide (user = "alice") then Some (ClientError "down") else None))
    "alice" "default"
  = Some (Raised (ClientError "down")).
Proof.
  apply (fetch_own_failure_propagates echo_store
           (λ user _, if bool_decide (user = "alice") then Some (ClientError "down") else None)
           "alice" "default" (ClientError "down") 2); [lia|reflexivity].
Defined.

(** The catalogue of "system" read by "system" itself. *)
Lemma fetch_system_alone_witness :
  Service.fetch_user_ops (Service.table_query echo_store (λ _ _, None)) "system" "all"
  = Some (Returned (Service.ok_fetch (partition echo_store "system" "all"))).
Proof.
  apply (fetch_system_alone echo_store (λ _ _, None) "all" 2); [lia|reflexivity].
Defined.

(** ** When the command-line tool registers *)

Lemma tools_write_tag_fresh (current_user : string) (op_dict : Op.t) (tag : string)
    (s : Store) :
  (∀ e, e ∈ partition s current_user tag → Op.id e ≠ Op.id op_dict) →
  Tools.write_tag current_user op_dict tag s
  = (Returned (), Service.write_tag current_user op_dict s tag).
Proof.
  unfold partition, Tools.write_tag, Service.write_tag, query.
  destruct (s !! (current_user, tag)) as [existing_ops|]; cbn; [|done].
  intros Hfresh. apply find_op_index_None in Hfresh.
  unfold Tools.write_item, Service.upsert_ops. by rewrite Hfresh.
Qed.

Lemma partition_write_tag (user : string) (op : Op.t) (s : Store) (tag u t : string) :
  partition (Service.write_tag user op s tag) u t
  = if decide ((u, t) = (user, tag)) then upserted op (s !! (u, t)) else partition s u t.
Proof.
  unfold partition. rewrite write_tag_insert.
  destruct (decide ((u, t) = (user, tag))) as [->|Hne].
  - by rewrite lookup_insert_eq.
  - by rewrite lookup_insert_ne.
Qed.

Lemma tools_write_tag_raised_present (current_user : string) (op_dict : Op.t)
    (tag : string) (s s' : Store) (e : exn) :
  Tools.write_tag current_user op_dict tag s = (Raised e, s') →
  ∃ x, x ∈ partition s current_user tag ∧ Op.id x = Op.id op_dict.
Proof.
  unfold Tools.write_tag, query, partition.
  destruct (s !! (current_user, tag)) as [existing_ops|]; cbn; [|done].
  unfold Tools.write_item.
  destruct (find_op_index (Op.id op_dict) existing_ops) as [index|] eqn:Hfind; [|done].
  intros _. apply find_op_index_Some in Hfind as (x & Hx%list_elem_of_lookup_2 & Hid & _).
  eauto.
Qed.

(** The tag loop returns exactly on distinct tags none of whose partitions
    holds the id; it raises nothing but the [NameError] of line 344. *)
Lemma tools_write_tags_outcome (current_user : string) (op_dict : Op.t)
    (tags : list string) (s : Store) :
  ((Tools.for_each (Tools.write_tag current_user op_dict) tags s).1 = Returned () ↔
   NoDup tags
   ∧ ∀ tag e, tag ∈ tags → e ∈ partition s current_user tag → Op.id e ≠ Op.id op_dict)
  ∧ ((Tools.for_each (Tools.write_tag current_user op_dict) tags s).1 = Returned ()
     ∨ (Tools.for_each (Tools.write_tag current_user op_dict) tags s).1
       = Raised (NameError "json")).
Proof.
  revert s. induction tags as [|tag0 tags IH]; intros s.
  - cbn. split; [|by left]. split; [|done]. intros _. split; [apply NoDup_nil_2|].
    by intros tag e ?%elem_of_nil.
  - cbn [Tools.for_each].
    destruct (Tools.write_tag current_user op_dict tag0 s) as [[[]|e0] s1] eqn:Htag0.
    + assert (∀ e, e ∈ partition s current_user tag0 → Op.id e ≠ Op.id op_dict) as Hfresh.
      { intros e He Hid.
        rewrite (tools_write_tag_present _ _ _ _ e He Hid) in Htag0. done. }
      apply tools_write_tag_returned in Htag0 as ->.
      destruct (IH (Service.write_tag current_user op_dict s tag0)) as [Hiff Hor].
      split; [|done]. rewrite Hiff, NoDup_cons. split.
      * intros [Hnodup Hrest].
        assert (tag0 ∉ tags) as Hnotin.
        { intros Hin. apply (Hrest tag0 op_dict Hin); [|done].
          rewrite partition_write_tag, decide_True by done. apply upserted_elem. }
        split; [done|]. intros tag e [->|Hin]%elem_of_cons He; [by apply Hfresh|].
        apply (Hrest tag e Hin). rewrite partition_write_tag, decide_False; [done|].
        intros [= ->]. done.
      * intros [[Hnotin Hnodup] Hall]. split; [done|].
        intros tag e Hin He. apply (Hall tag e); [by right|].
        rewrite partition_write_tag, decide_False in He; [done|].
        intros [= ->]. done.
    + pose proof Htag0 as Hraised.
      apply tools_write_tag_raises in Hraised as [-> ->]. cbn.
      split; [|by right]. split; [done|]. intros [_ Hall].
      apply tools_write_tag_raised_present in Htag0 as (x & Hx & Hid).
      destruct (Hall tag0 x); [left|done|done].
Qed.





(** X14.  When the tags before the first one that stops the loop are
    distinct and free of the id, they stay written: the call ends with the
    [NameError], and the table holds the record under each of those earlier
    tags, with nothing undone. *)
Theorem tools_failure_leaves_earlier_tags (name owner : string)
    (op : Tools.OperationModel.t) (s : Store) (written rest : list string)
    (tag : string) (e : Op.t) :
  name ≠ "" →
  Tools.operation_tags op = written ++ tag :: rest →
  NoDup written →
  (∀ t r, t ∈ written → r ∈ partition s owner t → Op.id r ≠ Tools.OperationModel.id op) →
  tag ∉ written →
  e ∈ partition s owner tag →
  Op.id e = Tools.OperationModel.id op →
  Tools.write_ops (Some name) owner [op] s
  = (Raised (NameError "json"),
     foldl (Service.write_tag owner (Tools.stored op)) s written)
  ∧ ∀ t, t ∈ written →
      Tools.stored op
        ∈ partition (Tools.write_ops (Some name) owner [op] s).2 owner t.
Proof.
  intros Hname Htags Hnodup Hfresh Hnotin He Hid.
  assert (Tools.write_ops (Some name) owner [op] s
          = (Raised (NameError "json"),
             foldl (Service.write_tag owner (Tools.stored op)) s written)) as Hrun.
  { rewrite tools_write_ops_one, tools_write_op_unfold, Htags, tools_for_each_app by done.
    destruct (tools_write_tags_outcome owner (Tools.stored op) written s) as [Hiff _].
    destruct (Tools.for_each _ written s) as [[[]|e'] s1] eqn:Hwritten; cbn in Hiff.
    - apply tools_write_tags_returned in Hwritten as ->. cbn [Tools.for_each].
      rewrite (tools_write_tag_present _ _ _ _ e); [done| |done].
      unfold partition in *. rewrite lookup_write_tags, decide_False; [done|].
      by intros [_ ?].
    - destruct Hiff as [_ Hiff].
      assert (Raised e' = Returned ()) as Hno
        by (apply Hiff; split; [exact Hnodup|exact Hfresh]).
      discriminate Hno. }
  split; [done|]. intros t Ht. rewrite Hrun. cbn [snd]. unfold partition.
  rewrite lookup_write_tags, decide_True by done. apply upserted_elem.
Qed.

Lemma tools_failure_leaves_earlier_tags_witness :
  Tools.stored echo_model
    ∈ partition
        (Tools.write_ops (Some "ops") "alice" [echo_model]
           {[ ("alice", "all") := [Service.stored echo] ]}).2
        "alice" "default".
Proof.
  destruct (tools_failure_leaves_earlier_tags "ops" "alice" echo_model
              {[ ("alice", "all") := [Service.stored echo] ]}
              ["default"] [] "all" (Service.stored echo)) as [_ Hkept];
    [discriminate|reflexivity|apply NoDup_singleton| | |left|reflexivity|].
  - intros t r Ht%list_elem_of_singleton Hr. subst t. by apply elem_of_nil in Hr.
  - intros Hin%list_elem_of_singleton. discriminate.
  - apply Hkept. left.
Defined.

(** ** The scanner's records *)

Section ScannerRecords.
Context `{Tools.PyRuntime}.

Lemma new_OperationModel_fields (description id method name url : PyConst)
    (params : list ParamModel) (tags : list string) (parameters : list (PyConst * PyVal))
    (operation : Tools.OperationModel.t) :
  Tools.new_OperationModel description id method name params url tags parameters
  = Some operation →
  Tools.str_field description = Some (Tools.OperationModel.description operation)
  ∧ Tools.str_field url = Some (Tools.OperationModel.url operation)
  ∧ (∃ m, Tools.str_field method = Some m
          ∧ Tools.OperationModel.method operation = Tools.str_upper m
          ∧ Tools.str_upper m ∈ Tools.allowed_methods)
  ∧ Tools.OperationModel.params operation = params
  ∧ Tools.OperationModel.includeAccessToken operation = true
  ∧ Tools.OperationModel.type operation = "custom"
  ∧ Tools.OperationModel.schema operation = None.
Proof.
  unfold Tools.new_OperationModel. intros Hnew.
  destruct (Tools.str_field description) as [d|]; [|done]. cbn in Hnew.
  destruct (Tools.str_field id) as [i|]; [|done]. cbn in Hnew.
  destruct (Tools.str_field method) as [m|]; [|done]. cbn in Hnew.
  unfold Tools.validate_method in Hnew.
  destruct (bool_decide (Tools.str_upper m ∈ Tools.allowed_methods)) eqn:Hallowed;
    [|done]. cbn in Hnew.
  apply bool_decide_eq_true in Hallowed.
  destruct (Tools.str_field name) as [n|]; [|done]. cbn in Hnew.
  destruct (Tools.str_field url) as [u|]; [|done]. cbn in Hnew.
  injection Hnew as <-. cbn. eauto 10.
Qed.

(** What a recognised decorator that yields an operation was given. *)
Lemma extract_op_inputs (op_kwargs : gmap (option string) Tools.expr)
    (operation : Tools.OperationModel.t) :
  Tools.extract_op op_kwargs = Returned (Some operation) →
  ∃ params_node params_dict description method path parameters,
    op_kwargs !! Some "params" = Some params_node
    ∧ Tools.extract_dict params_node = Returned params_dict
    ∧ mapM (λ '(name, desc), Tools.new_ParamModel desc name) params_dict
      = Returned (Tools.OperationModel.params operation)
    ∧ op_kwargs !! Some "description" = Some (Tools.ast_Constant description)
    ∧ (if Tools.has op_kwargs "method"
       then op_kwargs !! Some "method" = Some (Tools.ast_Constant method)
       else method = CStr "POST")
    ∧ op_kwargs !! Some "path" = Some (Tools.ast_Constant path)
    ∧ ∃ name,
        Tools.new_OperationModel description name method name
          (Tools.OperationModel.params operation) path (Tools.extract_tags op_kwargs)
          parameters
        = Some operation.
Proof.
  unfold Tools.extract_op.
  destruct (_ && _); [|done].
  destruct (Tools.getitem op_kwargs "params") as [params_node|] eqn:Hparams; [|done].
  cbn [mbind outcome_bind].
  destruct (Tools.extract_dict params_node) as [params_dict|] eqn:Hdict; [|done].
  cbn [mbind outcome_bind].
  assert (op_kwargs !! Some "params" = Some params_node) as Hnode.
  { unfold Tools.getitem in Hparams.
    destruct (op_kwargs !! Some "params"); by simplify_eq. }
  assert (Tools.has op_kwargs "params" = true) as Hhas.
  { unfold Tools.has. apply bool_decide_eq_true. by rewrite Hnode. }
  rewrite Hhas.
  destruct (mapM _ params_dict) as [params|] eqn:Hmap; [|done]. cbn [mbind outcome_bind].
  destruct (Tools.extract_dict_from_ast _) as [parameters|]; [|done].
  cbn [mbind outcome_bind].
  destruct (Tools.getitem op_kwargs "description" ≫= Tools.attr_s) as [description|]
    eqn:Hdesc; [|done].
  cbn [mbind outcome_bind].
  destruct (Tools.getitem op_kwargs "name" ≫= Tools.attr_s) as [name|] eqn:Hname;
    [|done].
  cbn [mbind outcome_bind].
  destruct (if Tools.has op_kwargs "method" then _ else _) as [method|] eqn:Hmethod;
    [|done].
  cbn [mbind outcome_bind].
  destruct (Tools.getitem op_kwargs "path" ≫= Tools.attr_s) as [path|] eqn:Hpath; [|done].
  cbn [mbind outcome_bind].
  destruct (Tools.new_OperationModel _ _ _ _ _ _ _ _) as [operation'|] eqn:Hnew;
    [|by destruct name].
  intros [= ->].
  pose proof (new_OperationModel_fields _ _ _ _ _ _ _ _ _ Hnew) as (_ & _ & _ & Hp & _).
  exists params_node, params_dict, description, method, path, parameters.
  split; [done|]. split; [done|]. split; [by rewrite Hp|].
  split; [by apply getitem_attr_s|]. split.
  { destruct (Tools.has op_kwargs "method"); [by apply getitem_attr_s|].
    by injection Hmethod as <-. }
  split; [by apply getitem_attr_s|]. exists name. by rewrite Hp.
Qed.

(** X15.  Every record in the scanner's output has a method of the allowed
    set, the access token switched on, the type "custom" and no schema. *)
Theorem scanned_records_are_normalised (path : Tools.entry)
    (r : Tools.OperationModel.t) :
  r ∈ Tools.scan_ops path →
  Tools.OperationModel.method r ∈ Tools.allowed_methods
  ∧ Tools.OperationModel.includeAccessToken r = true
  ∧ Tools.OperationModel.type r = "custom"
  ∧ Tools.OperationModel.schema r = None.
Proof.
  intros [keywords Hop]%scan_ops_elem.
  apply extract_op_inputs in Hop
    as (? & ? & ? & ? & ? & ? & ? & ? & ? & ? & ? & ? & name & Hnew).
  apply new_OperationModel_fields in Hnew
    as (? & ? & (m & ? & Hmethod & Hm) & ? & Htoken & Htype & Hschema).
  by rewrite Hmethod.
Qed.

(** X16.  A record comes from literals only: the [path], [description] and
    [name] keywords of its declaration are constants, validated as they
    stand into its url, description and name; its method is the upper case
    of the constant under [method], or of "POST" when the keyword is
    missing; and the [params] keyword is a dictionary display. *)
Theorem scanned_record_reads_literals (op_kwargs : gmap (option string) Tools.expr)
    (r : Tools.OperationModel.t) :
  Tools.extract_op op_kwargs = Returned (Some r) →
  (∃ path, op_kwargs !! Some "path" = Some (Tools.ast_Constant path)
           ∧ Tools.str_field path = Some (Tools.OperationModel.url r))
  ∧ (∃ description,
       op_kwargs !! Some "description" = Some (Tools.ast_Constant description)
       ∧ Tools.str_field description = Some (Tools.OperationModel.description r))
  ∧ (∃ name, op_kwargs !! Some "name" = Some (Tools.ast_Constant name)
             ∧ Tools.str_field name = Some (Tools.OperationModel.name r))
  ∧ (∃ m, Tools.OperationModel.method r = Tools.str_upper m
          ∧ if Tools.has op_kwargs "method"
            then ∃ method, op_kwargs !! Some "method" = Some (Tools.ast_Constant method)
                           ∧ Tools.str_field method = Some m
            else m = "POST")
  ∧ ∃ keys values, op_kwargs !! Some "params" = Some (Tools.ast_Dict keys values).
Proof.
  intros Hop. pose proof (extract_op_Some _ _ Hop) as (_ & _ & name & Hname & _ & Hnm).
  apply extract_op_inputs in Hop
    as (params_node & params_dict & description & method & path & parameters
        & Hnode & Hdict & _ & Hdesc & Hmethod & Hpath & name' & Hnew).
  apply new_OperationModel_fields in Hnew
    as (Hd & Hu & (m & Hm & Hupper & _) & _).
  split; [eauto|]. split; [eauto|]. split; [eauto|]. split.
  - exists m. split; [done|].
    destruct (Tools.has op_kwargs "method"); [eauto|].
    subst method. cbn in Hm. by injection Hm as <-.
  - destruct params_node; try done. eauto.
Qed.

Lemma extract_decorators_acc (decorator_list : list Tools.expr)
    (ops_found : list Tools.OperationModel.t) :
  Tools.extract_decorators ops_found decorator_list
  = ops_found ++ Tools.extract_decorators [] decorator_list.
Proof.
  revert ops_found. induction decorator_list as [|d ds IH]; intros ops_found; cbn.
  - by rewrite app_nil_r.
  - destruct (Tools.op_keywords d) as [keywords|]; [|apply IH].
    destruct (Tools.extract_op _) as [[operation|]|].
    + rewrite IH, (IH [operation]). by rewrite <- app_assoc.
    + apply IH.
    + by rewrite app_nil_r.
Qed.

Lemma extract_nodes_acc (nodes : list Tools.node)
    (ops_found : list Tools.OperationModel.t) :
  foldl Tools.extract_node ops_found nodes
  = ops_found ++ foldl Tools.extract_node [] nodes.
Proof.
  revert ops_found. induction nodes as [|n nodes IH]; intros ops_found; cbn [foldl].
  - by rewrite app_nil_r.
  - rewrite IH, (IH (Tools.extract_node [] n)).
    destruct n as [fname ds|]; cbn [Tools.extract_node].
    + by rewrite (extract_decorators_acc ds ops_found), <- app_assoc.
    + done.
Qed.

(** X17.  The functions of a file are read one by one: the records of a
    file are those of the nodes before a function, then those of the
    function, then those of the nodes after it.  Whatever happens while one
    function is processed, an exception included, the records of the others
    are kept. *)
Theorem functions_are_scanned_independently (before after : list Tools.node)
    (n : Tools.node) :
  Tools.extract_ops_from_file (Returned (before ++ n :: after))
  = Tools.extract_ops_from_file (Returned before)
    ++ Tools.extract_ops_from_file (Returned [n])
    ++ Tools.extract_ops_from_file (Returned after).
Proof.
  cbn [Tools.extract_ops_from_file]. rewrite foldl_app. cbn [foldl].
  rewrite extract_nodes_acc.
  destruct n as [fname ds|]; cbn [Tools.extract_node].
  - rewrite extract_decorators_acc, <- app_assoc. done.
  - done.
Qed.

End ScannerRecords.

Lemma scanned_records_are_normalised_witness :
  Tools.OperationModel.method second_model ∈ Tools.allowed_methods
  ∧ Tools.OperationModel.includeAccessToken second_model = true
  ∧ Tools.OperationModel.type second_model = "custom"
  ∧ Tools.OperationModel.schema second_model = None.
Proof.
  apply (scanned_records_are_normalised (H := Tools.strict_runtime) sample_tree second_model).
  vm_compute. right. left.
Defined.

Lemma scanned_record_reads_literals_witness :
  ∃ path,
    Tools.kwargs_of [(Some "path", Tools.ast_Constant (CStr "/echo"));
                     (Some "name", Tools.ast_Constant (CStr "echo"));
                     (Some "description", Tools.ast_Constant (CStr "d"));
                     (Some "params", Tools.ast_Dict [] [])] !! Some "path"
    = Some (Tools.ast_Constant path)
    ∧ @Tools.str_field Tools.strict_runtime path
      = Some (Tools.OperationModel.url untagged_model).
Proof.
  destruct (scanned_record_reads_literals (H := Tools.strict_runtime)
              (Tools.kwargs_of [(Some "path", Tools.ast_Constant (CStr "/echo"));
                                (Some "name", Tools.ast_Constant (CStr "echo"));
                                (Some "description", Tools.ast_Constant (CStr "d"));
                                (Some "params", Tools.ast_Dict [] [])])
              untagged_model) as [Hpath _]; [reflexivity|exact Hpath].
Defined.

Section ScannerShapes.
Context `{Tools.PyRuntime}.

(** X18.  The tags of a record are the strings of the list display under
    [tags], in their order; a [tags] keyword that is anything but a list
    display (a tuple, a name, a call) gives the record no tag. *)
Theorem declared_tags_read_verbatim (op_kwargs : gmap (option string) Tools.expr)
    (r : Tools.OperationModel.t) :
  Tools.extract_op op_kwargs = Returned (Some r) →
  (∀ tags : list string,
     op_kwargs !! Some "tags"
     = Some (Tools.ast_List ((λ tag, Tools.ast_Constant (CStr tag)) <$> tags)) →
     Tools.OperationModel.tags r = tags)
  ∧ (∀ e, op_kwargs !! Some "tags" = Some e → (∀ elts, e ≠ Tools.ast_List elts) →
       Tools.OperationModel.tags r = []).
Proof.
  intros (_ & -> & _)%extract_op_Some. unfold Tools.extract_tags. split.
  - intros tags ->. induction tags as [|tag tags IH]; cbn; [done|]. by rewrite IH.
  - intros e -> Hnot. destruct e; try done. by destruct (Hnot elts).
Qed.

Lemma dict_set_fresh {V : Type} (key : string) (value : V)
    (d : list (string * V)) (f : V → PyConst) :
  key ∉ d.*1 →
  Tools.dict_set (CStr key) (f value) ((λ kv, (CStr kv.1, f kv.2)) <$> d)
  = (λ kv, (CStr kv.1, f kv.2)) <$> (d ++ [(key, value)]).
Proof.
  induction d as [|[k v] d IH]; cbn; [done|].
  intros [Hne Hnotin]%not_elem_of_cons.
  rewrite bool_decide_eq_false_2 by done. by rewrite IH.
Qed.

Lemma dict_of_distinct_keys (entries seen : list (string * string)) :
  NoDup (seen ++ entries).*1 →
  foldl (λ d kv, Tools.dict_set kv.1 kv.2 d)
        ((λ kv, (CStr kv.1, CStr kv.2)) <$> seen)
        ((λ kv, (CStr kv.1, CStr kv.2)) <$> entries)
  = (λ kv, (CStr kv.1, CStr kv.2)) <$> (seen ++ entries).
Proof.
  revert seen. induction entries as [|[k v] entries IH]; intros seen Hnodup; cbn.
  - by rewrite app_nil_r.
  - rewrite (dict_set_fresh k v seen CStr).
    + rewrite IH; rewrite <- app_assoc; done.
    + rewrite fmap_app in Hnodup. apply NoDup_app in Hnodup as (_ & Hdisj & _).
      intros Hin. apply (Hdisj k Hin). left.
Qed.

Lemma extract_dict_of_strings (entries : list (string * string)) :
  NoDup entries.*1 →
  Tools.extract_dict
    (Tools.ast_Dict ((λ kv, Some (Tools.ast_Constant (CStr kv.1))) <$> entries)
                    ((λ kv, Tools.ast_Constant (CStr kv.2)) <$> entries))
  = Returned ((λ kv, (CStr kv.1, CStr kv.2)) <$> entries).
Proof.
  intros Hnodup. unfold Tools.extract_dict.
  assert (mapM (λ kv : option Tools.expr * Tools.expr,
                  key ← Tools.key_s kv.1; value ← Tools.attr_s kv.2; mret (key, value))
               (zip ((λ kv, Some (Tools.ast_Constant (CStr kv.1))) <$> entries)
                    ((λ kv, Tools.ast_Constant (CStr kv.2)) <$> entries))
          = Returned ((λ kv, (CStr kv.1, CStr kv.2)) <$> entries)) as ->.
  { clear Hnodup. induction entries as [|[k v] entries IH]; cbn; [done|].
    cbn in IH. by rewrite IH. }
  cbn. f_equal. by apply (dict_of_distinct_keys entries []).
Qed.

(** X19.  A flat [params] dictionary of string literals with distinct keys
    becomes the parameters of the record, one for each entry, in the order
    of the display, the key as the name and the value as the description. *)
Theorem params_keep_declaration_order (op_kwargs : gmap (option string) Tools.expr)
    (r : Tools.OperationModel.t) (entries : list (string * string)) :
  Tools.extract_op op_kwargs = Returned (Some r) →
  op_kwargs !! Some "params"
  = Some (Tools.ast_Dict ((λ kv, Some (Tools.ast_Constant (CStr kv.1))) <$> entries)
                         ((λ kv, Tools.ast_Constant (CStr kv.2)) <$> entries)) →
  NoDup entries.*1 →
  Tools.OperationModel.params r = (λ kv, mkParam kv.2 kv.1) <$> entries.
Proof.
  intros Hop Hparams Hnodup.
  apply extract_op_inputs in Hop
    as (params_node & params_dict & ? & ? & ? & ? & Hnode & Hdict & Hmap & _).
  rewrite Hparams in Hnode. injection Hnode as <-.
  rewrite extract_dict_of_strings in Hdict by done. injection Hdict as <-.
  assert (mapM (λ '(name, desc), Tools.new_ParamModel desc name)
               ((λ kv : string * string, (CStr kv.1, CStr kv.2)) <$> entries)
          = Returned ((λ kv, mkParam kv.2 kv.1) <$> entries)) as Hall.
  { clear. induction entries as [|[k v] entries IH]; cbn; [done|].
    cbn in IH. by rewrite IH. }
  rewrite Hall in Hmap. by injection Hmap as <-.
Qed.

Lemma prepare_model_dump (op : Tools.OperationModel.t) :
  Tools.OperationModel.includeAccessToken op = true →
  Service.prepare (Tools.model_dump op) = Tools.prepare op.
Proof. destruct op. cbn. by intros ->. Qed.

Lemma tools_write_ops_as_service (owner : string) (ops : list Tools.OperationModel.t)
    (s s' : Store) :
  (∀ op, op ∈ ops → Tools.OperationModel.includeAccessToken op = true) →
  Tools.for_each (Tools.write_op owner) ops s = (Returned (), s') →
  s' = foldl (Service.write_op owner) s (Tools.model_dump <$> ops).
Proof.
  revert s. induction ops as [|op ops IH]; intros s Htoken.
  - cbn. by intros [= <-].
  - cbn [Tools.for_each]. rewrite fmap_cons. cbn [foldl].
    destruct (Tools.write_op owner op s) as [[[]|e] s1] eqn:Hop; [|done].
    rewrite tools_write_op_unfold in Hop. apply tools_write_tags_returned in Hop.
    intros Hrest. apply IH in Hrest; [|intros op' Hop'; apply Htoken; by right].
    rewrite Hrest. f_equal. unfold Service.write_op.
    rewrite prepare_model_dump by (apply Htoken; left). done.
Qed.

(** X20.  Scanning and registering agree with the service: when
    [scan_and_register_ops] returns the success result for the owner
    "system", the table it leaves is the one that the service's [write_ops]
    leaves when it is sent the scanned records. *)
Theorem registration_agrees_with_service (table_name : option string)
    (path : Tools.entry) (current_user : string) (s s' : Store) :
  Tools.scan_and_register_ops table_name path "system" s
  = (Returned Tools.registered, s') →
  Service.write_ops table_name current_user (Tools.model_dump <$> Tools.scan_ops path) s
  = (Tools.registered, s').
Proof.
  unfold Tools.scan_and_register_ops, Tools.write_ops, Service.write_ops.
  destruct table_name as [[|c name]|]; cbn; try done.
  destruct (Tools.for_each _ _ s) as [[[]|e] s1] eqn:Hwrite; [|done].
  intros [= <-]. apply tools_write_ops_as_service in Hwrite; [by rewrite Hwrite|].
  intros op Hop. by apply scanned_records_are_normalised in Hop as (_ & ? & _).
Qed.

(** A step of the walk, by its two halves. *)
Lemma find_python_files_Dir (name : string) (entries : list Tools.entry) :
  Tools.find_python_files (Tools.Dir name entries)
  = python_files_in entries ++ python_files_below entries.
Proof. reflexivity. Qed.

Lemma python_files_in_app (es1 es2 : list Tools.entry) :
  python_files_in (es1 ++ es2) = python_files_in es1 ++ python_files_in es2.
Proof.
  induction es1 as [|[file tree|name sub] es1 IH]; cbn; [done| |done].
  destruct (Tools.endswith file ".py"); cbn; by rewrite IH.
Qed.

Lemma python_files_below_app (es1 es2 : list Tools.entry) :
  python_files_below (es1 ++ es2) = python_files_below es1 ++ python_files_below es2.
Proof.
  induction es1 as [|[file tree|name sub] es1 IH]; [done|done|].
  cbn [app python_files_below].
  destruct (bool_decide (name ∈ Tools.IGNORED_DIRECTORIES)); [done|].
  by rewrite IH, <- app_assoc.
Qed.

Lemma scan_ops_concat (path : Tools.entry) :
  Tools.scan_ops path
  = concat (Tools.extract_ops_from_file <$> Tools.find_python_files path).
Proof.
  unfold Tools.scan_ops. generalize (Tools.find_python_files path) as files.
  intros files.
  assert (∀ acc, foldl (λ all_ops file_path,
                          all_ops ++ Tools.extract_ops_from_file file_path) acc files
                 = acc ++ concat (Tools.extract_ops_from_file <$> files)) as Hfold.
  { induction files as [|f files IH]; intros acc; cbn; [by rewrite app_nil_r|].
    by rewrite IH, <- app_assoc. }
  apply (Hfold []).
Qed.

(** X21.  The walk skips what it is told to skip: a directory named
    "node_modules", "venv" or "__pycache__" is not entered, whatever it
    holds, and a file whose name does not end in ".py" is not read; the scan
    gives what it gives without them.  The name of the directory the scan
    starts from is not looked at. *)
Theorem walk_skips_ignored (root name : string) (before after sub : list Tools.entry)
    (tree : outcome (list Tools.node)) :
  (name ∈ Tools.IGNORED_DIRECTORIES →
   Tools.scan_ops (Tools.Dir root (before ++ Tools.Dir name sub :: after))
   = Tools.scan_ops (Tools.Dir root (before ++ after)))
  ∧ (Tools.endswith name ".py" = false →
     Tools.scan_ops (Tools.Dir root (before ++ Tools.File name tree :: after))
     = Tools.scan_ops (Tools.Dir root (before ++ after)))
  ∧ Tools.scan_ops (Tools.Dir name sub) = Tools.scan_ops (Tools.Dir root sub).
Proof.
  split; [|split; [|done]].
  - intros Hignored. rewrite !scan_ops_concat, !find_python_files_Dir.
    rewrite !python_files_in_app, !python_files_below_app. cbn.
    by rewrite bool_decide_eq_true_2.
  - intros Hsuffix. rewrite !scan_ops_concat, !find_python_files_Dir.
    rewrite !python_files_in_app, !python_files_below_app. cbn.
    by rewrite Hsuffix.
Qed.

(** X22.  A file that does not parse gives no record and takes none away:
    the scan of a directory gives what it gives without that file. *)
Theorem unparseable_file_is_skipped (root file : string) (before after : list Tools.entry)
    (e : exn) :
  Tools.scan_ops (Tools.Dir root (before ++ Tools.File file (Raised e) :: after))
  = Tools.scan_ops (Tools.Dir root (before ++ after)).
Proof.
  rewrite !scan_ops_concat, !find_python_files_Dir.
  rewrite !python_files_in_app, !python_files_below_app. cbn.
  destruct (Tools.endswith file ".py"); [|done].
  rewrite !fmap_app, !concat_app. cbn. done.
Qed.

End ScannerShapes.

Lemma params_keep_declaration_order_witness :
  Tools.OperationModel.params get_operations_model
  = [mkParam "The optional tag to search for." "tag"].
Proof.
  apply (params_keep_declaration_order (H := Tools.strict_runtime)
           (Tools.kwargs_of get_operations_keywords) get_operations_model
           [("tag", "The optional tag to search for.")]);
    [reflexivity|reflexivity|apply NoDup_singleton].
Defined.

Lemma declared_tags_read_verbatim_witness :
  Tools.OperationModel.tags get_operations_model = ["ops"; "default"].
Proof.
  destruct (declared_tags_read_verbatim (H := Tools.strict_runtime)
              (Tools.kwargs_of get_operations_keywords) get_operations_model)
    as [Hlist _]; [reflexivity|].
  apply (Hlist ["ops"; "default"]). reflexivity.
Defined.

Lemma registration_agrees_with_service_witness :
  Service.write_ops (Some "ops") "alice"
    (Tools.model_dump <$> @Tools.scan_ops Tools.strict_runtime single_tree) ∅
  = (Tools.registered,
     (@Tools.scan_and_register_ops Tools.strict_runtime (Some "ops") single_tree
        "system" ∅).2).
Proof.
  apply (registration_agrees_with_service (H := Tools.strict_runtime) (Some "ops")
           single_tree "alice" ∅). reflexivity.
Defined.

(** ** The command line *)

Lemma tools_for_each_frame {A : Type} (body : A → Store → outcome () * Store)
    (k : string * string) (l : list A) (s : Store) :
  (∀ x s0, (body x s0).2 !! k = s0 !! k) →
  (Tools.for_each body l s).2 !! k = s !! k.
Proof.
  intros Hbody. revert s. induction l as [|x l IH]; intros s; cbn; [done|].
  specialize (Hbody x s). destruct (body x s) as [[[]|e] s1]; cbn in *.
  - by rewrite IH.
  - done.
Qed.

Lemma tools_write_ops_frame (table_name : option string) (owner : string)
    (ops : list Tools.OperationModel.t) (s : Store) (u t : string) :
  u ≠ owner →
  (Tools.write_ops table_name owner ops s).2 !! (u, t) = s !! (u, t).
Proof.
  intros Hu.
  assert ((Tools.for_each (Tools.write_op owner) ops s).2 !! (u, t) = s !! (u, t)) as Hrun.
  { apply tools_for_each_frame. intros op s0. rewrite tools_write_op_unfold.
    apply tools_for_each_frame. intros tag s1.
    destruct (Tools.write_tag owner (Tools.stored op) tag s1) as [[[]|e] s2] eqn:Htag.
    - apply tools_write_tag_returned in Htag as ->. cbn.
      rewrite write_tag_insert, lookup_insert_ne; [done|]. by intros [= ->].
    - by apply tools_write_tag_raises in Htag as [_ ->]. }
  unfold Tools.write_ops. destruct table_name as [[|c name]|]; cbn; try done.
  by destruct (Tools.for_each _ ops s) as [[[]|e] s1].
Qed.

(** X23.  A run of [main] with the command [register] touches the
    partitions of "system" only; it never prints the result "table name is
    not set", because it stops with exit code 1, the table untouched, when no
    table name is resolved; and a table name given on the command line
    decides alone, whatever the environment and the stage files hold. *)
Theorem main_registers_under_system `{Tools.PyRuntime} (env_ops_table : option string)
    (var_file : string → nat → option (outcome (option string)))
    (filesystem : string → Tools.entry) (stage dir ops_table : option string)
    (s : Store) (u t : string) :
  u ≠ "system" →
  let run :=
    Tools.main env_ops_table var_file filesystem stage dir ops_table Tools.register s in
  run.2 !! (u, t) = s !! (u, t)
  ∧ (∀ r, run.1 = Tools.Finished (Some r) → r = Tools.registered)
  ∧ (∀ code, run.1 = Tools.Exited code → code = 1%nat ∧ run.2 = s)
  ∧ (Tools.truthy ops_table = true →
     run = match Tools.scan_and_register_ops ops_table
                   (filesystem (if Tools.truthy dir then default "." dir else "."))
                   "system" s with
           | (Returned response, s') => (Tools.Finished (Some response), s')
           | (Raised e, s') => (Tools.Failed e, s')
           end).
Proof.
  intros Hu run. subst run. unfold Tools.main.
  destruct (Tools.resolve_ops_table env_ops_table var_file stage ops_table)
    as [resolved|e] eqn:Hresolve.
  - destruct (Tools.truthy resolved) eqn:Hresolved; cbn [negb].
    + unfold Tools.scan_and_register_ops.
      pose proof (tools_write_ops_frame resolved "system"
                    (Tools.scan_ops (filesystem (if Tools.truthy dir
                                                 then default "." dir else ".")))
                    s u t Hu) as Hframe.
      destruct resolved as [[|c name]|]; try done.
      split; [|split; [|split]].
      * by destruct (Tools.write_ops _ _ _ s) as [[r|e] s1].
      * intros r. unfold Tools.write_ops.
        destruct (Tools.for_each _ _ s) as [[[]|e] s1]; cbn; [|done].
        by intros [= <-].
      * intros code. by destruct (Tools.write_ops _ _ _ s) as [[r|e] s1].
      * intros Hgiven. unfold Tools.resolve_ops_table in Hresolve.
        rewrite Hgiven in Hresolve. by injection Hresolve as ->.
    + split; [done|]. split; [done|]. split; [by intros code [= <-]|].
      intros Hgiven. unfold Tools.resolve_ops_table in Hresolve.
      rewrite Hgiven in Hresolve. injection Hresolve as ->. congruence.
  - split; [done|]. split; [done|]. split; [done|].
    intros Hgiven. unfold Tools.resolve_ops_table in Hresolve.
    by rewrite Hgiven in Hresolve.
Qed.

Lemma main_registers_under_system_witness :
  (@Tools.main Tools.strict_runtime None (λ _ _, None) (λ _, single_tree)
     (Some "dev") None None Tools.register echo_store).2 !! ("alice", "all")
  = echo_store !! ("alice", "all")
  ∧ (@Tools.main Tools.strict_runtime None (λ _ _, None) (λ _, single_tree)
       (Some "dev") None None Tools.register echo_store).2
    = echo_store.
Proof.
  destruct (main_registers_under_system (H := Tools.strict_runtime) None (λ _ _, None)
              (λ _, single_tree) (Some "dev") None None echo_store "alice" "all")
    as (Hframe & _ & Hexit & _); [discriminate|].
  split; [exact Hframe|]. exact (proj2 (Hexit 1%nat eq_refl)).
Defined.

(** ** The model rate table's two vocabularies *)

Section Renaming.
Context {V : Type}.

(** The loop shared by the two transformations. *)
Definition renamed (field_map : list (string * string)) (model acc : gmap string V)
    : gmap string V :=
  foldl (λ transformed '(from, to),
           match model !! from with
           | Some value => <[to := value]> transformed
           | None => transformed
           end)
        acc field_map.

Lemma renamed_other (field_map : list (string * string)) (model acc : gmap string V)
    (key : string) :
  key ∉ field_map.*2 → renamed field_map model acc !! key = acc !! key.
Proof.
  revert acc. induction field_map as [|[from to] field_map IH]; intros acc; [done|].
  cbn. intros [Hne Hnotin]%not_elem_of_cons.
  change (foldl _ ?a field_map) with (renamed field_map model a). rewrite IH by done.
  destruct (model !! from); [|done]. by rewrite lookup_insert_ne.
Qed.

Lemma renamed_lookup (field_map : list (string * string)) (model acc : gmap string V)
    (from to : string) :
  NoDup field_map.*2 → (from, to) ∈ field_map →
  renamed field_map model acc !! to
  = match model !! from with
    | Some value => Some value
    | None => acc !! to
    end.
Proof.
  revert acc. induction field_map as [|[from0 to0] field_map IH]; intros acc.
  - by intros _ ?%elem_of_nil.
  - cbn. intros [Hnotin Hnodup]%NoDup_cons [Hhere|Hlater]%elem_of_cons.
    + injection Hhere as <- <-.
      change (foldl _ ?a field_map) with (renamed field_map model a).
      rewrite renamed_other by done.
      destruct (model !! from); [by rewrite lookup_insert_eq|done].
    + change (foldl _ ?a field_map) with (renamed field_map model a).
      rewrite IH by done. destruct (model !! from); [done|].
      destruct (model !! from0); [|done]. rewrite lookup_insert_ne; [done|].
      intros ->. apply Hnotin. apply list_elem_of_fmap. by exists (from, to).
Qed.

End Renaming.

Lemma field_map_internal_distinct : NoDup Billing.dynamodb_to_internal_field_map.*2.
Proof. apply (bool_decide_unpack _). vm_compute. exact I. Qed.

Lemma field_map_dynamodb_distinct : NoDup Billing.dynamodb_to_internal_field_map.*1.
Proof. apply (bool_decide_unpack _). vm_compute. exact I. Qed.

Lemma db_to_internal_renamed {V : Type} (model : gmap string V) :
  Billing.model_transform_db_to_internal model
  = renamed Billing.dynamodb_to_internal_field_map model ∅.
Proof. unfold Billing.model_transform_db_to_internal, renamed. reflexivity. Qed.

Lemma internal_to_db_renamed {V : Type} (model : gmap string V) :
  Billing.model_transform_internal_to_db model
  = renamed Billing.internal_to_dynamodb_field_map model ∅.
Proof. unfold Billing.model_transform_internal_to_db, renamed. reflexivity. Qed.

Lemma internal_field_map_targets :
  Billing.internal_to_dynamodb_field_map.*2 = Billing.dynamodb_to_internal_field_map.*1.
Proof. vm_compute. reflexivity. Qed.

Lemma internal_field_map_elem (dynamodb_key internal_key : string) :
  (dynamodb_key, internal_key) ∈ Billing.dynamodb_to_internal_field_map →
  (internal_key, dynamodb_key) ∈ Billing.internal_to_dynamodb_field_map.
Proof.
  intros Hin. unfold Billing.internal_to_dynamodb_field_map.
  apply list_elem_of_fmap. by exists (dynamodb_key, internal_key).
Qed.

Lemma db_to_internal_lookup {V : Type} (model : gmap string V)
    (dynamodb_key internal_key : string) :
  (dynamodb_key, internal_key) ∈ Billing.dynamodb_to_internal_field_map →
  Billing.model_transform_db_to_internal model !! internal_key = model !! dynamodb_key.
Proof.
  intros Hin. rewrite db_to_internal_renamed.
  rewrite (renamed_lookup _ _ _ dynamodb_key internal_key field_map_internal_distinct Hin).
  by destruct (model !! dynamodb_key).
Qed.

(** X24.  Translating a row of the rate table to the internal names and
    back gives the row again, without the attributes that the field map does
    not name; in particular a row with known attributes only comes back
    unchanged.  No attribute is renamed onto another one. *)
Theorem model_transform_round_trip {V : Type} (model : gmap string V) :
  (∀ key,
     Billing.model_transform_internal_to_db (Billing.model_transform_db_to_internal model)
       !! key
     = if decide (key ∈ Billing.dynamodb_to_internal_field_map.*1)
       then model !! key else None)
  ∧ ((∀ key, is_Some (model !! key) → key ∈ Billing.dynamodb_to_internal_field_map.*1) →
     Billing.model_transform_internal_to_db (Billing.model_transform_db_to_internal model)
     = model).
Proof.
  assert (∀ key,
    Billing.model_transform_internal_to_db (Billing.model_transform_db_to_internal model)
      !! key
    = if decide (key ∈ Billing.dynamodb_to_internal_field_map.*1)
      then model !! key else None) as Hlookup.
  { intros key. rewrite internal_to_db_renamed.
    destruct (decide (key ∈ Billing.dynamodb_to_internal_field_map.*1)) as [Hin|Hout].
    - apply list_elem_of_fmap in Hin as ([dk ik] & -> & Hpair). cbn [fst].
      rewrite (renamed_lookup _ _ _ ik dk).
      + rewrite (db_to_internal_lookup model dk ik Hpair). by destruct (model !! dk).
      + rewrite internal_field_map_targets. apply field_map_dynamodb_distinct.
      + by apply internal_field_map_elem.
    - rewrite renamed_other; [done|]. by rewrite internal_field_map_targets. }
  split; [done|]. intros Hknown. apply map_eq. intros key. rewrite Hlookup.
  destruct (decide _) as [|Hout]; [done|].
  destruct (model !! key) eqn:Hkey; [|done]. destruct Hout. apply Hknown. by rewrite Hkey.
Qed.

(** X25.  [models_are_current] answers for the first model alone.  For
    models that come from the rate table, it says that the first row has all
    of the twenty attributes of the field map: one missing attribute of the
    first row makes the whole table out of date, and the rows after the first
    are not looked at.  An empty table is never current. *)
Theorem models_are_current_reads_first_row {V : Type} (model_id : string)
    (row : gmap string V) (others : list (string * gmap string V)) :
  (Billing.models_are_current
     ((model_id, Billing.model_transform_db_to_internal row) :: others) = true ↔
   ∀ dynamodb_key, dynamodb_key ∈ Billing.dynamodb_to_internal_field_map.*1 →
     is_Some (row !! dynamodb_key))
  ∧ Billing.models_are_current (V := V) [] = false.
Proof.
  split; [|done]. unfold Billing.models_are_current.
  rewrite forallb_forall. split.
  - intros Hall dk Hdk. apply list_elem_of_fmap in Hdk as ([dk' ik] & Heq & Hpair).
    cbn [fst] in Heq. subst dk.
    rewrite <- (db_to_internal_lookup row dk' ik Hpair).
    eapply bool_decide_eq_true_1, Hall. apply list_elem_of_In, list_elem_of_fmap.
    by exists (dk', ik).
  - intros Hall column Hcolumn.
    apply list_elem_of_In, list_elem_of_fmap in Hcolumn as ([dk ik] & Heq & Hpair).
    cbn [snd] in Heq. subst column.
    apply bool_decide_eq_true_2. rewrite (db_to_internal_lookup row dk ik Hpair).
    apply Hall. apply list_elem_of_fmap. by exists (dk, ik).
Qed.

Lemma model_transform_round_trip_witness :
  Billing.model_transform_internal_to_db
    (Billing.model_transform_db_to_internal
       ({[ "ModelID" := 1%nat; "Provider" := 2%nat ]} : gmap string nat))
  = {[ "ModelID" := 1%nat; "Provider" := 2%nat ]}.
Proof.
  destruct (model_transform_round_trip
              ({[ "ModelID" := 1%nat; "Provider" := 2%nat ]} : gmap string nat))
    as [_ Hsame].
  apply Hsame. intros key [v Hv].
  destruct (decide (key = "ModelID")) as [->|Hid]; [left|].
  destruct (decide (key = "Provider")) as [->|Hprovider]; [right; right; left|].
  rewrite lookup_insert_ne in Hv by done.
  rewrite lookup_singleton_ne in Hv by done. done.
Defined.

(** ** Declarations that the scanner gives up on *)

Section ScannerDrops.
Context `{Tools.PyRuntime}.

Lemma extract_op_parameters (op_kwargs : gmap (option string) Tools.expr)
    (operation : Tools.OperationModel.t) :
  Tools.extract_op op_kwargs = Returned (Some operation) →
  ∃ parameters,
    Tools.extract_dict_from_ast
      (default (Tools.ast_Dict [] []) (op_kwargs !! Some "parameters"))
    = Returned parameters.
Proof.
  unfold Tools.extract_op.
  destruct (_ && _); [|done].
  destruct (Tools.getitem op_kwargs "params") as [params_node|]; [|done].
  cbn [mbind outcome_bind].
  destruct (Tools.extract_dict params_node) as [params_dict|]; [|done].
  cbn [mbind outcome_bind].
  destruct (if Tools.has op_kwargs "params" then _ else _) as [params|]; [|done].
  cbn [mbind outcome_bind].
  destruct (Tools.extract_dict_from_ast _) as [parameters|]; [|done].
  eauto.
Qed.

Lemma mapM_attr_s_raises (elts : list Tools.expr) (elt : Tools.expr) :
  elt ∈ elts → (∀ value, elt ≠ Tools.ast_Constant value) →
  mapM Tools.attr_s elts = Raised (AttributeError "s").
Proof.
  intros Hin Hnot. induction elts as [|x elts IH]; [by apply elem_of_nil in Hin|].
  cbn. destruct x as [value| | | | |]; cbn; try done.
  apply elem_of_cons in Hin as [->|Hin]; [by destruct (Hnot value)|].
  by rewrite IH.
Qed.

(** X26.  A nested [parameters] dictionary whose first entry is a list
    display holding anything but constants (a nested dictionary, a name)
    makes the scanner give the declaration up: [extract_dict_from_ast] ends
    with [AttributeError], and no record is produced. *)
Theorem parameters_with_nested_list_dropped (op_kwargs : gmap (option string) Tools.expr)
    (key : PyConst) (keys : list (option Tools.expr)) (elts values : list Tools.expr)
    (elt : Tools.expr) :
  op_kwargs !! Some "parameters"
  = Some (Tools.ast_Dict (Some (Tools.ast_Constant key) :: keys)
                         (Tools.ast_List elts :: values)) →
  elt ∈ elts →
  (∀ value, elt ≠ Tools.ast_Constant value) →
  Tools.extract_dict_from_ast
    (Tools.ast_Dict (Some (Tools.ast_Constant key) :: keys) (Tools.ast_List elts :: values))
  = Raised (AttributeError "s")
  ∧ ∀ r, Tools.extract_op op_kwargs ≠ Returned (Some r).
Proof.
  intros Hparameters Hin Hnot.
  assert (Tools.extract_dict_from_ast
            (Tools.ast_Dict (Some (Tools.ast_Constant key) :: keys)
                            (Tools.ast_List elts :: values))
          = Raised (AttributeError "s")) as Hraise.
  { cbn. by rewrite (mapM_attr_s_raises elts elt). }
  split; [done|]. intros r Hop.
  apply extract_op_parameters in Hop as [parameters Hreturned].
  rewrite Hparameters in Hreturned.
  change (default _ (Some ?node)) with node in Hreturned.
  rewrite Hraise in Hreturned. discriminate Hreturned.
Qed.

End ScannerDrops.

Lemma parameters_with_nested_list_dropped_witness :
  Tools.extract_dict_from_ast
    (Tools.ast_Dict [Some (Tools.ast_Constant (CStr "required"))]
                    [Tools.ast_List [Tools.ast_Name "TAG"]])
  = Raised (AttributeError "s").
Proof.
  destruct (parameters_with_nested_list_dropped (H := Tools.strict_runtime)
              {[ Some "parameters" :=
                   Tools.ast_Dict [Some (Tools.ast_Constant (CStr "required"))]
                                  [Tools.ast_List [Tools.ast_Name "TAG"]] ]}
              (CStr "required") [] [Tools.ast_Name "TAG"] [] (Tools.ast_Name "TAG"))
    as [Hraise _]; [reflexivity|left|discriminate|exact Hraise].
Defined.

(** ** Two declarations of one name *)






